(** * Customer points tracker: the ledger rules of the page component

    The repository is a single client-side page (two variants of it: one
    that redeems in $5 steps and a second one that redeems in $10 steps)
    on top of a hosted relational store.  This development embeds the event
    handlers of that page, the values they compute with and the store they
    talk to, and proves the ledger properties of the specification.

    Conventions of the embedding.

    - A JavaScript [number] is [NaN], one of the two infinities, or a finite
      value, held as the rational it denotes.  A string is converted, and
      sums, products and quotients are computed, exactly and then rounded
      to the nearest double, ties to the even significand, beyond the
      largest double to an infinity.  The sign of zero is not represented.
    - A string is the sequence of its UTF-16 code units, here the code
      units below 256.
    - React state is a record, an event handler is a computation on the
      page state, the store and the outages ahead, with early [return],
      [throw] and [try]/[catch]/[finally] kept as outcomes.  A request
      that falls into an outage does not reach the store and comes back
      as an error; [run] is a run without outages.
    - The store takes into its INTEGER columns the integers from -2^31 to
      2^31-1 and refuses every other value.
    - The form of the purchase amount checks its number field as the HTML
      standard says before the handler is called.
    - Rendering, styling, the dark mode switch, console logging and the
      effect hooks that React runs after a render are not part of the
      embedding. *)

From Stdlib Require Import ZArith QArith Qcanon Qround Qpower Qabs Lqa.
From Stdlib Require Import List String Ascii Bool Lia DecimalString.
From Stdlib Require Import Sorting.Sorted Sorting.Permutation.
Import ListNotations.

Local Open Scope Z_scope.

(** ** JavaScript numbers *)

Inductive number : Type :=
| NaN
| PInf
| NInf
| Fin (q : Qc).

(** The number denoted by an integer. *)
Definition Zq (z : Z) : Qc := Q2Qc (inject_Z z).
Definition num (z : Z) : number := Fin (Zq z).
Arguments Zq : simpl never.

Definition Qc_eqb (a b : Qc) : bool := Qeq_bool (this a) (this b).
Definition Qc_leb (a b : Qc) : bool := Qle_bool (this a) (this b).
Definition Qc_ltb (a b : Qc) : bool := negb (Qle_bool (this b) (this a)).

Definition Qc_zero : Qc := Q2Qc 0.

(** *** Rounding to a double *)

(** 2 to the power [e], for any integer [e]. *)
Definition pow2 (e : Z) : Q := Qpower 2 e.

(** The exponent of a positive rational [a]: the [e] with
    [2^e <= a < 2^(e+1)]. *)
Definition exponent_of (a : Q) : Z :=
  let e0 := Z.log2 (Qnum a) - Z.log2 (Zpos (Qden a)) in
  if Qle_bool (pow2 e0) a then e0 else e0 - 1.

(** The integer nearest to [x]; the even one of the two when [x] is half
    way between them. *)
Definition nearest_even (x : Q) : Z :=
  let f := Qfloor x in
  match (x - inject_Z f ?= 1 # 2)%Q with
  | Lt => f
  | Gt => f + 1
  | Eq => if Z.even f then f else f + 1
  end.

(** The double nearest to a positive rational: a significand of 53 bits
    at the exponent of [a], or a multiple of 2^-1074 below the normal
    range; [None] when the result is beyond the largest double. *)
Definition round_positive (a : Q) : option Q :=
  let ulp := pow2 (Z.max (exponent_of a - 52) (-1074)) in
  let v := (inject_Z (nearest_even (a / ulp)) * ulp)%Q in
  if Qle_bool (pow2 1024) v then None else Some v.

(** The number that a real result [q] becomes. *)
Definition round64 (q : Q) : number :=
  match (q ?= 0)%Q with
  | Eq => num 0
  | Gt => match round_positive q with
          | Some v => Fin (Q2Qc v)
          | None => PInf
          end
  | Lt => match round_positive (- q) with
          | Some v => Fin (Q2Qc (- v))
          | None => NInf
          end
  end.
Arguments round64 : simpl never.

(** [x + y] *)
Definition add (x y : number) : number :=
  match x, y with
  | NaN, _ | _, NaN => NaN
  | PInf, NInf | NInf, PInf => NaN
  | PInf, _ | _, PInf => PInf
  | NInf, _ | _, NInf => NInf
  | Fin a, Fin b => round64 (this (a + b)%Qc)
  end.

(** [- x] *)
Definition neg (x : number) : number :=
  match x with
  | NaN => NaN
  | PInf => NInf
  | NInf => PInf
  | Fin a => Fin (- a)%Qc
  end.

(** [x - y] *)
Definition sub (x y : number) : number := add x (neg y).

(** Sign of a finite value: [Lt] negative, [Eq] zero, [Gt] positive. *)
Definition Qc_sign (a : Qc) : comparison :=
  if Qc_eqb a Qc_zero then Eq else if Qc_ltb a Qc_zero then Lt else Gt.

Definition signed_inf (positive : bool) : number :=
  if positive then PInf else NInf.

(** Product of an infinity of the given sign with [y]. *)
Definition mul_inf (positive : bool) (y : number) : number :=
  match y with
  | NaN => NaN
  | PInf => signed_inf positive
  | NInf => signed_inf (negb positive)
  | Fin b =>
      match Qc_sign b with
      | Eq => NaN
      | Gt => signed_inf positive
      | Lt => signed_inf (negb positive)
      end
  end.

(** [x * y] *)
Definition mul (x y : number) : number :=
  match x, y with
  | NaN, _ | _, NaN => NaN
  | PInf, _ => mul_inf true y
  | NInf, _ => mul_inf false y
  | _, PInf => mul_inf true x
  | _, NInf => mul_inf false x
  | Fin a, Fin b => round64 (this (a * b)%Qc)
  end.

(** [x / y]; a finite non-zero value over zero is an infinity of the sign
    of the dividend. *)
Definition div (x y : number) : number :=
  match x, y with
  | NaN, _ | _, NaN => NaN
  | (PInf | NInf), (PInf | NInf) => NaN
  | PInf, Fin b => match Qc_sign b with Lt => NInf | _ => PInf end
  | NInf, Fin b => match Qc_sign b with Lt => PInf | _ => NInf end
  | Fin _, (PInf | NInf) => Fin Qc_zero
  | Fin a, Fin b =>
      match Qc_sign b with
      | Eq => match Qc_sign a with Eq => NaN | Gt => PInf | Lt => NInf end
      | _ => round64 (this (a / b)%Qc)
      end
  end.

(** Integer part of a rational, rounding towards zero. *)
Definition Qtrunc (q : Q) : Z := Z.quot (Qnum q) (Zpos (Qden q)).

(** [x % y]: the remainder has the sign of the dividend.  The remainder
    of two doubles is a double: nothing is rounded. *)
Definition rem (x y : number) : number :=
  match x, y with
  | NaN, _ | _, NaN => NaN
  | (PInf | NInf), _ => NaN
  | Fin a, (PInf | NInf) => Fin a
  | Fin a, Fin b =>
      match Qc_sign b with
      | Eq => NaN
      | _ => Fin (a - b * Q2Qc (inject_Z (Qtrunc (this (a / b)%Qc))))%Qc
      end
  end.

(** [Math.floor] and [Math.ceil]; the result is a double whenever the
    argument is one. *)
Definition Math_floor (x : number) : number :=
  match x with
  | Fin a => num (Qfloor (this a))
  | _ => x
  end.

Definition Math_ceil (x : number) : number :=
  match x with
  | Fin a => num (Qceiling (this a))
  | _ => x
  end.

(** [x < y], [x <= y]: false as soon as one side is [NaN]. *)
Definition lt (x y : number) : bool :=
  match x, y with
  | NaN, _ | _, NaN => false
  | _, NInf => false
  | NInf, _ => true
  | PInf, _ => false
  | _, PInf => true
  | Fin a, Fin b => Qc_ltb a b
  end.

Definition le (x y : number) : bool :=
  match x, y with
  | NaN, _ | _, NaN => false
  | NInf, _ => true
  | _, PInf => true
  | _, NInf => false
  | PInf, _ => false
  | Fin a, Fin b => Qc_leb a b
  end.

(** [x === y] and [x !== y] on numbers. *)
Definition strict_eq (x y : number) : bool :=
  match x, y with
  | PInf, PInf | NInf, NInf => true
  | Fin a, Fin b => Qc_eqb a b
  | _, _ => false
  end.

Definition strict_neq (x y : number) : bool := negb (strict_eq x y).

(** Truthiness of a number, and [x || y]. *)
Definition truthy (x : number) : bool :=
  match x with
  | NaN => false
  | Fin a => negb (Qc_eqb a Qc_zero)
  | _ => true
  end.

Definition or_else (x y : number) : number := if truthy x then x else y.

(** ** Strings and the conversion [Number(string)] *)

Definition char_code (c : ascii) : Z := Z.of_N (N_of_ascii c).

(** White space and line terminators, as [trim] and [Number] skip them. *)
Definition is_white_space (c : ascii) : bool :=
  let n := char_code c in
  ((9 <=? n) && (n <=? 13)) || (n =? 32) || (n =? 160).

Fixpoint trimStart (s : list ascii) : list ascii :=
  match s with
  | c :: r => if is_white_space c then trimStart r else s
  | [] => []
  end.

Definition trimEnd (s : list ascii) : list ascii := rev (trimStart (rev s)).

(** [s.trim()] *)
Definition trim (s : string) : string :=
  string_of_list_ascii (trimEnd (trimStart (list_ascii_of_string s))).

Definition digit_in_base (base : Z) (c : ascii) : option Z :=
  let n := char_code c in
  let v :=
    if (48 <=? n) && (n <=? 57) then n - 48
    else if (97 <=? n) && (n <=? 102) then n - 87
    else if (65 <=? n) && (n <=? 70) then n - 55
    else base in
  if v <? base then Some v else None.

(** Reads the longest prefix of digits of [s] in the given base: the value
    read after [acc], the number of digits read, and the rest. *)
Fixpoint take_digits (base : Z) (s : list ascii) (acc : Z) (count : Z)
  : Z * Z * list ascii :=
  match s with
  | c :: r =>
      match digit_in_base base c with
      | Some v => take_digits base r (base * acc + v) (count + 1)
      | None => (acc, count, s)
      end
  | [] => (acc, count, [])
  end.

Definition pow10 (e : Z) : Qc :=
  if 0 <=? e then Q2Qc (inject_Z (10 ^ e))
  else Q2Qc (1 # Z.to_pos (10 ^ (- e))).

(** ExponentPart, or nothing, up to the end of the literal. *)
Definition parse_exponent (s : list ascii) : option Z :=
  match s with
  | [] => Some 0
  | c :: r =>
      if (char_code c =? 101) || (char_code c =? 69) then
        let '(negative, digits) :=
          match r with
          | s0 :: r' =>
              if char_code s0 =? 43 then (false, r')
              else if char_code s0 =? 45 then (true, r')
              else (false, r)
          | [] => (false, r)
          end in
        match take_digits 10 digits 0 0 with
        | (e, n, []) =>
            if 0 <? n then Some (if negative then - e else e) else None
        | _ => None
        end
      else None
  end.

(** StrUnsignedDecimalLiteral *)
Definition parse_unsigned_decimal (s : list ascii) : option number :=
  if list_eq_dec ascii_dec s (list_ascii_of_string "Infinity") then Some PInf
  else
    let '(ip, ni, r1) := take_digits 10 s 0 0 in
    let '(fp, nf, r2) :=
      match r1 with
      | c :: r =>
          if char_code c =? 46 then take_digits 10 r ip 0
          else (ip, 0, r1)
      | [] => (ip, 0, r1)
      end in
    if 0 <? ni + nf then
      match parse_exponent r2 with
      | Some e =>
          Some (round64 (this (Q2Qc (inject_Z fp) * pow10 (e - nf))%Qc))
      | None => None
      end
    else None.

(** NonDecimalIntegerLiteral: [0x], [0o] and [0b] prefixes. *)
Definition parse_non_decimal (s : list ascii) : option number :=
  match s with
  | z :: p :: r =>
      if char_code z =? 48 then
        let n := char_code p in
        let base :=
          if (n =? 120) || (n =? 88) then 16
          else if (n =? 111) || (n =? 79) then 8
          else if (n =? 98) || (n =? 66) then 2
          else 0 in
        if base =? 0 then None
        else
          match take_digits base r 0 0 with
          | (v, k, []) =>
              if 0 <? k then Some (round64 (inject_Z v)) else None
          | _ => None
          end
      else None
  | _ => None
  end.

(** StrNumericLiteral *)
Definition parse_numeric (s : list ascii) : option number :=
  match parse_non_decimal s with
  | Some v => Some v
  | None =>
      match s with
      | c :: r =>
          if char_code c =? 43 then parse_unsigned_decimal r
          else if char_code c =? 45 then
            option_map neg (parse_unsigned_decimal r)
          else parse_unsigned_decimal s
      | [] => None
      end
  end.

(** [Number(s)] for a string [s]: the value that the literal denotes,
    rounded to a double. *)
Definition Number (s : string) : number :=
  match trimEnd (trimStart (list_ascii_of_string s)) with
  | [] => num 0
  | t => match parse_numeric t with Some v => v | None => NaN end
  end.

Definition number_eqb (x y : number) : bool :=
  match x, y with
  | NaN, NaN | PInf, PInf | NInf, NInf => true
  | Fin a, Fin b => Qc_eqb a b
  | _, _ => false
  end.

(** ** Dates: time values, the calendar and the host's time zone

    A time value is a number of milliseconds since 1970-01-01T00:00:00Z.
    The definitions follow the abstract operations of the language
    standard that [Date] is specified with. *)

Definition msPerDay : Z := 86400000.
Definition msPerHour : Z := 3600000.
Definition msPerMinute : Z := 60000.
Definition msPerSecond : Z := 1000.

Definition Day (t : Z) : Z := t / msPerDay.
Definition TimeWithinDay (t : Z) : Z := t mod msPerDay.

Definition is_leap_year (y : Z) : bool :=
  ((y mod 4 =? 0) && negb (y mod 100 =? 0)) || (y mod 400 =? 0).

Definition DaysInYear (y : Z) : Z := if is_leap_year y then 366 else 365.

Definition DayFromYear (y : Z) : Z :=
  365 * (y - 1970) + (y - 1969) / 4 - (y - 1901) / 100 + (y - 1601) / 400.

(** The year a day number falls in: the largest [y] with
    [DayFromYear y <= d]. *)
Definition YearFromDay (d : Z) : Z :=
  let y := 1970 + (d * 400) / 146097 in
  if d <? DayFromYear y then y - 1
  else if DayFromYear (y + 1) <=? d then y + 1
  else y.

Definition YearFromTime (t : Z) : Z := YearFromDay (Day t).

Definition DayWithinYear (t : Z) : Z := Day t - DayFromYear (YearFromTime t).

(** Days of the year that precede month [m] (0 = January .. 12). *)
Definition days_before_month (leap : bool) (m : Z) : Z :=
  let l := if leap then 1 else 0 in
  match m with
  | 0 => 0 | 1 => 31 | 2 => 59 + l | 3 => 90 + l | 4 => 120 + l
  | 5 => 151 + l | 6 => 181 + l | 7 => 212 + l | 8 => 243 + l
  | 9 => 273 + l | 10 => 304 + l | 11 => 334 + l | _ => 365 + l
  end.

Fixpoint month_of_day (leap : bool) (d : Z) (m : nat) : Z :=
  match m with
  | O => 0
  | S m' =>
      if days_before_month leap (Z.of_nat m) <=? d then Z.of_nat m
      else month_of_day leap d m'
  end.

(** Month 0..11 and day of the month 1..31 of a time value. *)
Definition MonthFromTime (t : Z) : Z :=
  month_of_day (is_leap_year (YearFromTime t)) (DayWithinYear t) 11.

Definition DateFromTime (t : Z) : Z :=
  DayWithinYear t
  - days_before_month (is_leap_year (YearFromTime t)) (MonthFromTime t) + 1.

Definition HourFromTime (t : Z) : Z := (t / msPerHour) mod 24.
Definition MinFromTime (t : Z) : Z := (t / msPerMinute) mod 60.
Definition SecFromTime (t : Z) : Z := (t / msPerSecond) mod 60.
Definition msFromTime (t : Z) : Z := t mod msPerSecond.

(** [MakeDay(year, month, date)]: months and dates out of range carry
    over. *)
Definition MakeDay (year month date : Z) : Z :=
  let ym := year + month / 12 in
  let mn := month mod 12 in
  DayFromYear ym + days_before_month (is_leap_year ym) mn + date - 1.

Definition MakeDate (day time : Z) : Z := day * msPerDay + time.

Definition MakeTime (hour min sec ms : Z) : Z :=
  hour * msPerHour + min * msPerMinute + sec * msPerSecond + ms.

(** [TimeClip]: [None] stands for an invalid date. *)
Definition TimeClip (t : Z) : option Z :=
  if Z.abs t <=? 8640000000000000 then Some t else None.

(** The host's time zone: the offset from UTC in force before the first
    transition, and the transitions in ascending order, each the UTC
    instant from which a new offset applies.  Offsets are in
    milliseconds. *)
Record TimeZone : Type := mkTimeZone {
  initial_offset : Z;
  transitions : list (Z * Z)
}.

Fixpoint offset_at_utc (o : Z) (trs : list (Z * Z)) (t : Z) : Z :=
  match trs with
  | [] => o
  | (instant, o') :: r =>
      if t <? instant then o else offset_at_utc o' r t
  end.

(** Offset for a local time; a local time that a transition skips or
    repeats is read with the offset before the transition. *)
Fixpoint offset_at_local (o : Z) (trs : list (Z * Z)) (tl : Z) : Z :=
  match trs with
  | [] => o
  | (instant, o') :: r =>
      if (tl - o <? instant) || (tl - o' <? instant) then o
      else offset_at_local o' r tl
  end.

Definition LocalTZA (tz : TimeZone) (t : Z) (isUTC : bool) : Z :=
  if isUTC then offset_at_utc (initial_offset tz) (transitions tz) t
  else offset_at_local (initial_offset tz) (transitions tz) t.

Definition LocalTime (tz : TimeZone) (t : Z) : Z := t + LocalTZA tz t true.
Definition UTC (tz : TimeZone) (t : Z) : Z := t - LocalTZA tz t false.

Definition utc_zone : TimeZone := mkTimeZone 0 [].
Definition fixed_zone (offset : Z) : TimeZone := mkTimeZone offset [].

(** *** Decimal fields *)

Definition digit_char (d : Z) : ascii := ascii_of_N (Z.to_N (48 + d mod 10)).

(** The [width] low decimal digits of [n], most significant first. *)
Fixpoint pad_digits (width : nat) (n : Z) : list ascii :=
  match width with
  | O => []
  | S w => pad_digits w (n / 10) ++ [digit_char n]
  end.

Definition days_in_month (y m : Z) : Z :=
  days_before_month (is_leap_year y) (m + 1)
  - days_before_month (is_leap_year y) m.

(** The date-only form [YYYY-MM-DD] of the date time string format, which
    denotes midnight UTC of that day; it is the form the date inputs of
    the page produce.  Anything else is an invalid date here. *)
Definition parse_date_only (s : string) : option Z :=
  match list_ascii_of_string s with
  | [y1; y2; y3; y4; h1; m1; m2; h2; d1; d2] =>
      match take_digits 10 [y1; y2; y3; y4] 0 0,
            take_digits 10 [m1; m2] 0 0,
            take_digits 10 [d1; d2] 0 0 with
      | (y, 4, []), (m, 2, []), (d, 2, []) =>
          if (char_code h1 =? 45) && (char_code h2 =? 45)
             && (1 <=? m) && (m <=? 12)
             && (1 <=? d) && (d <=? days_in_month y (m - 1))
          then Some (MakeDate (MakeDay y (m - 1) d) 0)
          else None
      | _, _, _ => None
      end
  | _ => None
  end.

(** [new Date(s)] *)
Definition new_Date (s : string) : option Z := parse_date_only s.

(** [d.getDate()]: the day of the month in local time. *)
Definition getDate (tz : TimeZone) (t : Z) : Z := DateFromTime (LocalTime tz t).

(** [d.setDate(date)]: replaces the day of the month in local time. *)
Definition setDate (tz : TimeZone) (t : Z) (date : Z) : option Z :=
  let tl := LocalTime tz t in
  let newDate :=
    MakeDate (MakeDay (YearFromTime tl) (MonthFromTime tl) date)
             (TimeWithinDay tl) in
  TimeClip (UTC tz newDate).

(** [d.toISOString()] *)
Definition toISOString (t : Z) : string :=
  let y := YearFromTime t in
  let year :=
    if (0 <=? y) && (y <=? 9999) then pad_digits 4 y
    else (if y <? 0 then "-"%char else "+"%char) :: pad_digits 6 (Z.abs y) in
  string_of_list_ascii
    (year ++ ["-"%char] ++ pad_digits 2 (MonthFromTime t + 1)
     ++ ["-"%char] ++ pad_digits 2 (DateFromTime t)
     ++ ["T"%char] ++ pad_digits 2 (HourFromTime t)
     ++ [":"%char] ++ pad_digits 2 (MinFromTime t)
     ++ [":"%char] ++ pad_digits 2 (SecFromTime t)
     ++ ["."%char] ++ pad_digits 3 (msFromTime t) ++ ["Z"%char]).

(** [s.slice(0, n)] on a string. *)
Definition string_slice0 (n : nat) (s : string) : string := substring 0 n s.

(** ** Rows of the two tables *)

Module Customer.
Record t : Type := mk {
  id : string;
  phone_number : string;
  name : option string;
  total_points : number;
  created_at : Z
}.
End Customer.

Module Transaction.
Record t : Type := mk {
  id : string;
  customer_id : string;
  type : string;
  amount : number;
  points_changed : number;
  created_at : Z
}.
End Transaction.

(** ** The store

    Modelled from the spec: the persistent relational store and its query
    interface are an external collaborator of the page ([supabase] is
    imported from a module outside the sources at hand).  The two tables
    are lists of rows in insertion order; [created_at] is a time value;
    ids come from a counter.  The columns [total_points], [amount] and
    [points_changed] are INTEGER: a write is refused unless the value sent
    is an integer from -2^31 to 2^31-1, and [type] takes [add] and
    [redeem] only.  The store records every request that reaches it; a
    request may also fail to reach it, see [await] below. *)

Inductive Request : Type :=
| SelectCustomers
| SelectCustomerByPhone (phone : string)
| SelectCustomersByName (pattern : string)
| InsertCustomer (phone : string) (name : option string) (points : number)
| UpdateTotalPoints (id : string) (points : number)
| InsertTransaction (customer_id type : string) (amount points : number)
| SelectTransactions (customer_id : string) (gte lt : option string).

Record Store : Type := mkStore {
  customers_table : list Customer.t;
  transactions_table : list Transaction.t;
  clock : Z;
  next_id : N;
  requests : list Request
}.

(** What the client hands back: [data] and [error]. *)
Record Response (A : Type) : Type := mkResponse {
  data : option A;
  error_of : option string
}.
Arguments mkResponse {A} _ _.
Arguments data {A} _.
Arguments error_of {A} _.

Definition ok {A} (a : A) : Response A := mkResponse (Some a) None.
Definition failed {A} (code : string) : Response A := mkResponse None (Some code).

Definition unique_violation : string := "23505".
Definition not_a_single_row : string := "PGRST116".
Definition invalid_datetime : string := "22007".
Definition invalid_escape : string := "22025".
Definition not_null_violation : string := "23502".
Definition invalid_text_representation : string := "22P02".
Definition numeric_value_out_of_range : string := "22003".

(** The error of a request that did not reach the store. *)
Definition unavailable : string := "".

(** The range of an INTEGER column. *)
Definition int4_min : Z := -2147483648.
Definition int4_max : Z := 2147483647.

(** What an INTEGER column makes of a number in the body of a request.
    The body is JSON, where [NaN] and the infinities are written as
    [null], which these columns do not take: a row of the page has
    [total_points: number], [amount: number] and [points_changed: number]
    where it has [name: string | null], and the migration declares the
    balance [INTEGER NOT NULL].  A value with a fraction is no integer,
    and an integer must be in range. *)
Definition as_integer (x : number) : Z + string :=
  match x with
  | Fin q =>
      let z := Qfloor (this q) in
      if negb (Qc_eqb q (Zq z)) then inr invalid_text_representation
      else if (int4_min <=? z) && (z <=? int4_max) then inl z
      else inr numeric_value_out_of_range
  | _ => inr not_null_violation
  end.

(** The values of the column [type]. *)
Definition is_transaction_type (type : string) : bool :=
  String.eqb type "add" || String.eqb type "redeem".

Definition log (r : Request) (s : Store) : Store :=
  mkStore (customers_table s) (transactions_table s) (clock s) (next_id s)
          (requests s ++ [r]).

Definition fresh_id (s : Store) : string :=
  string_of_list_ascii
    (list_ascii_of_string "row-" ++ pad_digits 12 (Z.of_N (next_id s))).

(** Insertion into a list sorted by descending [key]; rows with equal keys
    keep their order. *)
Fixpoint insert_desc {A} (key : A -> Z) (x : A) (l : list A) : list A :=
  match l with
  | [] => [x]
  | y :: r => if key y <=? key x then x :: l else y :: insert_desc key x r
  end.

Definition order_desc {A} (key : A -> Z) (l : list A) : list A :=
  fold_right (insert_desc key) [] l.

(** [.single()] and [.maybeSingle()] *)
Definition single {A} (rows : list A) : Response A :=
  match rows with
  | [r] => ok r
  | _ => failed not_a_single_row
  end.

Definition maybeSingle {A} (rows : list A) : Response A :=
  match rows with
  | [] => mkResponse None None
  | [r] => ok r
  | _ => failed not_a_single_row
  end.

(** [from('customers').select('*').order('created_at', {ascending: false})] *)
Definition select_customers (s : Store)
  : Response (list Customer.t) * Store :=
  (ok (order_desc Customer.created_at (customers_table s)),
   log SelectCustomers s).

(** [from('customers').select('*').eq('phone_number', p).maybeSingle()] *)
Definition select_customer_by_phone (p : string) (s : Store)
  : Response Customer.t * Store :=
  (maybeSingle
     (filter (fun c => String.eqb (Customer.phone_number c) p)
             (customers_table s)),
   log (SelectCustomerByPhone p) s).

(** *** Case-insensitive pattern match of [ilike]

    [%] (or [*], its spelling in a request) stands for any run of
    characters, [_] for any one character, and a backslash takes the next
    character literally.  Letters A-Z and a-z match regardless of case. *)

Definition lower (c : ascii) : ascii :=
  let n := char_code c in
  if (65 <=? n) && (n <=? 90) then ascii_of_N (Z.to_N (n + 32)) else c.

Definition same_letter (a b : ascii) : bool :=
  char_code (lower a) =? char_code (lower b).

Fixpoint like_match (p : list ascii) (escaped : bool) : list ascii -> bool :=
  match p with
  | [] => fun s => match s with [] => negb escaped | _ => false end
  | c :: p' =>
      let literal := fun s =>
        match s with
        | x :: s' => same_letter c x && like_match p' false s'
        | [] => false
        end in
      if escaped then literal
      else if (char_code c =? 37) || (char_code c =? 42) then
        fix any (s : list ascii) : bool :=
          like_match p' false s
          || match s with [] => false | _ :: s' => any s' end
      else if char_code c =? 95 then
        fun s => match s with _ :: s' => like_match p' false s' | [] => false end
      else if char_code c =? 92 then like_match p' true
      else literal
  end.

(** A pattern must not end in an unfinished escape. *)
Fixpoint pattern_ok (p : list ascii) : bool :=
  match p with
  | [] => true
  | c :: p' =>
      if char_code c =? 92 then
        match p' with [] => false | _ :: p'' => pattern_ok p'' end
      else pattern_ok p'
  end.

Definition ilike (pattern : string) (value : option string) : bool :=
  match value with
  | Some v =>
      like_match (list_ascii_of_string pattern) false (list_ascii_of_string v)
  | None => false
  end.

(** [from('customers').select('*').ilike('name', pattern)] *)
Definition select_customers_by_name (pattern : string) (s : Store)
  : Response (list Customer.t) * Store :=
  (if pattern_ok (list_ascii_of_string pattern) then
     ok (filter (fun c => ilike pattern (Customer.name c)) (customers_table s))
   else failed invalid_escape,
   log (SelectCustomersByName pattern) s).

(** [from('customers').insert([{phone_number, name, total_points}])
    .select().single()]: the balance is an INTEGER and the phone number is
    unique. *)
Definition insert_customer (phone : string) (name : option string)
    (points : number) (s : Store) : Response Customer.t * Store :=
  let s' := log (InsertCustomer phone name points) s in
  match as_integer points with
  | inr code => (failed code, s')
  | inl z =>
      if existsb (fun c => String.eqb (Customer.phone_number c) phone)
                 (customers_table s)
      then (failed unique_violation, s')
      else
        let row := Customer.mk (fresh_id s) phone name (num z) (clock s) in
        (ok row,
         mkStore (customers_table s' ++ [row]) (transactions_table s')
                 (clock s') (N.succ (next_id s')) (requests s'))
  end.

(** [from('customers').update({total_points}).eq('id', id).select()
    .single()]: the balance is an INTEGER; a result that is not exactly one
    row is an error and changes nothing. *)
Definition set_points (id : string) (points : number) (c : Customer.t)
  : Customer.t :=
  if String.eqb (Customer.id c) id then
    Customer.mk (Customer.id c) (Customer.phone_number c) (Customer.name c)
                points (Customer.created_at c)
  else c.

Definition update_total_points (id : string) (points : number) (s : Store)
  : Response Customer.t * Store :=
  let s' := log (UpdateTotalPoints id points) s in
  match as_integer points with
  | inr code => (failed code, s')
  | inl z =>
      match filter (fun c => String.eqb (Customer.id c) id)
                   (customers_table s) with
      | [c] =>
          (ok (set_points id (num z) c),
           mkStore (map (set_points id (num z)) (customers_table s'))
                   (transactions_table s') (clock s') (next_id s')
                   (requests s'))
      | _ => (failed not_a_single_row, s')
      end
  end.

(** [from('transactions').insert([{customer_id, type, amount,
    points_changed}])]: the customer must exist, [type] must be one of its
    two values, and the amount and the point change are INTEGERs; a row
    that is refused changes nothing.  The page does not look at the
    answer. *)
Definition insert_transaction (customer_id type : string)
    (amount points : number) (s : Store) : Store :=
  let s' := log (InsertTransaction customer_id type amount points) s in
  match as_integer amount, as_integer points with
  | inl a, inl p =>
      if existsb (fun c => String.eqb (Customer.id c) customer_id)
                 (customers_table s)
         && is_transaction_type type
      then
        mkStore (customers_table s')
                (transactions_table s'
                 ++ [Transaction.mk (fresh_id s) customer_id type (num a)
                                    (num p) (clock s)])
                (clock s') (N.succ (next_id s')) (requests s')
      else s'
  | _, _ => s'
  end.

(** A date string as the store reads it against [created_at]: midnight
    UTC of that day. *)
Definition timestamptz_in (s : string) : option Z := parse_date_only s.

(** A bound of a range filter: absent, unreadable, or a time value. *)
Definition bound_in (b : option string) : option (option Z) :=
  match b with
  | None => Some None
  | Some s => option_map Some (timestamptz_in s)
  end.

Definition at_or_after (b : option Z) (t : Z) : bool :=
  match b with Some lo => lo <=? t | None => true end.

Definition before (b : option Z) (t : Z) : bool :=
  match b with Some hi => t <? hi | None => true end.

(** [from('transactions').select('*').eq('customer_id', id)
    .order('created_at', {ascending: false})] with the optional
    [.gte('created_at', _)] and [.lt('created_at', _)]. *)
Definition select_transactions (customer_id : string)
    (gte lt : option string) (s : Store)
  : Response (list Transaction.t) * Store :=
  (match bound_in gte, bound_in lt with
   | Some lo, Some hi =>
       ok (order_desc Transaction.created_at
             (filter (fun tx =>
                        String.eqb (Transaction.customer_id tx) customer_id
                        && at_or_after lo (Transaction.created_at tx)
                        && before hi (Transaction.created_at tx))
                     (transactions_table s)))
   | _, _ => failed invalid_datetime
   end,
   log (SelectTransactions customer_id gte lt) s).

(** ** The page: its state, its environment and its handlers *)

(** The two variants of the page. *)
Inductive variant : Type := Redeem5 | Redeem10.

Record NewCustomer : Type := mkNewCustomer {
  phoneNumber : string;
  name : string;
  total_points : number
}.

(** The state hooks of [Home]. *)
Record State : Type := mkState {
  customers : list Customer.t;
  searchPhone : string;
  currentCustomer : option Customer.t;
  showAddForm : bool;
  newCustomer : NewCustomer;
  purchaseAmount : string;
  error : string;
  loading : bool;
  transactions : list Transaction.t;
  showHistory : bool;
  historyPage : number;
  historyPageSize : number;
  historyStartDate : string;
  historyEndDate : string;
  nameResults : list Customer.t;
  globalLoading : bool
}.

Definition initial_state : State :=
  mkState [] "" None false (mkNewCustomer "" "" (num 0)) "" "" false [] false
          (num 1) (num 10) "" "" [] false.

Inductive Toast : Type :=
| toast_error (message : string)
| toast_success (message : string).

(** What a handler runs in: the store, the page state, the toasts shown so
    far, and the time zone of the host. *)
Record World : Type := mkWorld {
  store : Store;
  page : State;
  toasts : list Toast;
  zone : TimeZone
}.

(** What can be thrown: an error object of the store, or the [RangeError]
    of [toISOString] on an invalid date. *)
Inductive exn : Type :=
| PgError (code : string)
| RangeError.

Inductive outcome (A : Type) : Type :=
| Normal (a : A)
| Return
| Throw (e : exn).
Arguments Normal {A} _.
Arguments Return {A}.
Arguments Throw {A} _.

(** A handler runs on the world and on the outages ahead: one entry for
    each request still to come, [true] when that request does not reach
    the store; past the end of the list every request does. *)
Record Run : Type := mkRun {
  world : World;
  outages : list bool
}.

Definition M (A : Type) : Type := Run -> outcome A * Run.

Definition ret {A} (a : A) : M A := fun w => (Normal a, w).
Definition bind {A B} (m : M A) (f : A -> M B) : M B :=
  fun w =>
    match m w with
    | (Normal a, w') => f a w'
    | (Return, w') => (Return, w')
    | (Throw e, w') => (Throw e, w')
    end.
Definition return_ {A} : M A := fun w => (Return, w).
Definition throw {A} (e : exn) : M A := fun w => (Throw e, w).

Notation "x <- m ;; k" := (bind m (fun x => k))
  (at level 61, m at next level, right associativity).
Notation "m ;; k" := (bind m (fun _ => k))
  (at level 61, right associativity).

Definition try_catch {A} (body : M A) (handler : exn -> M A) : M A :=
  fun w =>
    match body w with
    | (Throw e, w') => handler e w'
    | r => r
    end.

Definition try_finally {A} (body : M A) (fin : M unit) : M A :=
  fun w =>
    match body w with
    | (o, w') =>
        match fin w' with
        | (Normal _, w'') => (o, w'')
        | (Return, w'') => (Return, w'')
        | (Throw e, w'') => (Throw e, w'')
        end
    end.

(** The state a handler was created with: what its reads see. *)
Definition closure : M State := fun r => (Normal (page (world r)), r).

Definition on_world (f : World -> World) (r : Run) : Run :=
  mkRun (f (world r)) (outages r).

Definition set_page (f : State -> State) : M unit :=
  fun r =>
    (Normal tt,
     on_world (fun w => mkWorld (store w) (f (page w)) (toasts w) (zone w)) r).

Definition toast (t : Toast) : M unit :=
  fun r =>
    (Normal tt,
     on_world (fun w => mkWorld (store w) (page w) (toasts w ++ [t]) (zone w))
              r).

Definition host_zone : M TimeZone := fun r => (Normal (zone (world r)), r).

(** Whether the next request is lost, and the outages after it. *)
Definition lost (o : list bool) : bool :=
  match o with
  | b :: _ => b
  | [] => false
  end.

Definition later (o : list bool) : list bool :=
  match o with
  | _ :: o' => o'
  | [] => []
  end.

(** [await] of a request to the store.  A request that does not reach the
    store comes back with an error and leaves the store as it is. *)
Definition await {A} (q : Store -> Response A * Store) : M (Response A) :=
  fun r =>
    let w := world r in
    if lost (outages r) then
      (Normal (failed unavailable), mkRun w (later (outages r)))
    else
      let (a, s') := q (store w) in
      (Normal a, mkRun (mkWorld s' (page w) (toasts w) (zone w))
                       (later (outages r))).

(** [await] of a request whose answer is dropped. *)
Definition await_ (q : Store -> Store) : M unit :=
  fun r =>
    let w := world r in
    if lost (outages r) then (Normal tt, mkRun w (later (outages r)))
    else
      (Normal tt, mkRun (mkWorld (q (store w)) (page w) (toasts w) (zone w))
                        (later (outages r))).

(** A call of an [async] function that is not awaited: what it throws
    stays in its own promise and the caller goes on. *)
Definition detached (m : M unit) : M unit :=
  fun r => (Normal tt, snd (m r)).

(** The world a handler leaves behind when some requests are lost, and
    when every request reaches the store. *)
Definition run_during {A} (o : list bool) (h : M A) (w : World) : World :=
  world (snd (h (mkRun w o))).

Definition run {A} (h : M A) (w : World) : World := run_during [] h w.

Definition setCustomers (v : list Customer.t) : M unit :=
  set_page (fun s =>
    mkState v (searchPhone s) (currentCustomer s) (showAddForm s)
      (newCustomer s) (purchaseAmount s) (error s) (loading s)
      (transactions s) (showHistory s) (historyPage s) (historyPageSize s)
      (historyStartDate s) (historyEndDate s) (nameResults s)
      (globalLoading s)).

Definition setSearchPhone (v : string) : M unit :=
  set_page (fun s =>
    mkState (customers s) v (currentCustomer s) (showAddForm s)
      (newCustomer s) (purchaseAmount s) (error s) (loading s)
      (transactions s) (showHistory s) (historyPage s) (historyPageSize s)
      (historyStartDate s) (historyEndDate s) (nameResults s)
      (globalLoading s)).

Definition setCurrentCustomer (v : option Customer.t) : M unit :=
  set_page (fun s =>
    mkState (customers s) (searchPhone s) v (showAddForm s)
      (newCustomer s) (purchaseAmount s) (error s) (loading s)
      (transactions s) (showHistory s) (historyPage s) (historyPageSize s)
      (historyStartDate s) (historyEndDate s) (nameResults s)
      (globalLoading s)).

Definition setShowAddForm (v : bool) : M unit :=
  set_page (fun s =>
    mkState (customers s) (searchPhone s) (currentCustomer s) v
      (newCustomer s) (purchaseAmount s) (error s) (loading s)
      (transactions s) (showHistory s) (historyPage s) (historyPageSize s)
      (historyStartDate s) (historyEndDate s) (nameResults s)
      (globalLoading s)).

Definition setNewCustomer (v : NewCustomer) : M unit :=
  set_page (fun s =>
    mkState (customers s) (searchPhone s) (currentCustomer s) (showAddForm s)
      v (purchaseAmount s) (error s) (loading s)
      (transactions s) (showHistory s) (historyPage s) (historyPageSize s)
      (historyStartDate s) (historyEndDate s) (nameResults s)
      (globalLoading s)).

Definition setPurchaseAmount (v : string) : M unit :=
  set_page (fun s =>
    mkState (customers s) (searchPhone s) (currentCustomer s) (showAddForm s)
      (newCustomer s) v (error s) (loading s)
      (transactions s) (showHistory s) (historyPage s) (historyPageSize s)
      (historyStartDate s) (historyEndDate s) (nameResults s)
      (globalLoading s)).

Definition setError (v : string) : M unit :=
  set_page (fun s =>
    mkState (customers s) (searchPhone s) (currentCustomer s) (showAddForm s)
      (newCustomer s) (purchaseAmount s) v (loading s)
      (transactions s) (showHistory s) (historyPage s) (historyPageSize s)
      (historyStartDate s) (historyEndDate s) (nameResults s)
      (globalLoading s)).

Definition setLoading (v : bool) : M unit :=
  set_page (fun s =>
    mkState (customers s) (searchPhone s) (currentCustomer s) (showAddForm s)
      (newCustomer s) (purchaseAmount s) (error s) v
      (transactions s) (showHistory s) (historyPage s) (historyPageSize s)
      (historyStartDate s) (historyEndDate s) (nameResults s)
      (globalLoading s)).

Definition setTransactions (v : list Transaction.t) : M unit :=
  set_page (fun s =>
    mkState (customers s) (searchPhone s) (currentCustomer s) (showAddForm s)
      (newCustomer s) (purchaseAmount s) (error s) (loading s)
      v (showHistory s) (historyPage s) (historyPageSize s)
      (historyStartDate s) (historyEndDate s) (nameResults s)
      (globalLoading s)).

Definition setHistoryPage (v : number) : M unit :=
  set_page (fun s =>
    mkState (customers s) (searchPhone s) (currentCustomer s) (showAddForm s)
      (newCustomer s) (purchaseAmount s) (error s) (loading s)
      (transactions s) (showHistory s) v (historyPageSize s)
      (historyStartDate s) (historyEndDate s) (nameResults s)
      (globalLoading s)).

Definition setNameResults (v : list Customer.t) : M unit :=
  set_page (fun s =>
    mkState (customers s) (searchPhone s) (currentCustomer s) (showAddForm s)
      (newCustomer s) (purchaseAmount s) (error s) (loading s)
      (transactions s) (showHistory s) (historyPage s) (historyPageSize s)
      (historyStartDate s) (historyEndDate s) v
      (globalLoading s)).

(** The first variant has a page-wide spinner, the second has none. *)
Definition setGlobalLoading (vt : variant) (v : bool) : M unit :=
  match vt with
  | Redeem5 =>
      set_page (fun s =>
        mkState (customers s) (searchPhone s) (currentCustomer s)
          (showAddForm s) (newCustomer s) (purchaseAmount s) (error s)
          (loading s) (transactions s) (showHistory s) (historyPage s)
          (historyPageSize s) (historyStartDate s) (historyEndDate s)
          (nameResults s) v)
  | Redeem10 => ret tt
  end.

(** Toasts exist in the first variant only. *)
Definition toast_in (vt : variant) (t : Toast) : M unit :=
  match vt with
  | Redeem5 => toast t
  | Redeem10 => ret tt
  end.

(** *** Loading the history *)

Definition nonempty (s : string) : bool :=
  match s with EmptyString => false | _ => true end.

(** The exclusive upper bound that [loadTransactions] sends for an end
    date: [new Date(historyEndDate)], [setDate(getDate() + 1)], then the
    first ten characters of [toISOString()].  [None] when [toISOString]
    throws on an invalid date. *)
Definition end_bound (tz : TimeZone) (historyEndDate : string)
  : option string :=
  match new_Date historyEndDate with
  | Some end0 =>
      match setDate tz end0 (getDate tz end0 + 1) with
      | Some end1 => Some (string_slice0 10 (toISOString end1))
      | None => None
      end
  | None => None
  end.

Definition loadTransactions (st : State) (customerId : string) : M unit :=
  tz <- host_zone ;;
  let gte :=
    if nonempty (historyStartDate st) then Some (historyStartDate st)
    else None in
  lt_bound <-
    (if nonempty (historyEndDate st) then
       match end_bound tz (historyEndDate st) with
       | Some e => ret (Some e)
       | None => throw RangeError
       end
     else ret None) ;;
  r <- await (select_transactions customerId gte lt_bound) ;;
  match error_of r with
  | None => setTransactions (match data r with Some d => d | None => [] end)
  | Some _ => ret tt
  end.

(** [loadCustomers] *)
Definition loadCustomers : M unit :=
  try_catch
    (r <- await select_customers ;;
     match error_of r with
     | Some e => throw (PgError e)
     | None => setCustomers (match data r with Some d => d | None => [] end)
     end)
    (fun _ => setError "Failed to load customers").

(** *** Searching *)

Definition is_digit (c : ascii) : bool :=
  (48 <=? char_code c) && (char_code c <=? 57).

(** [/^\d{7,}$/.test(s)] *)
Definition phone_regex_test (s : string) : bool :=
  forallb is_digit (list_ascii_of_string s)
  && (7 <=? Z.of_nat (String.length s)).

Definition found (c : Customer.t) : M unit :=
  setCurrentCustomer (Some c) ;;
  setShowAddForm false ;;
  setError "".

(** [handleSearch] of the first variant: a phone number or a name. *)
Definition handleSearch5 : M unit :=
  st <- closure ;;
  setLoading true ;;
  setNameResults [] ;;
  try_finally
    (try_catch
       (let input := trim (searchPhone st) in
        let isPhone := phone_regex_test input in
        res <-
          (if isPhone then
             r <- await (select_customer_by_phone input) ;;
             ret (data r, error_of r)
           else
             r <- await (select_customers_by_name input) ;;
             match error_of r with
             | Some e => throw (PgError e)
             | None =>
                 match data r with
                 | Some [c] => ret (Some c, None)
                 | Some (c1 :: c2 :: l) =>
                     setNameResults (c1 :: c2 :: l) ;;
                     setCurrentCustomer None ;;
                     setShowAddForm false ;;
                     setError "" ;;
                     setLoading false ;;
                     return_
                 | _ => ret (None, None)
                 end
             end) ;;
        match snd res with
        | Some e => throw (PgError e)
        | None =>
            match fst res with
            | Some c => found c
            | None =>
                setCurrentCustomer None ;;
                setShowAddForm isPhone ;;
                if isPhone then
                  setNewCustomer
                    (mkNewCustomer input (name (newCustomer st))
                                   (total_points (newCustomer st)))
                else ret tt
            end
        end)
       (fun _ => setError "Failed to search customer"))
    (setLoading false).

(** [handleSearch] of the second variant: a phone number, as typed. *)
Definition handleSearch10 : M unit :=
  st <- closure ;;
  setLoading true ;;
  try_finally
    (try_catch
       (r <- await (select_customer_by_phone (searchPhone st)) ;;
        match error_of r with
        | Some e => throw (PgError e)
        | None =>
            match data r with
            | Some c => found c
            | None =>
                setCurrentCustomer None ;;
                setShowAddForm true ;;
                setNewCustomer
                  (mkNewCustomer (searchPhone st) (name (newCustomer st))
                                 (total_points (newCustomer st)))
            end
        end)
       (fun _ => setError "Failed to search customer"))
    (setLoading false).

Definition handleSearch (vt : variant) : M unit :=
  match vt with
  | Redeem5 => handleSearch5
  | Redeem10 => handleSearch10
  end.

(** The reset button next to the search field. *)
Definition handleReset : M unit :=
  setSearchPhone "" ;;
  setCurrentCustomer None ;;
  setShowAddForm false ;;
  setError "".

(** *** Adding a customer *)

Definition handleAddCustomer (vt : variant) : M unit :=
  st <- closure ;;
  if negb (nonempty (trim (phoneNumber (newCustomer st)))) then
    setError "Phone number is required" ;;
    toast_in vt (toast_error "Phone number is required") ;;
    return_
  else
    setLoading true ;;
    setGlobalLoading vt true ;;
    try_finally
      (try_catch
         (r <- await (insert_customer
                        (phoneNumber (newCustomer st))
                        (if nonempty (name (newCustomer st))
                         then Some (name (newCustomer st)) else None)
                        (num 0)) ;;
          match error_of r, data r with
          | Some e, _ => throw (PgError e)
          | None, Some c =>
              setCustomers (customers st ++ [c]) ;;
              setCurrentCustomer (Some c) ;;
              setShowAddForm false ;;
              setNewCustomer (mkNewCustomer "" "" (num 0)) ;;
              setError "" ;;
              toast_in vt (toast_success "Customer added!")
          | None, None => ret tt
          end)
         (fun e =>
            match e with
            | PgError "23505" =>
                setError "This phone number already exists" ;;
                toast_in vt (toast_error "This phone number already exists")
            | _ =>
                setError "Failed to add customer" ;;
                toast_in vt (toast_error "Failed to add customer")
            end))
      (setLoading false ;; setGlobalLoading vt false).

(** *** Accrual and redemption *)

(** [customers.map(c => c.id === currentCustomer.id ? data : c)] *)
Definition replace_customer (cur d : Customer.t) (l : list Customer.t)
  : list Customer.t :=
  map (fun c => if String.eqb (Customer.id c) (Customer.id cur) then d else c)
      l.

Definition handleAddPoints (vt : variant) : M unit :=
  st <- closure ;;
  match currentCustomer st with
  | None => return_
  | Some currentCustomer =>
      let amount := Math_floor (Number (purchaseAmount st)) in
      if le amount (num 0) then
        setError "Please enter a valid purchase amount" ;;
        toast_in vt (toast_error "Please enter a valid purchase amount") ;;
        return_
      else
        setLoading true ;;
        setGlobalLoading vt true ;;
        try_finally
          (try_catch
             (let newPoints :=
                add (Customer.total_points currentCustomer) amount in
              r <- await (update_total_points
                            (Customer.id currentCustomer) newPoints) ;;
              match error_of r, data r with
              | Some e, _ => throw (PgError e)
              | None, Some d =>
                  await_ (insert_transaction (Customer.id currentCustomer)
                                             "add" amount amount) ;;
                  setCustomers (replace_customer currentCustomer d
                                                 (customers st)) ;;
                  setCurrentCustomer (Some d) ;;
                  setPurchaseAmount "" ;;
                  setError "" ;;
                  detached (loadTransactions st (Customer.id currentCustomer)) ;;
                  toast_in vt (toast_success "Points added!")
              | None, None => ret tt
              end)
             (fun _ =>
                setError "Failed to add points" ;;
                toast_in vt (toast_error "Failed to add points")))
          (setLoading false ;; setGlobalLoading vt false)
  end.

(** *** The form around the purchase amount

    [<form onSubmit={handleAddPoints}>] holds the field
    [<input type="number" value={purchaseAmount}
      onChange={(e) => setPurchaseAmount(e.target.value)}
      min="0" step="1" disabled={loading}>]
    and a submit button that is [disabled={loading}] as well.  What the
    browser does with such a field is taken from the HTML standard. *)

(** A valid floating-point number: an optional minus sign; digits, or a
    dot and digits, or both; and optionally an exponent. *)
Definition valid_floating_point_number (s : string) : bool :=
  let l := list_ascii_of_string s in
  let unsigned :=
    match l with
    | c :: r => if char_code c =? 45 then r else l
    | [] => l
    end in
  let '(_, ni, r1) := take_digits 10 unsigned 0 0 in
  let exponent_ok := fun r =>
    match parse_exponent r with Some _ => true | None => false end in
  match r1 with
  | c :: r =>
      if char_code c =? 46 then
        let '(_, nf, r2) := take_digits 10 r 0 0 in
        (0 <? nf) && exponent_ok r2
      else (0 <? ni) && exponent_ok r1
  | [] => 0 <? ni
  end.

(** The value of the field for the text in it: the text when that is a
    valid floating-point number, the empty string otherwise. *)
Definition number_field_value (text : string) : string :=
  if valid_floating_point_number text then text else "".

(** [onChange] of the field. *)
Definition changePurchaseAmount (text : string) : M unit :=
  setPurchaseAmount (number_field_value text).

(** The number of a value of the field, when it has one. *)
Definition field_number (value : string) : option Qc :=
  if valid_floating_point_number value then
    match Number value with
    | Fin q => Some q
    | _ => None
    end
  else None.

(** [min="0"] and [step="1"]: a value that has a number must not be below
    0 and must be 0 plus a whole number of steps.  The empty value passes:
    the field is not required. *)
Definition purchase_field_valid (value : string) : bool :=
  match field_number value with
  | Some q => Qc_leb Qc_zero q && Qc_eqb q (Zq (Qfloor (this q)))
  | None => true
  end.

(** Submitting the form: the browser checks the field and fires
    [onSubmit] only when the value passes; while [loading] disables the
    field and the button nothing is submitted. *)
Definition submitPurchase (vt : variant) : M unit :=
  st <- closure ;;
  if loading st then ret tt
  else if purchase_field_valid (purchaseAmount st) then handleAddPoints vt
  else ret tt.

(** The characters of a valid floating-point number: the digits, the
    signs, the dot and the letter of the exponent. *)
Definition field_char (c : ascii) : bool :=
  is_digit c || (char_code c =? 45) || (char_code c =? 46)
  || (char_code c =? 101) || (char_code c =? 69) || (char_code c =? 43).

(** The step of a redemption in dollars, and its message. *)
Definition REDEEM_INCREMENT (vt : variant) : Z :=
  match vt with Redeem5 => 5 | Redeem10 => 10 end.

Definition increment_message (vt : variant) : string :=
  match vt with
  | Redeem5 => "Redemption must be in $5 increments."
  | Redeem10 => "Redemption must be in $10 increments."
  end.

(** [(redeemAmount / 5) * 100] in the first variant, [redeemAmount * 10]
    in the second. *)
Definition pointsNeeded (vt : variant) (redeemAmount : number) : number :=
  match vt with
  | Redeem5 => mul (div redeemAmount (num 5)) (num 100)
  | Redeem10 => mul redeemAmount (num 10)
  end.

Definition handleRedeem (vt : variant) (redeemAmount : number) : M unit :=
  st <- closure ;;
  match currentCustomer st with
  | None => return_
  | Some currentCustomer =>
      if strict_neq (rem redeemAmount (num (REDEEM_INCREMENT vt))) (num 0) then
        setError (increment_message vt) ;;
        toast_in vt (toast_error (increment_message vt)) ;;
        return_
      else
        let pointsNeeded := pointsNeeded vt redeemAmount in
        if lt (Customer.total_points currentCustomer) pointsNeeded then
          setError "Not enough points for this redemption." ;;
          toast_in vt (toast_error "Not enough points for this redemption.") ;;
          return_
        else
          setLoading true ;;
          setGlobalLoading vt true ;;
          try_finally
            (try_catch
               (let newPoints :=
                  sub (Customer.total_points currentCustomer) pointsNeeded in
                r <- await (update_total_points
                              (Customer.id currentCustomer) newPoints) ;;
                match error_of r, data r with
                | Some e, _ => throw (PgError e)
                | None, Some d =>
                    await_ (insert_transaction (Customer.id currentCustomer)
                              "redeem" redeemAmount (neg pointsNeeded)) ;;
                    setCustomers (replace_customer currentCustomer d
                                                   (customers st)) ;;
                    setCurrentCustomer (Some d) ;;
                    setError "" ;;
                    detached (loadTransactions st (Customer.id currentCustomer)) ;;
                    toast_in vt (toast_success "Points redeemed!")
                | None, None => ret tt
                end)
               (fun _ =>
                  setError "Failed to redeem points" ;;
                  toast_in vt (toast_error "Failed to redeem points")))
            (setLoading false ;; setGlobalLoading vt false)
  end.

(** *** Redemption options *)

(** The [for] loop of [getRedemptionOptions]:
    [for (let i = step; i <= maxRedemption; i += step) options.push(i)].
    [fuel] bounds the number of iterations; [None] when it runs out. *)
Fixpoint options_loop (fuel : nat) (step i maxRedemption : number)
    (options : list number) : option (list number) :=
  match fuel with
  | O => None
  | S fuel' =>
      if le i maxRedemption then
        options_loop fuel' step (add i step) maxRedemption (options ++ [i])
      else Some options
  end.

Definition getRedemptionOptions (vt : variant) (fuel : nat) (points : number)
  : option (list number) :=
  let step := num (REDEEM_INCREMENT vt) in
  let maxRedemption := mul (Math_floor (div points (num 100))) step in
  options_loop fuel step step maxRedemption [].

(** *** Pagination *)

Inductive integer_or_infinity : Type :=
| Int (z : Z)
| PlusInfinity
| MinusInfinity.

Definition ToIntegerOrInfinity (x : number) : integer_or_infinity :=
  match x with
  | NaN => Int 0
  | PInf => PlusInfinity
  | NInf => MinusInfinity
  | Fin q => Int (Qtrunc (this q))
  end.

(** An argument of [slice] as an index into an array of length [len]. *)
Definition relative_index (len : Z) (r : integer_or_infinity) : Z :=
  match r with
  | MinusInfinity => 0
  | PlusInfinity => len
  | Int z => if z <? 0 then Z.max (len + z) 0 else Z.min z len
  end.

(** [l.slice(start, end)] *)
Definition slice {A} (l : list A) (start end_ : number) : list A :=
  let len := Z.of_nat (List.length l) in
  let k := relative_index len (ToIntegerOrInfinity start) in
  let final := relative_index len (ToIntegerOrInfinity end_) in
  firstn (Z.to_nat (final - k)) (skipn (Z.to_nat k) l).

Definition paginatedTransactions (st : State) : list Transaction.t :=
  slice (transactions st)
        (mul (sub (historyPage st) (num 1)) (historyPageSize st))
        (mul (historyPage st) (historyPageSize st)).

Definition totalPages (st : State) : number :=
  Math_ceil (div (num (Z.of_nat (List.length (transactions st))))
                 (historyPageSize st)).

(** The page count as the history view shows it: [totalPages || 1]. *)
Definition displayedTotalPages (st : State) : number :=
  or_else (totalPages st) (num 1).

Arguments loadTransactions : simpl never.

(** ** Vocabulary of the statements *)

(** The customers table holds exactly one row with this id. *)
Definition has_row (s : Store) (id : string) (row : Customer.t) : Prop :=
  filter (fun c => String.eqb (Customer.id c) id) (customers_table s) = [row].

(** Two page states that differ at most in the loaded history. *)
Definition same_but_transactions (a b : State) : Prop :=
  customers a = customers b /\ searchPhone a = searchPhone b
  /\ currentCustomer a = currentCustomer b /\ showAddForm a = showAddForm b
  /\ newCustomer a = newCustomer b /\ purchaseAmount a = purchaseAmount b
  /\ error a = error b /\ loading a = loading b
  /\ showHistory a = showHistory b /\ historyPage a = historyPage b
  /\ historyPageSize a = historyPageSize b
  /\ historyStartDate a = historyStartDate b
  /\ historyEndDate a = historyEndDate b /\ nameResults a = nameResults b
  /\ globalLoading a = globalLoading b.

(** Points that one dollar of redemption costs: 100 points buy
    [REDEEM_INCREMENT] dollars. *)
Definition points_per_dollar (vt : variant) : Z := 100 / REDEEM_INCREMENT vt.

(** The messages behind the error kinds of the ledger. *)
Definition InvalidAmount : string := "Please enter a valid purchase amount".
Definition InvalidIncrement (vt : variant) : string := increment_message vt.
Definition InsufficientPoints : string :=
  "Not enough points for this redemption.".

(** [r] is an integer multiple of [inc]. *)
Definition multiple_of (inc : Z) (r : number) : Prop :=
  exists k : Z, r = num (inc * k).

(** The integers that an INTEGER column holds. *)
Definition int4 (z : Z) : Prop := int4_min <= z <= int4_max.

(** [x] is plus infinity or a finite value of at least [t]. *)
Definition at_least (t : Z) (x : number) : Prop :=
  x = PInf \/ exists r : Qc, x = Fin r /\ (inject_Z t <= this r)%Q.

Definition FailedToAddPoints : string := "Failed to add points".
Definition FailedToRedeemPoints : string := "Failed to redeem points".

(** ** A shop to run the handlers in *)

Definition alice : Customer.t :=
  Customer.mk "row-000000000001" "5551234567" (Some "Alice"%string) (num 250)
              1704103200000.
Definition bob : Customer.t :=
  Customer.mk "row-000000000002" "5559876543" (Some "Bob"%string) (num 90)
              1704189600000.
Definition alicia : Customer.t :=
  Customer.mk "row-000000000003" "5550001111" (Some "ALICE"%string) (num 0)
              1704276000000.
Definition walk_in : Customer.t :=
  Customer.mk "row-000000000004" "5552223333" None (num 1200)
              1704362400000.

Definition shop : Store :=
  mkStore [alice; bob; alicia; walk_in] [] 1710082800000 5 [].

(** The page with a customer selected and a purchase amount typed in. *)
Definition serving (c : Customer.t) (purchase : string) : State :=
  mkState [walk_in; alicia; bob; alice] "" (Some c) false
          (mkNewCustomer "" "" (num 0)) purchase "" false [] false
          (num 1) (num 10) "" "" [] false.

Definition at_counter (c : Customer.t) (purchase : string) : World :=
  mkWorld shop (serving c purchase) [] utc_zone.

(** The first [count] positive multiples of [inc], ascending:
    [inc * 1, inc * 2, ..., inc * count]. *)
Definition multiples (inc : Z) (count : nat) : list number :=
  map (fun k => num (inc * Z.of_nat k)) (seq 1 count).

(** The ten decimal digits, and what the pattern [^\d{7,}$] asks of a
    string: seven characters or more, every one of them a digit. *)
Definition decimal_digits : list ascii :=
  ["0"; "1"; "2"; "3"; "4"; "5"; "6"; "7"; "8"; "9"]%char.

Definition seven_or_more_digits (s : string) : Prop :=
  (7 <= String.length s)%nat
  /\ Forall (fun c => In c decimal_digits) (list_ascii_of_string s).

(** The rows a name search matches. *)
Definition name_matches (pattern : string) (s : Store) : list Customer.t :=
  filter (fun c => ilike pattern (Customer.name c)) (customers_table s).

(** The rows with a given phone number. *)
Definition phone_matches (phone : string) (s : Store) : list Customer.t :=
  filter (fun c => String.eqb (Customer.phone_number c) phone)
         (customers_table s).

(** The page with a search term typed in. *)
Definition searching (term : string) : World :=
  mkWorld shop
    (mkState [] term None false (mkNewCustomer "" "" (num 0)) "" "" false []
             false (num 1) (num 10) "" "" [] false)
    [] utc_zone.

(** ** A host on the east coast of the United States in 2024

    Eastern time: five hours behind UTC, four hours behind between
    2024-03-10T07:00Z and 2024-11-03T06:00Z. *)
Definition new_york_2024 : TimeZone :=
  mkTimeZone (- 5 * msPerHour)
    [(MakeDate (MakeDay 2024 2 10) (MakeTime 7 0 0 0), - 4 * msPerHour);
     (MakeDate (MakeDay 2024 10 3) (MakeTime 6 0 0 0), - 5 * msPerHour)].

(** A purchase of alice's recorded at 15:00 UTC on 2024-03-10. *)
Definition march_purchase : Transaction.t :=
  Transaction.mk "row-000000000005" "row-000000000001" "add" (num 40)
                 (num 40)
                 (MakeDate (MakeDay 2024 2 10) (MakeTime 15 0 0 0)).

Definition shop_in_march : Store :=
  mkStore [alice; bob; alicia; walk_in] [march_purchase] 1711000000000 6 [].

(** The history view of alice on a host in the given zone, with both date
    filters set. *)
Definition history_of_alice (tz : TimeZone) (startDate endDate : string)
  : World :=
  mkWorld shop_in_march
    (mkState [] "" (Some alice) false (mkNewCustomer "" "" (num 0)) "" ""
             false [] true (num 1) (num 10) startDate endDate [] false)
    [] tz.

(** ** The ledger of a customer *)

(** The point changes recorded for a customer, oldest first. *)
Definition deltas_of (id : string) (s : Store) : list number :=
  map Transaction.points_changed
      (filter (fun tx => String.eqb (Transaction.customer_id tx) id)
              (transactions_table s)).

(** The selected customer is the row the store holds for it, its balance
    is an integer of the column that is not negative, the point changes
    recorded for it are integers, and the balance is their sum. *)
Definition ledger_consistent (w : World) : Prop :=
  exists (c : Customer.t) (b : Z) (deltas : list Z),
    currentCustomer (page w) = Some c
    /\ has_row (store w) (Customer.id c) c
    /\ Customer.total_points c = num b
    /\ 0 <= b <= int4_max
    /\ deltas_of (Customer.id c) (store w) = map num deltas
    /\ b = fold_right Z.add 0 deltas.

(** A customer with a history: 200 points earned, 100 redeemed, 40
    earned. *)
Definition dana : Customer.t :=
  Customer.mk "row-000000000007" "5554445555" (Some "Dana"%string) (num 140)
              1704448800000.

Definition ledger_shop : Store :=
  mkStore [alice; dana]
    [Transaction.mk "row-000000000008" "row-000000000007" "add"
                    (num 200) (num 200) 1704450000000;
     Transaction.mk "row-000000000009" "row-000000000007" "redeem"
                    (num 5) (num (-100)) 1704460000000;
     Transaction.mk "row-000000000010" "row-000000000007" "add"
                    (num 40) (num 40) 1704470000000]
    1710082800000 11 [].

Definition serving_dana (purchase : string) : World :=
  mkWorld ledger_shop (serving dana purchase) [] utc_zone.

(** *** Page navigation of the history view *)

(** [Math.max] and [Math.min] of two numbers. *)
Definition Math_max (x y : number) : number :=
  match x, y with
  | NaN, _ | _, NaN => NaN
  | _, _ => if lt x y then y else x
  end.

Definition Math_min (x y : number) : number :=
  match x, y with
  | NaN, _ | _, NaN => NaN
  | _, _ => if lt y x then y else x
  end.

Arguments Math_max : simpl never.
Arguments Math_min : simpl never.

(** [setHistoryPage(p => f(p))]: the update sees the current page. *)
Definition updateHistoryPage (f : number -> number) : M unit :=
  fun r => setHistoryPage (f (historyPage (page (world r)))) r.

(** The Previous button: disabled on page 1, otherwise
    [setHistoryPage(p => Math.max(1, p - 1))]. *)
Definition clickPrevious : M unit :=
  st <- closure ;;
  if strict_eq (historyPage st) (num 1) then ret tt
  else updateHistoryPage (fun p => Math_max (num 1) (sub p (num 1))).

(** The Next button: disabled on the last page and when there is no
    page, otherwise [setHistoryPage(p => Math.min(totalPages, p + 1))]. *)
Definition clickNext : M unit :=
  st <- closure ;;
  if strict_eq (historyPage st) (totalPages st)
     || strict_eq (totalPages st) (num 0)
  then ret tt
  else updateHistoryPage (fun p => Math_min (totalPages st) (add p (num 1))).

(** The state with the history on page [i]. *)
Definition at_page (st : State) (i : Z) : State :=
  mkState (customers st) (searchPhone st) (currentCustomer st)
    (showAddForm st) (newCustomer st) (purchaseAmount st) (error st)
    (loading st) (transactions st) (showHistory st) (num i)
    (historyPageSize st) (historyStartDate st) (historyEndDate st)
    (nameResults st) (globalLoading st).

(** Eleven transactions, as a history to page through. *)
Definition eleven : list Transaction.t :=
  map (fun i => Transaction.mk "" "row-000000000001" "add" (num i) (num i) i)
      [1; 2; 3; 4; 5; 6; 7; 8; 9; 10; 11].

Definition browsing (i : Z) : World :=
  mkWorld shop
    (mkState [] "" (Some alice) false (mkNewCustomer "" "" (num 0)) "" ""
             false eleven true (num i) (num 10) "" "" [] false)
    [] utc_zone.

(** *** Amounts with two decimals *)

(** An amount of [n >= 0] hundredths written with two decimals. *)
Definition hundredths (n : Z) : string :=
  NilZero.string_of_uint (N.to_uint (Z.to_N (n / 100)))
  ++ "." ++ string_of_list_ascii (pad_digits 2 (n mod 100)).

(** [x.toFixed(2)]: the closest number of hundredths, the larger one of
    two that are equally close, written with two decimals and the sign in
    front.  [None] stands for the exponent notation of values from 10^21
    on, which is not part of the embedding. *)
Definition toFixed2 (x : number) : option string :=
  match x with
  | NaN => Some "NaN"
  | PInf => Some "Infinity"
  | NInf => Some "-Infinity"
  | Fin q =>
      let negative := Qc_ltb q Qc_zero in
      let a := if negative then (- q)%Qc else q in
      if Qc_leb (Zq (10 ^ 21)) a then None
      else
        let n := Qfloor (this (a * Zq 100 + Q2Qc (1 # 2))%Qc) in
        Some ((if negative then "-" else "") ++ hundredths n)
  end%string.

(** [formatPointsToDollars]: [((points / 100) * 5).toFixed(2)] in the
    first variant, [(points / 10).toFixed(2)] in the second. *)
Definition formatPointsToDollars (vt : variant) (points : number)
  : option string :=
  match vt with
  | Redeem5 => toFixed2 (mul (div points (num 100)) (num 5))
  | Redeem10 => toFixed2 (div points (num 10))
  end.

(** The totals of the history view (first variant):
    [transactions.filter(tx => tx.type === 'add')
       .reduce((sum, tx) => sum + (tx.amount || 0), 0)], the same over the
    point changes of the redemptions, and
    [((-totalRedeemedPoints / 100) * 5).toFixed(2)]. *)
Definition totalSpent (txs : list Transaction.t) : number :=
  fold_left (fun sum tx => add sum (or_else (Transaction.amount tx) (num 0)))
            (filter (fun tx => String.eqb (Transaction.type tx) "add") txs)
            (num 0).

Definition totalRedeemedPoints (txs : list Transaction.t) : number :=
  fold_left
    (fun sum tx => add sum (or_else (Transaction.points_changed tx) (num 0)))
    (filter (fun tx => String.eqb (Transaction.type tx) "redeem") txs)
    (num 0).

Definition totalRedeemedDollars (txs : list Transaction.t) : option string :=
  toFixed2 (mul (div (neg (totalRedeemedPoints txs)) (num 100)) (num 5)).

(** The integer part of a finite number. *)
Definition to_Z (x : number) : Z :=
  match x with
  | Fin q => Qfloor (this q)
  | _ => 0
  end.

(** The sum of the dollar amounts of the transactions of one type. *)
Definition sum_of_amounts (type : string) (txs : list Transaction.t) : Z :=
  fold_right Z.add 0
    (map (fun tx => to_Z (Transaction.amount tx))
         (filter (fun tx => String.eqb (Transaction.type tx) type) txs)).

(** A row as the handlers of the first variant write it: a purchase of
    [a] dollars, or a redemption of [a] dollars for [20 * a] points. *)
Definition written_by_handlers (tx : Transaction.t) : Prop :=
  exists a : Z,
    0 <= a
    /\ Transaction.amount tx = num a
    /\ (Transaction.type tx = "redeem"%string ->
        Transaction.points_changed tx = num (- (a * points_per_dollar Redeem5))).

(** *** The stored procedure of the migration

    [increment_points(customer_id_param, points_to_add)]:
    [UPDATE customers SET total_points = total_points + points_to_add
     WHERE id = customer_id_param]. *)
Definition increment_points (customer_id_param : string) (points_to_add : Z)
    (s : Store) : Store :=
  mkStore
    (map (fun c =>
            if String.eqb (Customer.id c) customer_id_param then
              Customer.mk (Customer.id c) (Customer.phone_number c)
                          (Customer.name c)
                          (add (Customer.total_points c) (num points_to_add))
                          (Customer.created_at c)
            else c)
         (customers_table s))
    (transactions_table s) (clock s) (next_id s) (requests s).

(** * Properties *)

(** ** The conversions on sample inputs *)

Example Number_samples :
  forallb (fun p => number_eqb (Number (fst p)) (snd p))
    [ ("", num 0); ("  ", num 0); ("42", num 42); (" 7 ", num 7);
      ("-3", num (-3)); ("+8", num 8); ("2.5", Fin (Q2Qc (5 # 2)));
      (".5", Fin (Q2Qc (1 # 2))); ("5.", num 5); ("1e3", num 1000);
      ("25e-1", Fin (Q2Qc (5 # 2))); ("0x1F", num 31); ("0b101", num 5);
      ("0o17", num 15); ("Infinity", PInf); ("-Infinity", NInf);
      ("abc", NaN); ("12px", NaN); ("1 2", NaN); (".", NaN); ("e5", NaN);
      ("-0x10", NaN); ("1e", NaN); ("--1", NaN); ("0x", NaN);
      ("0.1", Fin (Q2Qc (3602879701896397 # 36028797018963968)));
      ("0.99999999999999999", num 1);
      ("9007199254740993", num 9007199254740992);
      ("1e400", PInf); ("-1e400", NInf); ("1e-400", num 0) ]%string
  = true.
Proof. vm_compute. reflexivity. Qed.

Example date_samples :
  new_Date "1970-01-01" = Some 0
  /\ new_Date "2024-01-01" = Some 1704067200000
  /\ new_Date "2024-02-29" = Some 1709164800000
  /\ new_Date "2023-02-29" = None
  /\ new_Date "2024-1-1" = None
  /\ toISOString 1709164800000 = "2024-02-29T00:00:00.000Z"%string
  /\ toISOString 1735689599999 = "2024-12-31T23:59:59.999Z"%string
  /\ toISOString (-1) = "1969-12-31T23:59:59.999Z"%string
  /\ toISOString 951782400000 = "2000-02-29T00:00:00.000Z"%string
  /\ toISOString 4107542400000 = "2100-03-01T00:00:00.000Z"%string.
Proof. vm_compute. repeat split. Qed.

(** ** Rounding to a double *)

Lemma pow2_pos (e : Z) : (0 < pow2 e)%Q.
Proof. apply Qpower_0_lt. reflexivity. Qed.

Lemma pow2_nonneg_exp (e : Z) : 0 <= e -> (pow2 e == inject_Z (2 ^ e))%Q.
Proof. intros H. unfold pow2. rewrite Zpower_Qpower by assumption. reflexivity. Qed.

Lemma pow2_add (a b : Z) : (pow2 (a + b) == pow2 a * pow2 b)%Q.
Proof. unfold pow2. apply Qpower_plus. discriminate. Qed.

Lemma pow2_sub (a b : Z) : (pow2 (a - b) == pow2 a / pow2 b)%Q.
Proof. unfold pow2. apply Qpower_minus. discriminate. Qed.

Lemma pow2_le (a b : Z) : a <= b -> (pow2 a <= pow2 b)%Q.
Proof. intros H. unfold pow2. apply Qpower_le_compat_l; [assumption | discriminate]. Qed.

Lemma nearest_even_error (x : Q) :
  (Qabs (inject_Z (nearest_even x) - x) <= 1 # 2)%Q.
Proof.
  unfold nearest_even.
  pose proof (Qfloor_le x) as Hl. pose proof (Qlt_floor x) as Hu.
  set (f := Qfloor x) in *.
  assert (Hu' : (x < inject_Z f + 1)%Q).
  { rewrite inject_Z_plus in Hu. exact Hu. }
  apply Qabs_Qle_condition.
  destruct (Qcompare_spec (x - inject_Z f) (1 # 2)) as [E | L | G].
  - destruct (Z.even f); [| rewrite inject_Z_plus; change (inject_Z 1) with 1%Q];
      split; lra.
  - split; lra.
  - rewrite inject_Z_plus. change (inject_Z 1) with 1%Q. split; lra.
Qed.

Lemma nearest_even_integer (x : Q) (k : Z) :
  (x == inject_Z k)%Q -> nearest_even x = k.
Proof.
  intros E. unfold nearest_even.
  assert (F : Qfloor x = k).
  { rewrite (Qfloor_comp _ _ E). apply Qfloor_Z. }
  rewrite F.
  destruct (Qcompare_spec (x - inject_Z k) (1 # 2)) as [E' | L | G].
  - exfalso. lra.
  - reflexivity.
  - exfalso. lra.
Qed.

Lemma exponent_of_le (a : Q) : (0 < a)%Q -> (pow2 (exponent_of a) <= a)%Q.
Proof.
  intros Ha. unfold exponent_of.
  set (e0 := Z.log2 (Qnum a) - Z.log2 (Z.pos (Qden a))).
  destruct (Qle_bool (pow2 e0) a) eqn:T.
  - apply Qle_bool_iff. exact T.
  - destruct a as [n d]. cbn [Qnum Qden] in *.
    assert (Hn : 0 < n).
    { unfold Qlt in Ha. cbn in Ha. lia. }
    pose proof (Z.log2_spec n Hn) as [Hn1 _].
    pose proof (Z.log2_spec (Z.pos d) (Pos2Z.is_pos d)) as [_ Hd2].
    pose proof (Z.log2_nonneg n) as Ln.
    pose proof (Z.log2_nonneg (Z.pos d)) as Ld.
    replace (e0 - 1) with (Z.log2 n - Z.succ (Z.log2 (Z.pos d))) by (unfold e0; lia).
    rewrite pow2_sub.
    rewrite !pow2_nonneg_exp by lia.
    set (A := 2 ^ Z.log2 n) in *. set (B := 2 ^ Z.succ (Z.log2 (Z.pos d))) in *.
    assert (HB : 0 < B) by lia.
    apply Qle_shift_div_r.
    + change 0%Q with (inject_Z 0). rewrite <- Zlt_Qlt. exact HB.
    + unfold Qle. cbn. nia.
Qed.

Lemma scaled_error (m a u : Q) :
  (0 < u)%Q -> (Qabs (m - a / u) <= 1 # 2)%Q ->
  (Qabs (m * u - a) <= u * (1 # 2))%Q.
Proof.
  intros Hu H. apply Qabs_Qle_condition in H. destruct H as [H1 H2].
  assert (E : (a == a / u * u)%Q).
  { field. intros Z. rewrite Z in Hu. discriminate. }
  set (x := (a / u)%Q) in *.
  apply Qabs_Qle_condition. split.
  - rewrite E. nra.
  - rewrite E at 1. nra.
Qed.

Lemma ulp_bound (a : Q) :
  (0 < a)%Q ->
  (pow2 (Z.max (exponent_of a - 52) (-1074)) <= a * pow2 (-52) + pow2 (-1074))%Q.
Proof.
  intros Ha.
  pose proof (exponent_of_le a Ha) as He.
  pose proof (pow2_pos (-52)) as P52. pose proof (pow2_pos (-1074)) as P1074.
  destruct (Z.max_spec (exponent_of a - 52) (-1074)) as [[_ ->] | [_ ->]].
  - assert (0 <= a * pow2 (-52))%Q by (apply Qmult_le_0_compat; lra). lra.
  - replace (exponent_of a - 52) with (exponent_of a + (-52)) by lia.
    rewrite pow2_add.
    assert (pow2 (exponent_of a) * pow2 (-52) <= a * pow2 (-52))%Q.
    { apply Qmult_le_compat_r; lra. }
    lra.
Qed.

Lemma pow2_half (e : Z) : (pow2 e * (1 # 2) == pow2 (e - 1))%Q.
Proof. rewrite pow2_sub. change (pow2 1) with 2%Q. field. Qed.

Lemma round_positive_error (a : Q) :
  (0 < a)%Q -> (a <= pow2 1000)%Q ->
  exists v,
    round_positive a = Some v /\
    (Qabs (v - a) <= a * pow2 (-53) + pow2 (-1075))%Q.
Proof.
  intros Ha Hb. unfold round_positive.
  set (ue := Z.max (exponent_of a - 52) (-1074)).
  pose proof (ulp_bound a Ha) as Hu. fold ue in Hu.
  pose proof (pow2_pos ue) as Pu.
  pose proof (scaled_error _ a _ Pu (nearest_even_error (a / pow2 ue))) as He.
  set (v := (inject_Z (nearest_even (a / pow2 ue)) * pow2 ue)%Q) in *.
  assert (H52 : (pow2 (-52) * (1 # 2) == pow2 (-53))%Q) by apply pow2_half.
  assert (H1074 : (pow2 (-1074) * (1 # 2) == pow2 (-1075))%Q) by apply pow2_half.
  assert (Hv : (Qabs (v - a) <= a * pow2 (-53) + pow2 (-1075))%Q).
  { rewrite <- H52, <- H1074. 
    eapply Qle_trans; [exact He |].
    assert (pow2 ue * (1 # 2) <= (a * pow2 (-52) + pow2 (-1074)) * (1 # 2))%Q.
    { apply Qmult_le_compat_r; [exact Hu | discriminate]. }
    lra. }
  exists v. split; [| exact Hv].
  assert (N : Qle_bool (pow2 1024) v = false).
  { destruct (Qle_bool (pow2 1024) v) eqn:T; [| reflexivity]. exfalso.
    apply Qle_bool_iff in T.
    apply Qabs_Qle_condition in Hv. destruct Hv as [_ Hv].
    assert (S1 : (a * pow2 (-53) <= a)%Q).
    { assert (pow2 (-53) <= 1)%Q by (apply Qle_bool_iff; vm_compute; reflexivity).
      assert (a * pow2 (-53) <= a * 1)%Q.
      { rewrite !(Qmult_comm a). apply Qmult_le_compat_r; lra. }
      lra. }
    assert (S2 : (pow2 (-1075) <= pow2 1000)%Q) by (apply pow2_le; lia).
    assert (S3 : (pow2 1000 * 3 < pow2 1024)%Q).
    { apply Qlt_alt. vm_compute. reflexivity. }
    lra. }
  rewrite N. reflexivity.
Qed.

Lemma round_positive_integer (z : Z) :
  0 < z <= 2 ^ 53 ->
  exists v, round_positive (inject_Z z) = Some v /\ (v == inject_Z z)%Q.
Proof.
  intros Hz.
  destruct (Z.eq_dec z (2 ^ 53)) as [-> | Hne].
  { eexists. split; [vm_compute; reflexivity | vm_compute; reflexivity]. }
  unfold round_positive.
  set (ue := Z.max (exponent_of (inject_Z z) - 52) (-1074)).
  assert (Hue : -1074 <= ue <= 0).
  { unfold ue, exponent_of. cbn [Qnum Qden inject_Z].
    change (Z.log2 1) with 0.
    assert (Z.log2 z < 53) by (apply Z.log2_lt_pow2; lia).
    destruct (Qle_bool _ _); lia. }
  assert (Es : (inject_Z z / pow2 ue == inject_Z (z * 2 ^ (- ue)))%Q).
  { replace ue with (0 - (- ue)) at 1 by lia. rewrite pow2_sub.
    rewrite (pow2_nonneg_exp (- ue)) by lia. change (pow2 0) with 1%Q.
    rewrite inject_Z_mult. field.
    change 0%Q with (inject_Z 0). rewrite inject_Z_injective.
    pose proof (Z.pow_pos_nonneg 2 (- ue)). lia. }
  rewrite (nearest_even_integer _ _ Es).
  assert (Ev : (inject_Z (z * 2 ^ (- ue)) * pow2 ue == inject_Z z)%Q).
  { rewrite <- Es. field. pose proof (pow2_pos ue) as P. intros Z. rewrite Z in P. discriminate. }
  set (v := (inject_Z (z * 2 ^ (- ue)) * pow2 ue)%Q) in *.
  exists v. split; [| exact Ev].
  destruct (Qle_bool (pow2 1024) v) eqn:T; [| reflexivity]. exfalso.
  apply Qle_bool_iff in T. rewrite Ev in T.
  rewrite pow2_nonneg_exp in T by lia. rewrite <- Zle_Qle in T.
  assert (2 ^ 53 < 2 ^ 1024) by (apply Z.pow_lt_mono_r; lia). lia.
Qed.

(** ** Integers among the numbers *)

Lemma this_Zq (z : Z) : (this (Zq z) == inject_Z z)%Q.
Proof. unfold Zq, Q2Qc. cbn [this]. apply Qred_correct. Qed.

Lemma Qc_eq_this (a b : Qc) : (this a == this b)%Q -> a = b.
Proof. apply Qc_is_canon. Qed.

Lemma Zq_add (a b : Z) : (Zq a + Zq b)%Qc = Zq (a + b).
Proof.
  apply Qc_eq_this. unfold Qcplus, Zq, Q2Qc. cbn [this].
  rewrite !Qred_correct, inject_Z_plus. reflexivity.
Qed.

Lemma Zq_mul (a b : Z) : (Zq a * Zq b)%Qc = Zq (a * b).
Proof.
  apply Qc_eq_this. unfold Qcmult, Zq, Q2Qc. cbn [this].
  rewrite !Qred_correct, inject_Z_mult. reflexivity.
Qed.

Lemma Zq_opp (a : Z) : (- Zq a)%Qc = Zq (- a).
Proof.
  apply Qc_eq_this. unfold Qcopp, Zq, Q2Qc. cbn [this].
  rewrite !Qred_correct, inject_Z_opp. reflexivity.
Qed.

Lemma Zq_sub (a b : Z) : (Zq a - Zq b)%Qc = Zq (a - b).
Proof. unfold Qcminus. rewrite Zq_opp, Zq_add. reflexivity. Qed.

Lemma Zq_inj (a b : Z) : Zq a = Zq b -> a = b.
Proof.
  intros H. apply (f_equal this) in H.
  assert (E : (inject_Z a == inject_Z b)%Q)
    by (rewrite <- !this_Zq, H; reflexivity).
  unfold Qeq in E. simpl in E. lia.
Qed.

Lemma Zq_eqb (a b : Z) : Qc_eqb (Zq a) (Zq b) = (a =? b).
Proof.
  unfold Qc_eqb. rewrite !this_Zq.
  unfold Qeq_bool, inject_Z. simpl. rewrite !Z.mul_1_r. reflexivity.
Qed.

Lemma Zq_leb (a b : Z) : Qc_leb (Zq a) (Zq b) = (a <=? b).
Proof.
  unfold Qc_leb. rewrite !this_Zq.
  unfold Qle_bool, inject_Z. simpl. rewrite !Z.mul_1_r. reflexivity.
Qed.

Lemma Zq_ltb (a b : Z) : Qc_ltb (Zq a) (Zq b) = (a <? b).
Proof.
  unfold Qc_ltb. rewrite !this_Zq.
  unfold Qle_bool, inject_Z. simpl. rewrite !Z.mul_1_r.
  rewrite Z.ltb_antisym. reflexivity.
Qed.

Lemma Zq_sign (a : Z) : Qc_sign (Zq a) = (a ?= 0).
Proof.
  unfold Qc_sign. change Qc_zero with (Zq 0).
  rewrite Zq_eqb, Zq_ltb.
  destruct (Z.eqb_spec a 0) as [->|]; [reflexivity|].
  destruct (Z.ltb_spec a 0); symmetry.
  - apply Z.compare_lt_iff; assumption.
  - apply Z.compare_gt_iff; lia.
Qed.

Lemma Zq_div_exact (b k : Z) : b <> 0 -> (Zq (b * k) / Zq b)%Qc = Zq k.
Proof.
  intros Hb. rewrite <- Zq_mul, Qcmult_comm.
  apply Qcdiv_mult_l.
  intros E. change (Q2Qc 0) with (Zq 0) in E. apply Zq_inj in E. lia.
Qed.

Lemma Qfloor_Zq (z : Z) : Qfloor (this (Zq z)) = z.
Proof. rewrite this_Zq. apply Qfloor_Z. Qed.

Lemma Qceiling_Zq (z : Z) : Qceiling (this (Zq z)) = z.
Proof. rewrite this_Zq. apply Qceiling_Z. Qed.

Lemma Qtrunc_inject (z : Z) : Qtrunc (inject_Z z) = z.
Proof. unfold Qtrunc, inject_Z. simpl. apply Z.quot_1_r. Qed.

Lemma this_Zq_eq (z : Z) : this (Zq z) = inject_Z z.
Proof.
  unfold Zq, Q2Qc. cbn [this]. apply Qred_identity.
  unfold inject_Z. cbn [Qnum Qden]. apply Z.gcd_1_r.
Qed.

Lemma Qtrunc_Zq (z : Z) : Qtrunc (this (Zq z)) = z.
Proof. rewrite this_Zq_eq. apply Qtrunc_inject. Qed.

Lemma Qc_eqb_eq (a b : Qc) : Qc_eqb a b = true <-> a = b.
Proof.
  unfold Qc_eqb. split.
  - intros H. apply Qc_eq_this, Qeq_bool_eq, H.
  - intros ->. apply Qeq_bool_refl.
Qed.

Lemma Q2Qc_integer (v : Q) (z : Z) : (v == inject_Z z)%Q -> Q2Qc v = Zq z.
Proof.
  intros E. apply Qc_is_canon. unfold Zq. cbn [this Q2Qc].
  rewrite !Qred_correct. exact E.
Qed.

(** Integers of magnitude up to 2^53 are doubles. *)
Lemma round64_integer (z : Z) :
  Z.abs z <= 2 ^ 53 -> round64 (inject_Z z) = num z.
Proof.
  intros Hz. unfold round64.
  destruct (Qcompare_spec (inject_Z z) 0) as [E | L | G].
  - change 0%Q with (inject_Z 0) in E.
    apply (proj1 (inject_Z_injective z 0)) in E. subst z. reflexivity.
  - change 0%Q with (inject_Z 0) in L. rewrite <- Zlt_Qlt in L.
    destruct (round_positive_integer (- z)) as (v & Ev & Hv); [lia |].
    change (- inject_Z z)%Q with (inject_Z (- z)). rewrite Ev.
    unfold num. f_equal. apply Q2Qc_integer. rewrite Hv.
    rewrite inject_Z_opp. ring.
  - change 0%Q with (inject_Z 0) in G. rewrite <- Zlt_Qlt in G.
    destruct (round_positive_integer z) as (v & Ev & Hv); [lia |].
    rewrite Ev. unfold num. f_equal. apply Q2Qc_integer. exact Hv.
Qed.

Lemma num_inj (a b : Z) : num a = num b -> a = b.
Proof.
  intros H. apply Zq_inj.
  exact (f_equal (fun x => match x with Fin q => q | _ => Zq a end) H).
Qed.

Lemma add_num (a b : Z) :
  Z.abs (a + b) <= 2 ^ 53 -> add (num a) (num b) = num (a + b).
Proof.
  intros H. unfold add, num. rewrite Zq_add, this_Zq_eq.
  apply round64_integer, H.
Qed.

Lemma neg_num (a : Z) : neg (num a) = num (- a).
Proof. unfold neg, num. rewrite Zq_opp. reflexivity. Qed.

Lemma sub_num (a b : Z) :
  Z.abs (a - b) <= 2 ^ 53 -> sub (num a) (num b) = num (a - b).
Proof. intros H. unfold sub. rewrite neg_num, add_num; [reflexivity | exact H]. Qed.

Lemma mul_num (a b : Z) :
  Z.abs (a * b) <= 2 ^ 53 -> mul (num a) (num b) = num (a * b).
Proof.
  intros H. unfold mul, num. rewrite Zq_mul, this_Zq_eq.
  apply round64_integer, H.
Qed.

Lemma div_num_exact (b k : Z) :
  b <> 0 -> Z.abs k <= 2 ^ 53 -> div (num (b * k)) (num b) = num k.
Proof.
  intros Hb Hk. unfold div, num.
  rewrite Zq_sign, Zq_div_exact, this_Zq_eq by assumption.
  rewrite (round64_integer k Hk).
  destruct (Z.compare_spec b 0); [lia | reflexivity | reflexivity].
Qed.

Lemma le_num (a b : Z) : le (num a) (num b) = (a <=? b).
Proof. apply Zq_leb. Qed.

Lemma lt_num (a b : Z) : lt (num a) (num b) = (a <? b).
Proof. apply Zq_ltb. Qed.

Lemma strict_eq_num (a b : Z) : strict_eq (num a) (num b) = (a =? b).
Proof. apply Zq_eqb. Qed.

Lemma Math_floor_num (a : Z) : Math_floor (num a) = num a.
Proof. unfold Math_floor, num. rewrite Qfloor_Zq. reflexivity. Qed.

Lemma truthy_num (a : Z) : truthy (num a) = negb (a =? 0).
Proof. unfold truthy, num. change Qc_zero with (Zq 0). rewrite Zq_eqb. reflexivity. Qed.

(** [r] is an integer multiple of [inc]. *)
Lemma rem_multiple (inc k : Z) :
  inc <> 0 -> rem (num (inc * k)) (num inc) = num 0.
Proof.
  intros Hi. unfold rem, num. rewrite Zq_sign.
  rewrite Zq_div_exact, Qtrunc_Zq by assumption.
  fold (Zq k). rewrite Zq_mul, Zq_sub, Z.sub_diag.
  destruct (Z.compare_spec inc 0); [lia | reflexivity | reflexivity].
Qed.

Lemma rem_zero_multiple (q : Qc) (inc : Z) :
  inc <> 0 ->
  strict_eq (rem (Fin q) (num inc)) (num 0) = true ->
  exists k, q = Zq (inc * k).
Proof.
  intros Hi. unfold rem, num. rewrite Zq_sign.
  destruct (Z.compare_spec inc 0) as [E|L|G]; [lia | |];
    cbn [strict_eq]; intros H; apply Qc_eqb_eq in H;
    exists (Qtrunc (this (q / Zq inc)%Qc));
    rewrite <- Zq_mul; fold (Zq (Qtrunc (this (q / Zq inc)%Qc))) in H;
    set (y := (Zq inc * Zq (Qtrunc (this (q / Zq inc)%Qc)))%Qc) in *;
    (replace q with ((q - y) + y)%Qc by ring); rewrite H;
    change (Zq 0) with (Q2Qc 0); ring.
Qed.

(** ** What loading the history leaves alone *)

Lemma loadTransactions_frame (st : State) (id : string) (r : Run) :
  let w := world r in
  let w' := world (snd (loadTransactions st id r)) in
  customers_table (store w') = customers_table (store w)
  /\ transactions_table (store w') = transactions_table (store w)
  /\ clock (store w') = clock (store w)
  /\ next_id (store w') = next_id (store w)
  /\ same_but_transactions (page w') (page w)
  /\ toasts w' = toasts w /\ zone w' = zone w
  /\ exists tail, requests (store w') = requests (store w) ++ tail.
Proof.
  unfold loadTransactions, same_but_transactions, bind, host_zone, await,
    throw, ret, select_transactions.
  cbn.
  destruct (nonempty (historyEndDate st)); cbn;
    repeat match goal with
      | |- context [match ?b with Some _ => _ | None => _ end] =>
          destruct b; cbn
      end;
    destruct (lost (outages r)); cbn;
    repeat match goal with
      | |- context [match ?b with Some _ => _ | None => _ end] =>
          destruct b; cbn
      end;
    repeat split; try reflexivity;
    solve [eexists; reflexivity | exists []; symmetry; apply app_nil_r].
Qed.

Lemma id_set_points (id : string) (p : number) (c : Customer.t) :
  Customer.id (set_points id p c) = Customer.id c.
Proof. unfold set_points. destruct (String.eqb _ _); reflexivity. Qed.

Lemma existsb_set_points (id id' : string) (p : number) (l : list Customer.t) :
  existsb (fun c => String.eqb (Customer.id c) id) (map (set_points id' p) l)
  = existsb (fun c => String.eqb (Customer.id c) id) l.
Proof.
  induction l as [|c l IH]; [reflexivity|].
  cbn [map existsb]. rewrite id_set_points, IH. reflexivity.
Qed.

Lemma filter_one_existsb {A} (p : A -> bool) (l : list A) (x : A) :
  filter p l = [x] -> existsb p l = true.
Proof.
  intros H. apply existsb_exists. exists x.
  apply filter_In. rewrite H. left. reflexivity.
Qed.

(** ** The handlers on their two paths *)


Lemma as_integer_num (z : Z) : int4 z -> as_integer (num z) = inl z.
Proof.
  intros [H1 H2]. unfold as_integer, num. rewrite Qfloor_Zq.
  rewrite (proj2 (Qc_eqb_eq _ _) eq_refl). cbn [negb].
  destruct (Z.leb_spec int4_min z); [| lia].
  destruct (Z.leb_spec z int4_max); [| lia]. reflexivity.
Qed.

Lemma as_integer_inl (x : number) (z : Z) :
  as_integer x = inl z -> x = num z /\ int4 z.
Proof.
  unfold as_integer. destruct x as [| | | q]; try discriminate.
  destruct (Qc_eqb q (Zq (Qfloor (this q)))) eqn:E; [| discriminate].
  cbn [negb].
  destruct (Z.leb_spec int4_min (Qfloor (this q))); [| discriminate].
  destruct (Z.leb_spec (Qfloor (this q)) int4_max); [| discriminate].
  cbn [andb]. intros I. injection I as <-.
  apply Qc_eqb_eq in E. split; [unfold num; f_equal; exact E | split; assumption].
Qed.

Lemma handleAddPoints_proceeds (vt : variant) (o : list bool) (w : World)
    (c row : Customer.t) (p a : Z) :
  currentCustomer (page w) = Some c ->
  le (Math_floor (Number (purchaseAmount (page w)))) (num 0) = false ->
  has_row (store w) (Customer.id c) row ->
  let amount := Math_floor (Number (purchaseAmount (page w))) in
  let newPoints := add (Customer.total_points c) amount in
  as_integer newPoints = inl p ->
  as_integer amount = inl a ->
  lost o = false ->
  lost (later o) = false ->
  let w' := run_during o (handleAddPoints vt) w in
  customers_table (store w')
  = map (set_points (Customer.id c) (num p)) (customers_table (store w))
  /\ transactions_table (store w')
     = transactions_table (store w)
       ++ [Transaction.mk (fresh_id (store w)) (Customer.id c) "add"
                          (num a) (num a) (clock (store w))]
  /\ currentCustomer (page w')
     = Some (set_points (Customer.id c) (num p) row)
  /\ error (page w') = ""%string
  /\ purchaseAmount (page w') = ""%string
  /\ loading (page w') = false
  /\ exists tail,
       requests (store w')
       = requests (store w)
         ++ [UpdateTotalPoints (Customer.id c) newPoints;
             InsertTransaction (Customer.id c) "add" amount amount]
         ++ tail.
Proof.
  intros Hcur Hle Hrow amount newPoints Hp Ha Ho1 Ho2 w'.
  pose proof (filter_one_existsb _ _ _ Hrow) as Hex.
  unfold has_row in Hrow. subst w'. fold amount in Hle.
  unfold handleAddPoints, run_during, bind at 1, closure. cbn.
  rewrite Hcur. cbn. fold amount. rewrite Hle. fold newPoints.
  destruct vt; unfold try_finally, try_catch, bind, await, await_,
      update_total_points;
    cbn; rewrite Ho1, Hp; cbn; rewrite Hrow; cbn; rewrite Ho2; cbn;
    match goal with
    | |- context [snd (loadTransactions ?st ?id ?W)] =>
        pose proof (loadTransactions_frame st id W) as F; cbv zeta in F;
        set (W' := snd (loadTransactions st id W)) in *; clearbody W';
        destruct F as (F1 & F2 & F3 & F4 & F5 & F6 & F7 & [tail F8]);
        destruct F5 as (P1 & P2 & P3 & P4 & P5 & P6 & P7 & P8 & P9)
    end;
    cbn in *; unfold insert_transaction in *; cbn in *;
    rewrite Ha in *; cbn in *;
    rewrite existsb_set_points, Hex in *; cbn in *;
    rewrite ?F1, ?F2, ?P3, ?P6, ?P7; repeat split; try reflexivity;
    exists tail; rewrite F8, <- !app_assoc; reflexivity.
Qed.

Lemma handleAddPoints_rejects (vt : variant) (o : list bool) (w : World)
    (c : Customer.t) :
  currentCustomer (page w) = Some c ->
  le (Math_floor (Number (purchaseAmount (page w)))) (num 0) = true ->
  let w' := run_during o (handleAddPoints vt) w in
  store w' = store w
  /\ error (page w') = "Please enter a valid purchase amount"%string
  /\ currentCustomer (page w') = Some c
  /\ transactions (page w') = transactions (page w).
Proof.
  intros Hcur Hle.
  unfold handleAddPoints, run_during, bind at 1, closure. cbn.
  rewrite Hcur. cbn. rewrite Hle.
  destruct vt; cbn; rewrite Hcur; repeat split; reflexivity.
Qed.

(** The store refuses the new balance: nothing is written. *)
Lemma handleAddPoints_refused (vt : variant) (o : list bool) (w : World)
    (c : Customer.t) (code : string) :
  currentCustomer (page w) = Some c ->
  le (Math_floor (Number (purchaseAmount (page w)))) (num 0) = false ->
  let amount := Math_floor (Number (purchaseAmount (page w))) in
  let newPoints := add (Customer.total_points c) amount in
  as_integer newPoints = inr code ->
  lost o = false ->
  let w' := run_during o (handleAddPoints vt) w in
  customers_table (store w') = customers_table (store w)
  /\ transactions_table (store w') = transactions_table (store w)
  /\ requests (store w')
     = requests (store w) ++ [UpdateTotalPoints (Customer.id c) newPoints]
  /\ error (page w') = FailedToAddPoints
  /\ currentCustomer (page w') = Some c
  /\ loading (page w') = false.
Proof.
  intros Hcur Hle amount newPoints Hp Ho1 w'.
  subst w'. fold amount in Hle.
  unfold handleAddPoints, run_during, bind at 1, closure. cbn.
  rewrite Hcur. cbn. fold amount. rewrite Hle. fold newPoints.
  destruct vt; unfold try_finally, try_catch, bind, await, await_,
      update_total_points;
    cbn; rewrite Ho1, Hp; cbn; rewrite Hcur; repeat split; reflexivity.
Qed.

(** The update does not reach the store: nothing is written. *)
Lemma handleAddPoints_update_lost (vt : variant) (o : list bool) (w : World)
    (c : Customer.t) :
  currentCustomer (page w) = Some c ->
  le (Math_floor (Number (purchaseAmount (page w)))) (num 0) = false ->
  lost o = true ->
  let w' := run_during o (handleAddPoints vt) w in
  store w' = store w
  /\ error (page w') = FailedToAddPoints
  /\ currentCustomer (page w') = Some c
  /\ loading (page w') = false.
Proof.
  intros Hcur Hle Ho1 w'. subst w'.
  unfold handleAddPoints, run_during, bind at 1, closure. cbn.
  rewrite Hcur. cbn. rewrite Hle.
  destruct vt; unfold try_finally, try_catch, bind, await, await_,
      update_total_points;
    cbn; rewrite Ho1; cbn; rewrite Hcur; repeat split; try reflexivity;
    destruct (store w); reflexivity.
Qed.

(** The update is written and the insert does not reach the store. *)
Lemma handleAddPoints_insert_lost (vt : variant) (o : list bool) (w : World)
    (c row : Customer.t) (p : Z) :
  currentCustomer (page w) = Some c ->
  le (Math_floor (Number (purchaseAmount (page w)))) (num 0) = false ->
  has_row (store w) (Customer.id c) row ->
  let amount := Math_floor (Number (purchaseAmount (page w))) in
  let newPoints := add (Customer.total_points c) amount in
  as_integer newPoints = inl p ->
  lost o = false ->
  lost (later o) = true ->
  let w' := run_during o (handleAddPoints vt) w in
  customers_table (store w')
  = map (set_points (Customer.id c) (num p)) (customers_table (store w))
  /\ transactions_table (store w') = transactions_table (store w)
  /\ currentCustomer (page w')
     = Some (set_points (Customer.id c) (num p) row)
  /\ error (page w') = ""%string.
Proof.
  intros Hcur Hle Hrow amount newPoints Hp Ho1 Ho2 w'.
  unfold has_row in Hrow. subst w'. fold amount in Hle.
  unfold handleAddPoints, run_during, bind at 1, closure. cbn.
  rewrite Hcur. cbn. fold amount. rewrite Hle. fold newPoints.
  destruct vt; unfold try_finally, try_catch, bind, await, await_,
      update_total_points;
    cbn; rewrite Ho1, Hp; cbn; rewrite Hrow; cbn; rewrite Ho2; cbn;
    match goal with
    | |- context [snd (loadTransactions ?st ?id ?W)] =>
        pose proof (loadTransactions_frame st id W) as F; cbv zeta in F;
        set (W' := snd (loadTransactions st id W)) in *; clearbody W';
        destruct F as (F1 & F2 & F3 & F4 & F5 & F6 & F7 & [tail F8]);
        destruct F5 as (P1 & P2 & P3 & P4 & P5 & P6 & P7 & P8 & P9)
    end;
    cbn in *;
    rewrite ?F1, ?F2, ?P3, ?P6, ?P7; repeat split; reflexivity.
Qed.

Lemma handleRedeem_proceeds (vt : variant) (o : list bool) (w : World)
    (r : number) (c row : Customer.t) (p a d : Z) :
  currentCustomer (page w) = Some c ->
  strict_neq (rem r (num (REDEEM_INCREMENT vt))) (num 0) = false ->
  lt (Customer.total_points c) (pointsNeeded vt r) = false ->
  has_row (store w) (Customer.id c) row ->
  let newPoints := sub (Customer.total_points c) (pointsNeeded vt r) in
  as_integer newPoints = inl p ->
  as_integer r = inl a ->
  as_integer (neg (pointsNeeded vt r)) = inl d ->
  lost o = false ->
  lost (later o) = false ->
  let w' := run_during o (handleRedeem vt r) w in
  customers_table (store w')
  = map (set_points (Customer.id c) (num p)) (customers_table (store w))
  /\ transactions_table (store w')
     = transactions_table (store w)
       ++ [Transaction.mk (fresh_id (store w)) (Customer.id c) "redeem"
                          (num a) (num d) (clock (store w))]
  /\ currentCustomer (page w')
     = Some (set_points (Customer.id c) (num p) row)
  /\ error (page w') = ""%string
  /\ loading (page w') = false
  /\ exists tail,
       requests (store w')
       = requests (store w)
         ++ [UpdateTotalPoints (Customer.id c) newPoints;
             InsertTransaction (Customer.id c) "redeem" r
                               (neg (pointsNeeded vt r))]
         ++ tail.
Proof.
  intros Hcur Hinc Hlt Hrow newPoints Hp Ha Hd Ho1 Ho2 w'.
  pose proof (filter_one_existsb _ _ _ Hrow) as Hex.
  unfold has_row in Hrow. subst w'.
  unfold handleRedeem, run_during, bind at 1, closure. cbn.
  rewrite Hcur. cbn. rewrite Hinc, Hlt. fold newPoints.
  destruct vt; unfold try_finally, try_catch, bind, await, await_,
      update_total_points;
    cbn; rewrite Ho1, Hp; cbn; rewrite Hrow; cbn; rewrite Ho2; cbn;
    match goal with
    | |- context [snd (loadTransactions ?st ?id ?W)] =>
        pose proof (loadTransactions_frame st id W) as F; cbv zeta in F;
        set (W' := snd (loadTransactions st id W)) in *; clearbody W';
        destruct F as (F1 & F2 & F3 & F4 & F5 & F6 & F7 & [tail F8]);
        destruct F5 as (P1 & P2 & P3 & P4 & P5 & P6 & P7 & P8 & P9)
    end;
    cbn in *; unfold insert_transaction in *; cbn in *;
    rewrite Ha, Hd in *; cbn in *;
    rewrite existsb_set_points, Hex in *; cbn in *;
    rewrite ?F1, ?F2, ?P3, ?P6, ?P7; repeat split; try reflexivity;
    exists tail; rewrite F8, <- !app_assoc; reflexivity.
Qed.

Lemma handleRedeem_rejects_increment (vt : variant) (o : list bool)
    (w : World) (r : number) (c : Customer.t) :
  currentCustomer (page w) = Some c ->
  strict_neq (rem r (num (REDEEM_INCREMENT vt))) (num 0) = true ->
  let w' := run_during o (handleRedeem vt r) w in
  store w' = store w
  /\ error (page w') = increment_message vt
  /\ currentCustomer (page w') = Some c
  /\ transactions (page w') = transactions (page w).
Proof.
  intros Hcur Hinc.
  unfold handleRedeem, run_during, bind at 1, closure. cbn.
  rewrite Hcur. cbn. rewrite Hinc.
  destruct vt; cbn; rewrite Hcur; repeat split; reflexivity.
Qed.

Lemma handleRedeem_rejects_balance (vt : variant) (o : list bool)
    (w : World) (r : number) (c : Customer.t) :
  currentCustomer (page w) = Some c ->
  strict_neq (rem r (num (REDEEM_INCREMENT vt))) (num 0) = false ->
  lt (Customer.total_points c) (pointsNeeded vt r) = true ->
  let w' := run_during o (handleRedeem vt r) w in
  store w' = store w
  /\ error (page w') = "Not enough points for this redemption."%string
  /\ currentCustomer (page w') = Some c
  /\ transactions (page w') = transactions (page w).
Proof.
  intros Hcur Hinc Hlt.
  unfold handleRedeem, run_during, bind at 1, closure. cbn.
  rewrite Hcur. cbn. rewrite Hinc, Hlt.
  destruct vt; cbn; rewrite Hcur; repeat split; reflexivity.
Qed.

Lemma handleRedeem_refused (vt : variant) (o : list bool) (w : World)
    (r : number) (c : Customer.t) (code : string) :
  currentCustomer (page w) = Some c ->
  strict_neq (rem r (num (REDEEM_INCREMENT vt))) (num 0) = false ->
  lt (Customer.total_points c) (pointsNeeded vt r) = false ->
  let newPoints := sub (Customer.total_points c) (pointsNeeded vt r) in
  as_integer newPoints = inr code ->
  lost o = false ->
  let w' := run_during o (handleRedeem vt r) w in
  customers_table (store w') = customers_table (store w)
  /\ transactions_table (store w') = transactions_table (store w)
  /\ requests (store w')
     = requests (store w) ++ [UpdateTotalPoints (Customer.id c) newPoints]
  /\ error (page w') = FailedToRedeemPoints
  /\ currentCustomer (page w') = Some c
  /\ loading (page w') = false.
Proof.
  intros Hcur Hinc Hlt newPoints Hp Ho1 w'. subst w'.
  unfold handleRedeem, run_during, bind at 1, closure. cbn.
  rewrite Hcur. cbn. rewrite Hinc, Hlt. fold newPoints.
  destruct vt; unfold try_finally, try_catch, bind, await, await_,
      update_total_points;
    cbn; rewrite Ho1, Hp; cbn; rewrite Hcur; repeat split; reflexivity.
Qed.

Lemma handleRedeem_update_lost (vt : variant) (o : list bool) (w : World)
    (r : number) (c : Customer.t) :
  currentCustomer (page w) = Some c ->
  strict_neq (rem r (num (REDEEM_INCREMENT vt))) (num 0) = false ->
  lt (Customer.total_points c) (pointsNeeded vt r) = false ->
  lost o = true ->
  let w' := run_during o (handleRedeem vt r) w in
  store w' = store w
  /\ error (page w') = FailedToRedeemPoints
  /\ currentCustomer (page w') = Some c
  /\ loading (page w') = false.
Proof.
  intros Hcur Hinc Hlt Ho1 w'. subst w'.
  unfold handleRedeem, run_during, bind at 1, closure. cbn.
  rewrite Hcur. cbn. rewrite Hinc, Hlt.
  destruct vt; unfold try_finally, try_catch, bind, await, await_,
      update_total_points;
    cbn; rewrite Ho1; cbn; rewrite Hcur; repeat split; try reflexivity;
    destruct (store w); reflexivity.
Qed.

Lemma handleRedeem_insert_lost (vt : variant) (o : list bool) (w : World)
    (r : number) (c row : Customer.t) (p : Z) :
  currentCustomer (page w) = Some c ->
  strict_neq (rem r (num (REDEEM_INCREMENT vt))) (num 0) = false ->
  lt (Customer.total_points c) (pointsNeeded vt r) = false ->
  has_row (store w) (Customer.id c) row ->
  let newPoints := sub (Customer.total_points c) (pointsNeeded vt r) in
  as_integer newPoints = inl p ->
  lost o = false ->
  lost (later o) = true ->
  let w' := run_during o (handleRedeem vt r) w in
  customers_table (store w')
  = map (set_points (Customer.id c) (num p)) (customers_table (store w))
  /\ transactions_table (store w') = transactions_table (store w)
  /\ currentCustomer (page w')
     = Some (set_points (Customer.id c) (num p) row)
  /\ error (page w') = ""%string.
Proof.
  intros Hcur Hinc Hlt Hrow newPoints Hp Ho1 Ho2 w'.
  unfold has_row in Hrow. subst w'.
  unfold handleRedeem, run_during, bind at 1, closure. cbn.
  rewrite Hcur. cbn. rewrite Hinc, Hlt. fold newPoints.
  destruct vt; unfold try_finally, try_catch, bind, await, await_,
      update_total_points;
    cbn; rewrite Ho1, Hp; cbn; rewrite Hrow; cbn; rewrite Ho2; cbn;
    match goal with
    | |- context [snd (loadTransactions ?st ?id ?W)] =>
        pose proof (loadTransactions_frame st id W) as F; cbv zeta in F;
        set (W' := snd (loadTransactions st id W)) in *; clearbody W';
        destruct F as (F1 & F2 & F3 & F4 & F5 & F6 & F7 & [tail F8]);
        destruct F5 as (P1 & P2 & P3 & P4 & P5 & P6 & P7 & P8 & P9)
    end;
    cbn in *;
    rewrite ?F1, ?F2, ?P3, ?P6, ?P7; repeat split; reflexivity.
Qed.

(** ** Quotients of integers, rounded *)

Lemma this_Zq_div (n p : Z) :
  (this (Zq n / Zq p)%Qc == inject_Z n / inject_Z p)%Q.
Proof.
  unfold Qcdiv, Qcmult, Qcinv, Q2Qc. cbn [this].
  rewrite !Qred_correct, !this_Zq. reflexivity.
Qed.

Lemma Qdiv_bounds (n p k : Z) (x : Q) :
  0 < p ->
  (x == inject_Z n / inject_Z p)%Q ->
  ((inject_Z k <= x)%Q <-> k * p <= n)
  /\ ((x <= inject_Z k)%Q <-> n <= k * p)
  /\ ((inject_Z k < x)%Q <-> k * p < n)
  /\ ((x < inject_Z k)%Q <-> n < k * p).
Proof.
  intros Hp Hx.
  assert (E : (x == n # Z.to_pos p)%Q).
  { rewrite Hx. unfold Qdiv, Qinv, Qmult, Qeq, inject_Z.
    destruct p; try lia. cbn. lia. }
  rewrite E. unfold Qle, Qlt, inject_Z. cbn [Qnum Qden].
  rewrite Z2Pos.id by lia. repeat split; lia.
Qed.

(** A quotient of two integers that is not an integer stays strictly
    between the same two integers when it is rounded to a double. *)
Lemma rounded_quotient_between (n p k : Z) (x v : Q) :
  0 < n <= 2 ^ 52 ->
  0 < p <= 2 ^ 53 ->
  (x == inject_Z n / inject_Z p)%Q ->
  k * p < n < (k + 1) * p ->
  (Qabs (v - x) <= x * pow2 (-53) + pow2 (-1075))%Q ->
  (inject_Z k < v < inject_Z (k + 1))%Q.
Proof.
  intros Hn Hp Hx Hk Hv.
  set (P := inject_Z p). set (N := inject_Z n).
  assert (P0 : (0 < P)%Q).
  { unfold P. change 0%Q with (inject_Z 0). rewrite <- Zlt_Qlt. lia. }
  assert (XP : (x * P == N)%Q).
  { rewrite Hx. fold P N. field. intros Z. rewrite Z in P0. discriminate. }
  assert (B1 : (inject_Z k * P + 1 <= N)%Q).
  { unfold P, N. change 1%Q with (inject_Z 1).
    rewrite <- inject_Z_mult, <- inject_Z_plus, <- Zle_Qle. lia. }
  assert (B2 : (N + 1 <= inject_Z (k + 1) * P)%Q).
  { unfold P, N. change 1%Q with (inject_Z 1).
    rewrite <- inject_Z_mult, <- inject_Z_plus, <- Zle_Qle. lia. }
  assert (BN : (N <= inject_Z (2 ^ 52))%Q) by (unfold N; rewrite <- Zle_Qle; lia).
  assert (BP : (P <= inject_Z (2 ^ 53))%Q) by (unfold P; rewrite <- Zle_Qle; lia).
  set (c1 := pow2 (-53)) in *. set (c2 := pow2 (-1075)) in *.
  assert (C1 : (inject_Z (2 ^ 52) * c1 == 1 # 2)%Q) by (vm_compute; reflexivity).
  assert (C2 : (inject_Z (2 ^ 53) * c2 <= 1 # 4)%Q).
  { apply Qle_bool_iff. vm_compute. reflexivity. }
  assert (c1p : (0 < c1)%Q) by apply pow2_pos.
  assert (c2p : (0 < c2)%Q) by apply pow2_pos.
  assert (E1 : (N * c1 <= 1 # 2)%Q).
  { rewrite <- C1. apply Qmult_le_compat_r; [exact BN | lra]. }
  assert (E2 : (P * c2 <= 1 # 4)%Q).
  { eapply Qle_trans; [| exact C2]. apply Qmult_le_compat_r; [exact BP | lra]. }
  apply Qabs_Qle_condition in Hv. destruct Hv as [V1 V2].
  assert (W1 : ((- (x * c1 + c2)) * P <= (v - x) * P)%Q)
    by (apply Qmult_le_compat_r; lra).
  assert (W2 : ((v - x) * P <= (x * c1 + c2) * P)%Q)
    by (apply Qmult_le_compat_r; lra).
  assert (R1 : ((x * c1 + c2) * P == N * c1 + P * c2)%Q).
  { rewrite <- XP. ring. }
  assert (R2 : ((v - x) * P == v * P - N)%Q).
  { rewrite <- XP. ring. }
  assert (R3 : ((- (x * c1 + c2)) * P == - (N * c1 + P * c2))%Q).
  { rewrite <- XP. ring. }
  rewrite R3, R2 in W1. rewrite R2, R1 in W2.
  split.
  - apply (Qmult_lt_r _ _ P P0). lra.
  - apply (Qmult_lt_r _ _ P P0). lra.
Qed.

Lemma Qfloor_between (v : Q) (k : Z) :
  (inject_Z k < v < inject_Z (k + 1))%Q ->
  Qfloor v = k /\ Qceiling v = k + 1.
Proof.
  intros [L U].
  pose proof (Qfloor_le v) as F1. pose proof (Qlt_floor v) as F2.
  pose proof (Qle_ceiling v) as C1. pose proof (Qceiling_lt v) as C2.
  assert (A1 : Qfloor v < k + 1).
  { rewrite Zlt_Qlt. eapply Qle_lt_trans; eassumption. }
  assert (A2 : k < Qfloor v + 1).
  { rewrite Zlt_Qlt. eapply Qlt_trans; eassumption. }
  assert (A3 : k < Qceiling v).
  { rewrite Zlt_Qlt. eapply Qlt_le_trans; eassumption. }
  assert (A4 : Qceiling v - 1 < k + 1).
  { rewrite Zlt_Qlt. eapply Qlt_trans; eassumption. }
  lia.
Qed.

Lemma this_Q2Qc (v : Q) : (this (Q2Qc v) == v)%Q.
Proof. cbn [this Q2Qc]. apply Qred_correct. Qed.

(** The quotient of a natural number up to 2^52 by a positive integer up
    to 2^53, as a double: rounding does not move it across an integer. *)
Lemma div_num_rounded (n p : Z) :
  0 <= n <= 2 ^ 52 ->
  0 < p <= 2 ^ 53 ->
  exists r : Qc,
    div (num n) (num p) = Fin r
    /\ Qfloor (this r) = n / p
    /\ (Qceiling (this r) - 1) * p < n <= Qceiling (this r) * p.
Proof.
  intros Hn Hp.
  pose proof (Z.div_mod n p ltac:(lia)) as DM.
  pose proof (Z.mod_pos_bound n p ltac:(lia)) as MB.
  assert (K0 : 0 <= n / p) by (apply Z.div_pos; lia).
  assert (K1 : n / p <= n) by (apply Z.div_le_upper_bound; nia).
  destruct (Z.eq_dec (n mod p) 0) as [E | NE].
  - exists (Zq (n / p)).
    assert (En : n = p * (n / p)) by lia.
    rewrite En at 1. rewrite div_num_exact by lia.
    rewrite Qfloor_Zq, Qceiling_Zq. repeat split; try reflexivity; lia.
  - unfold div, num. rewrite Zq_sign.
    destruct (Z.compare_spec p 0) as [| |_]; try lia.
    set (x := this (Zq n / Zq p)%Qc).
    pose proof (this_Zq_div n p) as Hx. fold x in Hx.
    assert (N0 : 0 < n) by (destruct (Z.eq_dec n 0) as [-> |]; [rewrite Z.mod_0_l in NE; lia | lia]).
    assert (X0 : (0 < x)%Q).
    { destruct (Qdiv_bounds n p 0 x ltac:(lia) Hx) as (_ & _ & B & _).
      apply B. lia. }
    assert (X1 : (x <= pow2 1000)%Q).
    { destruct (Qdiv_bounds n p (2 ^ 52) x ltac:(lia) Hx) as (_ & B & _ & _).
      eapply Qle_trans; [apply B; nia |].
      rewrite <- pow2_nonneg_exp by lia. apply pow2_le. lia. }
    destruct (round_positive_error x X0 X1) as (v & Ev & Hv).
    unfold round64. rewrite (proj1 (Qgt_alt x 0) X0), Ev.
    exists (Q2Qc v).
    destruct (rounded_quotient_between n p (n / p) x v) as [L U];
      [lia | lia | exact Hx | nia | exact Hv |].
    rewrite <- (this_Q2Qc v) in L, U.
    destruct (Qfloor_between _ _ (conj L U)) as [F C].
    rewrite F, C. repeat split; try reflexivity; nia.
Qed.

Lemma ceil_div_num (n p : Z) :
  0 <= n <= 2 ^ 52 ->
  0 < p <= 2 ^ 53 ->
  exists k, Math_ceil (div (num n) (num p)) = num k
            /\ (k - 1) * p < n <= k * p.
Proof.
  intros Hn Hp.
  destruct (div_num_rounded n p Hn Hp) as (r & -> & _ & H).
  exists (Qceiling (this r)). split; [reflexivity | exact H].
Qed.

Lemma floor_div_num (n p : Z) :
  0 <= n <= 2 ^ 52 ->
  0 < p <= 2 ^ 53 ->
  Math_floor (div (num n) (num p)) = num (n / p).
Proof.
  intros Hn Hp.
  destruct (div_num_rounded n p Hn Hp) as (r & -> & <- & _).
  reflexivity.
Qed.

(** ** The loop of the redemption options *)

Lemma options_loop_multiples (inc : Z) (m : nat) :
  0 < inc ->
  inc * (Z.of_nat m + 2) <= 2 ^ 53 ->
  forall (n j : nat) (acc : list number) (fuel : nat),
    (m + 1 - j)%nat = n ->
    (n < fuel)%nat ->
    options_loop fuel (num inc) (num (inc * Z.of_nat j))
                 (num (inc * Z.of_nat m)) acc
    = Some (acc ++ map (fun k => num (inc * Z.of_nat k)) (seq j n)).
Proof.
  intros Hinc Hmax. induction n as [|n IH]; intros j acc fuel Hn Hfuel.
  - destruct fuel as [|fuel]; [lia|].
    cbn [options_loop seq map]. rewrite le_num, app_nil_r.
    destruct (Z.leb_spec (inc * Z.of_nat j) (inc * Z.of_nat m)); [nia|].
    reflexivity.
  - destruct fuel as [|fuel]; [lia|].
    cbn [options_loop seq map]. rewrite le_num.
    destruct (Z.leb_spec (inc * Z.of_nat j) (inc * Z.of_nat m)); [|nia].
    rewrite add_num by nia.
    replace (inc * Z.of_nat j + inc) with (inc * Z.of_nat (S j)) by lia.
    rewrite IH by lia. rewrite <- app_assoc. reflexivity.
Qed.

Lemma getRedemptionOptions_multiples (vt : variant) (c : Z) (f : nat) :
  0 <= c <= int4_max ->
  (Z.to_nat (c / 100) < f)%nat ->
  getRedemptionOptions vt f (num c)
  = Some (multiples (REDEEM_INCREMENT vt) (Z.to_nat (c / 100))).
Proof.
  intros Hc Hf. unfold int4_max in Hc.
  assert (Hinc : 0 < REDEEM_INCREMENT vt <= 10) by (destruct vt; cbn; lia).
  assert (Hq : 0 <= c / 100 <= 21474836)
    by (Z.div_mod_to_equations; lia).
  unfold getRedemptionOptions, multiples.
  rewrite floor_div_num, mul_num by nia.
  replace (c / 100 * REDEEM_INCREMENT vt)
    with (REDEEM_INCREMENT vt * Z.of_nat (Z.to_nat (c / 100)))
    by (rewrite Z2Nat.id by lia; lia).
  replace (num (REDEEM_INCREMENT vt))
    with (num (REDEEM_INCREMENT vt * Z.of_nat 1)) at 2
    by (f_equal; lia).
  assert (Hm : REDEEM_INCREMENT vt * (Z.of_nat (Z.to_nat (c / 100)) + 2)
               <= 2 ^ 53) by (rewrite Z2Nat.id by lia; nia).
  rewrite (options_loop_multiples _ (Z.to_nat (c / 100)) (proj1 Hinc) Hm
             (Z.to_nat (c / 100)) 1 [] f)
    by lia.
  reflexivity.
Qed.


(** ** Rounded values that are not integers *)

Lemma nearest_even_nonneg (x : Q) : (0 <= x)%Q -> 0 <= nearest_even x.
Proof.
  intros H. unfold nearest_even.
  assert (F : 0 <= Qfloor x).
  { change 0 with (Qfloor 0). apply Qfloor_resp_le, H. }
  destruct (x - inject_Z (Qfloor x) ?= 1 # 2)%Q; [destruct (Z.even _) | |];
    lia.
Qed.

(** A rational from 0 to 2^1000 is rounded to a finite value that is not
    negative, with a relative error of at most 2^-53, or 2^-1075 below
    the normal range. *)
Lemma round64_near (a : Q) :
  (0 <= a)%Q -> (a <= pow2 1000)%Q ->
  exists r : Qc,
    round64 a = Fin r
    /\ (0 <= this r)%Q
    /\ (Qabs (this r - a) <= a * pow2 (-53) + pow2 (-1075))%Q.
Proof.
  intros H0 H1. unfold round64.
  destruct (Qcompare_spec a 0) as [E | L | G].
  - exists (Zq 0). rewrite this_Zq_eq, E.
    refine (conj eq_refl (conj _ _)); [discriminate |].
    apply Qle_bool_iff. vm_compute. reflexivity.
  - exfalso. lra.
  - destruct (round_positive_error a G H1) as (v & Ev & Hv).
    rewrite Ev. exists (Q2Qc v). rewrite this_Q2Qc.
    refine (conj eq_refl (conj _ Hv)).
    unfold round_positive in Ev.
    destruct (Qle_bool _ _); [discriminate Ev |].
    injection Ev as <-.
    apply Qmult_le_0_compat.
    + change 0%Q with (inject_Z 0). rewrite <- Zle_Qle.
      apply nearest_even_nonneg. apply Qle_shift_div_l; [apply pow2_pos |].
      lra.
    + apply Qlt_le_weak, pow2_pos.
Qed.

Lemma Qfloor_unique (v : Q) (k : Z) :
  (inject_Z k <= v)%Q -> (v < inject_Z k + 1)%Q -> Qfloor v = k.
Proof.
  intros L U.
  pose proof (Qfloor_le v) as F1. pose proof (Qlt_floor v) as F2.
  rewrite inject_Z_plus in F2. change (inject_Z 1) with 1%Q in F2.
  assert (A1 : Qfloor v < k + 1).
  { rewrite Zlt_Qlt, inject_Z_plus. change (inject_Z 1) with 1%Q. lra. }
  assert (A2 : k < Qfloor v + 1).
  { rewrite Zlt_Qlt, inject_Z_plus. change (inject_Z 1) with 1%Q. lra. }
  lia.
Qed.

Lemma this_Qc_mult (a b : Qc) : (this (a * b)%Qc == this a * this b)%Q.
Proof. unfold Qcmult. apply this_Q2Qc. Qed.

Lemma this_Qc_plus (a b : Qc) : (this (a + b)%Qc == this a + this b)%Q.
Proof. unfold Qcplus. apply this_Q2Qc. Qed.

(** Two decimals of a value that is not negative and within half a
    hundredth of [c] hundredths. *)
Lemma toFixed2_near (r : Qc) (c : Z) :
  0 <= c <= 10 ^ 22 ->
  (0 <= this r)%Q ->
  (inject_Z c - (1 # 2) <= this r * 100)%Q ->
  (this r * 100 < inject_Z c + (1 # 2))%Q ->
  toFixed2 (Fin r) = Some (hundredths c).
Proof.
  intros Hc H0 L U. unfold toFixed2.
  assert (Neg : Qc_ltb r Qc_zero = false).
  { unfold Qc_ltb. apply negb_false_iff, Qle_bool_iff. exact H0. }
  rewrite Neg.
  assert (Big : Qc_leb (Zq (10 ^ 21)) r = false).
  { unfold Qc_leb. destruct (Qle_bool _ _) eqn:B; [| reflexivity].
    apply Qle_bool_iff in B. rewrite this_Zq_eq in B. exfalso.
    assert (C : (inject_Z c <= inject_Z (10 ^ 22))%Q)
      by (rewrite <- Zle_Qle; lia).
    assert (D : (inject_Z (10 ^ 21) * 100 == inject_Z (10 ^ 22) * 10)%Q)
      by (vm_compute; reflexivity).
    assert (P : (1 <= inject_Z (10 ^ 22))%Q)
      by (apply Qle_bool_iff; vm_compute; reflexivity).
    lra. }
  rewrite Big. f_equal. cbn [append]. f_equal.
  apply Qfloor_unique; rewrite this_Qc_plus, this_Qc_mult, this_Zq_eq;
    change (this (Q2Qc (1 # 2))) with (1 # 2)%Q;
    change (inject_Z 100) with 100%Q; lra.
Qed.

(** The two error terms of a rounding, for values up to 2^48. *)
Lemma rounding_constants :
  (0 < pow2 (-53))%Q /\ (pow2 (-53) * inject_Z (2 ^ 48) <= 1 # 32)%Q
  /\ (0 < pow2 (-1075))%Q /\ (pow2 (-1075) <= 1 # 1000000)%Q.
Proof.
  refine (conj (pow2_pos _) (conj _ (conj (pow2_pos _) _)));
    apply Qle_bool_iff; vm_compute; reflexivity.
Qed.

Lemma this_Zq_div_mul (n p : Z) :
  p <> 0 -> (this (Zq n / Zq p)%Qc * inject_Z p == inject_Z n)%Q.
Proof.
  intros Hp. rewrite this_Zq_div. field.
  change 0%Q with (inject_Z 0). rewrite inject_Z_injective. exact Hp.
Qed.

(** [points / 10] for a balance up to 2^48: within half a hundredth of
    [10 * points] hundredths. *)
Lemma tenth_near (b : Z) :
  0 <= b <= 2 ^ 48 ->
  exists r : Qc,
    div (num b) (num 10) = Fin r
    /\ (0 <= this r)%Q
    /\ (inject_Z (b * 10) - (1 # 2) <= this r * 100)%Q
    /\ (this r * 100 < inject_Z (b * 10) + (1 # 2))%Q.
Proof.
  intros Hb. unfold div, num. rewrite Zq_sign. change (10 ?= 0) with Gt.
  cbv iota.
  pose proof (this_Zq_div_mul b 10 ltac:(lia)) as Hx.
  change (inject_Z 10) with 10%Q in Hx.
  set (x := this (Zq b / Zq 10)%Qc) in *. clearbody x.
  assert (B0 : (0 <= inject_Z b)%Q)
    by (change 0%Q with (inject_Z 0); rewrite <- Zle_Qle; lia).
  assert (B1 : (inject_Z b <= inject_Z (2 ^ 48))%Q)
    by (rewrite <- Zle_Qle; lia).
  destruct rounding_constants as (C1 & C2 & C3 & C4).
  assert (P : (inject_Z (2 ^ 48) <= pow2 1000)%Q).
  { rewrite <- pow2_nonneg_exp by lia. apply pow2_le. lia. }
  assert (Q48 : (0 <= inject_Z (2 ^ 48))%Q) by discriminate.
  rewrite inject_Z_mult. change (inject_Z 10) with 10%Q.
  set (B := inject_Z b) in *. clearbody B.
  set (T := inject_Z (2 ^ 48)) in *. clearbody T.
  set (c1 := pow2 (-53)) in *. set (c2 := pow2 (-1075)) in *.
  set (big := pow2 1000) in *.
  assert (X0 : (0 <= x)%Q) by lra.
  assert (X1 : (x <= big)%Q) by lra.
  destruct (round64_near x X0 X1) as (r & Er & R0 & Rn).
  fold c1 c2 in Rn.
  exists r. refine (conj Er (conj R0 _)).
  apply Qabs_Qle_condition in Rn. destruct Rn as [N1 N2].
  assert (M : (x * c1 * 10 <= T * c1)%Q).
  { assert (B * c1 <= T * c1)%Q by (apply Qmult_le_compat_r; lra).
    assert (E : (x * c1 * 10 == B * c1)%Q) by (rewrite <- Hx; ring).
    rewrite E. assumption. }
  clearbody c1 c2 big. set (t := this r) in *. clearbody t.
  split; lra.
Qed.

(** [(points / 100) * 5] for a balance up to 2^48: within half a
    hundredth of [5 * points] hundredths. *)
Lemma twentieth_near (b : Z) :
  0 <= b <= 2 ^ 48 ->
  exists r : Qc,
    mul (div (num b) (num 100)) (num 5) = Fin r
    /\ (0 <= this r)%Q
    /\ (inject_Z (b * 5) - (1 # 2) <= this r * 100)%Q
    /\ (this r * 100 < inject_Z (b * 5) + (1 # 2))%Q.
Proof.
  intros Hb.
  assert (D : div (num b) (num 100) = round64 (this (Zq b / Zq 100)%Qc))
    by (unfold div, num; rewrite Zq_sign; reflexivity).
  rewrite D. clear D.
  pose proof (this_Zq_div_mul b 100 ltac:(lia)) as Hx.
  change (inject_Z 100) with 100%Q in Hx.
  set (x := this (Zq b / Zq 100)%Qc) in *. clearbody x.
  assert (B0 : (0 <= inject_Z b)%Q)
    by (change 0%Q with (inject_Z 0); rewrite <- Zle_Qle; lia).
  assert (B1 : (inject_Z b <= inject_Z (2 ^ 48))%Q)
    by (rewrite <- Zle_Qle; lia).
  destruct rounding_constants as (C1 & C2 & C3 & C4).
  assert (P : (inject_Z (2 ^ 48) + 1 <= pow2 1000)%Q).
  { change (inject_Z (2 ^ 48) + 1)%Q with (inject_Z (2 ^ 48) + inject_Z 1)%Q.
    rewrite <- inject_Z_plus.
    apply Qle_trans with (inject_Z (2 ^ 49)); [rewrite <- Zle_Qle; lia |].
    rewrite <- pow2_nonneg_exp by lia. apply pow2_le. lia. }
  assert (Q48 : (1 <= inject_Z (2 ^ 48))%Q) by discriminate.
  assert (C5 : (pow2 (-53) <= 1 # 32)%Q)
    by (apply Qle_bool_iff; vm_compute; reflexivity).
  rewrite inject_Z_mult. change (inject_Z 5) with 5%Q.
  set (B := inject_Z b) in *. clearbody B.
  set (T := inject_Z (2 ^ 48)) in *. clearbody T.
  set (c1 := pow2 (-53)) in *. set (c2 := pow2 (-1075)) in *.
  set (big := pow2 1000) in *.
  assert (X0 : (0 <= x)%Q) by lra.
  assert (X1 : (x <= big)%Q) by lra.
  destruct (round64_near x X0 X1) as (r1 & Er1 & R10 & Rn1).
  fold c1 c2 in Rn1.
  rewrite Er1. unfold mul, num.
  apply Qabs_Qle_condition in Rn1. destruct Rn1 as [N1 N2].
  assert (M1 : (x * c1 * 100 <= T * c1)%Q).
  { assert (B * c1 <= T * c1)%Q by (apply Qmult_le_compat_r; lra).
    assert (E : (x * c1 * 100 == B * c1)%Q) by (rewrite <- Hx; ring).
    rewrite E. assumption. }
  pose proof (this_Qc_mult r1 (Zq 5)) as Hy. rewrite this_Zq_eq in Hy.
  change (inject_Z 5) with 5%Q in Hy.
  set (y := this (r1 * Zq 5)%Qc) in *. clearbody y.
  set (t1 := this r1) in *. clearbody t1.
  assert (Y0 : (0 <= y)%Q) by lra.
  assert (Y1 : (y <= big)%Q) by lra.
  destruct (round64_near y Y0 Y1) as (r2 & Er2 & R20 & Rn2).
  fold c1 c2 in Rn2.
  exists r2. refine (conj Er2 (conj R20 _)).
  apply Qabs_Qle_condition in Rn2. destruct Rn2 as [N3 N4].
  assert (M2 : (y * c1 * 20 <= (T + 1) * c1)%Q).
  { assert ((B + 1) * c1 <= (T + 1) * c1)%Q
      by (apply Qmult_le_compat_r; lra).
    assert (y * 20 <= B + 1)%Q by lra.
    assert (y * 20 * c1 <= (B + 1) * c1)%Q
      by (apply Qmult_le_compat_r; lra).
    assert (E : (y * c1 * 20 == y * 20 * c1)%Q) by ring.
    rewrite E. lra. }
  assert (M3 : ((T + 1) * c1 <= 1 # 16)%Q).
  { assert (E : ((T + 1) * c1 == c1 * T + c1)%Q) by ring. rewrite E. lra. }
  clearbody c1 c2 big. set (t2 := this r2) in *. clearbody t2.
  split; lra.
Qed.

(** ** Values beyond the columns *)

Lemma round_positive_near (a v : Q) :
  (0 < a)%Q ->
  round_positive a = Some v ->
  (Qabs (v - a) <= a * pow2 (-53) + pow2 (-1075))%Q.
Proof.
  intros Ha. unfold round_positive.
  set (ue := Z.max (exponent_of a - 52) (-1074)).
  pose proof (ulp_bound a Ha) as Hu. fold ue in Hu.
  pose proof (pow2_pos ue) as Pu.
  pose proof (scaled_error _ a _ Pu (nearest_even_error (a / pow2 ue))) as He.
  set (v0 := (inject_Z (nearest_even (a / pow2 ue)) * pow2 ue)%Q) in *.
  destruct (Qle_bool (pow2 1024) v0); [discriminate |].
  intros E. injection E as <-.
  assert (H52 : (pow2 (-52) * (1 # 2) == pow2 (-53))%Q) by apply pow2_half.
  assert (H1074 : (pow2 (-1074) * (1 # 2) == pow2 (-1075))%Q)
    by apply pow2_half.
  rewrite <- H52, <- H1074.
  eapply Qle_trans; [exact He |].
  assert (pow2 ue * (1 # 2) <= (a * pow2 (-52) + pow2 (-1074)) * (1 # 2))%Q.
  { apply Qmult_le_compat_r; [exact Hu | discriminate]. }
  lra.
Qed.

(** Rounding a rational of at least [2 * t] gives plus infinity or a
    value of at least [t]. *)
Lemma round64_at_least (a : Q) (t : Z) :
  1 <= t ->
  (inject_Z (2 * t) <= a)%Q ->
  at_least t (round64 a).
Proof.
  intros Ht Ha.
  assert (T1 : (1 <= inject_Z t)%Q)
    by (change 1%Q with (inject_Z 1); rewrite <- Zle_Qle; exact Ht).
  rewrite inject_Z_mult in Ha. change (inject_Z 2) with 2%Q in Ha.
  assert (A0 : (0 < a)%Q) by lra.
  unfold round64. rewrite (proj1 (Qgt_alt a 0) A0).
  destruct (round_positive a) as [v|] eqn:E; [| left; reflexivity].
  right. exists (Q2Qc v). split; [reflexivity |]. rewrite this_Q2Qc.
  pose proof (round_positive_near a v A0 E) as N.
  apply Qabs_Qle_condition in N. destruct N as [N1 _].
  assert (C1 : (pow2 (-53) <= 1 # 4)%Q)
    by (apply Qle_bool_iff; vm_compute; reflexivity).
  assert (C2 : (pow2 (-1075) <= 1 # 2)%Q)
    by (apply Qle_bool_iff; vm_compute; reflexivity).
  assert (M : (a * pow2 (-53) <= a * (1 # 4))%Q).
  { rewrite !(Qmult_comm a). apply Qmult_le_compat_r; lra. }
  set (c1 := pow2 (-53)) in *. set (c2 := pow2 (-1075)) in *.
  set (T := inject_Z t) in *. clearbody c1 c2 T. lra.
Qed.

Lemma Qopp_opp_eq (q : Q) : (- - q)%Q = q.
Proof. destruct q as [n d]. unfold Qopp. cbn. rewrite Z.opp_involutive. reflexivity. Qed.

Lemma Q2Qc_opp (v : Q) : Q2Qc (- v) = (- Q2Qc v)%Qc.
Proof.
  apply Qc_is_canon. unfold Qcopp. rewrite !this_Q2Qc. reflexivity.
Qed.

Lemma Qcopp_Q2Qc_opp (v : Q) : (- Q2Qc (- v))%Qc = Q2Qc v.
Proof.
  apply Qc_is_canon. unfold Qcopp. rewrite !this_Q2Qc. ring.
Qed.

(** Rounding is symmetric. *)
Lemma round64_opp (q : Q) : round64 (- q) = neg (round64 q).
Proof.
  unfold round64.
  assert (C : (- q ?= 0)%Q = CompOpp (q ?= 0)%Q).
  { destruct q as [n d]. unfold Qcompare, Qopp. cbn [Qnum Qden].
    rewrite !Z.mul_1_r. change (0 * Z.pos d) with 0.
    destruct n; reflexivity. }
  rewrite C. destruct (q ?= 0)%Q; cbn [CompOpp].
  - unfold neg, num. rewrite Zq_opp. reflexivity.
  - destruct (round_positive (- q)); cbn [neg]; [| reflexivity].
    rewrite Qcopp_Q2Qc_opp. reflexivity.
  - rewrite Qopp_opp_eq.
    destruct (round_positive q); cbn [neg]; [| reflexivity].
    rewrite Q2Qc_opp. reflexivity.
Qed.

Lemma this_Qcopp (a : Qc) : this (- a)%Qc = (- this a)%Q.
Proof.
  unfold Qcopp, Q2Qc. cbn [this]. rewrite Qred_opp.
  rewrite (canon a). reflexivity.
Qed.

Lemma neg_neg (x : number) : neg (neg x) = x.
Proof.
  destruct x as [| | | a]; try reflexivity. cbn [neg]. f_equal.
  apply Qcopp_involutive.
Qed.

Lemma Zq_positive_sign (c : Z) : 0 < c -> Qc_sign (Zq c) = Gt.
Proof. intros H. rewrite Zq_sign. apply Z.compare_gt_iff. lia. Qed.

Lemma mul_neg_l (x : number) (c : Z) :
  0 < c -> mul (neg x) (num c) = neg (mul x (num c)).
Proof.
  intros Hc. destruct x as [| | | a]; unfold mul, num; cbn [neg mul_inf];
    rewrite ?(Zq_positive_sign c Hc); try reflexivity.
  replace (- a * Zq c)%Qc with (- (a * Zq c))%Qc by ring.
  rewrite this_Qcopp. apply round64_opp.
Qed.

Lemma div_neg_l (x : number) (c : Z) :
  0 < c -> div (neg x) (num c) = neg (div x (num c)).
Proof.
  intros Hc. destruct x as [| | | a]; unfold div, num; cbn [neg];
    rewrite ?(Zq_positive_sign c Hc); try reflexivity.
  replace (- a / Zq c)%Qc with (- (a / Zq c))%Qc
    by (unfold Qcdiv; ring).
  rewrite this_Qcopp. apply round64_opp.
Qed.

Lemma pointsNeeded_neg (vt : variant) (x : number) :
  pointsNeeded vt (neg x) = neg (pointsNeeded vt x).
Proof.
  destruct vt; unfold pointsNeeded.
  - rewrite div_neg_l, mul_neg_l by lia. reflexivity.
  - rewrite mul_neg_l by lia. reflexivity.
Qed.

Lemma at_least_weaken (t t' : Z) (x : number) :
  t' <= t -> at_least t x -> at_least t' x.
Proof.
  intros H [-> | (r & -> & Hr)]; [left; reflexivity |].
  right. exists r. split; [reflexivity |].
  eapply Qle_trans; [| exact Hr]. rewrite <- Zle_Qle. exact H.
Qed.

(** The product of a large value and an integer [c >= 2]. *)
Lemma at_least_mul (t : Z) (x : number) (c : Z) :
  1 <= t -> 2 <= c -> at_least t x -> at_least t (mul x (num c)).
Proof.
  intros Ht Hc [-> | (r & -> & Hr)].
  - left. unfold mul, num. cbn [mul_inf].
    rewrite (Zq_positive_sign c) by lia. reflexivity.
  - unfold mul, num. apply round64_at_least; [exact Ht |].
    rewrite this_Qc_mult, this_Zq_eq, inject_Z_mult.
    change (inject_Z 2) with 2%Q.
    assert (C : (2 <= inject_Z c)%Q)
      by (change 2%Q with (inject_Z 2); rewrite <- Zle_Qle; exact Hc).
    assert (T : (1 <= inject_Z t)%Q)
      by (change 1%Q with (inject_Z 1); rewrite <- Zle_Qle; exact Ht).
    set (R := this r) in *. set (T' := inject_Z t) in *.
    set (C' := inject_Z c) in *. clearbody R T' C'.
    assert (R * 2 <= R * C')%Q.
    { rewrite !(Qmult_comm R). apply Qmult_le_compat_r; lra. }
    lra.
Qed.

(** The sum of a balance that is not negative and a large value. *)
Lemma at_least_add (t : Z) (b : Z) (x : number) :
  1 <= t -> 0 <= b -> at_least (2 * t) x -> at_least t (add (num b) x).
Proof.
  intros Ht Hb [-> | (r & -> & Hr)].
  - left. reflexivity.
  - unfold add, num. apply round64_at_least; [exact Ht |].
    rewrite this_Qc_plus, this_Zq_eq.
    assert (B : (0 <= inject_Z b)%Q)
      by (change 0%Q with (inject_Z 0); rewrite <- Zle_Qle; exact Hb).
    set (R := this r) in *. set (T' := inject_Z (2 * t)) in *.
    set (B' := inject_Z b) in *. clearbody R T' B'. lra.
Qed.

(** A large value is not an integer of the column. *)
Lemma at_least_refused (t : Z) (x : number) :
  int4_max < t -> at_least t x -> exists code, as_integer x = inr code.
Proof.
  intros Ht [-> | (r & -> & Hr)]; [eexists; reflexivity |].
  unfold as_integer.
  destruct (Qc_eqb r (Zq (Qfloor (this r)))) eqn:E; cbn [negb];
    [| eexists; reflexivity].
  assert (F : t <= Qfloor (this r)).
  { rewrite <- (Qfloor_Z t). apply Qfloor_resp_le, Hr. }
  destruct (Z.leb_spec (Qfloor (this r)) int4_max); [lia |].
  rewrite andb_false_r. eexists. reflexivity.
Qed.

(** A balance below [t] is less than a large value. *)
Lemma at_least_lt (t b : Z) (x : number) :
  b < t -> at_least t x -> lt (num b) x = true.
Proof.
  intros Hb [-> | (r & -> & Hr)]; [reflexivity |].
  unfold lt, num, Qc_ltb. apply negb_true_iff.
  destruct (Qle_bool (this r) (this (Zq b))) eqn:L; [| reflexivity].
  apply Qle_bool_iff in L. rewrite this_Zq_eq in L.
  assert (inject_Z t <= inject_Z b)%Q by (eapply Qle_trans; eassumption).
  rewrite <- Zle_Qle in H. lia.
Qed.

(** A balance that is not negative is not less than the negation of a
    large value. *)
Lemma neg_at_least_lt (t b : Z) (x : number) :
  0 <= t -> 0 <= b -> at_least t x -> lt (num b) (neg x) = false.
Proof.
  intros Ht Hb [-> | (r & -> & Hr)]; [reflexivity |].
  unfold lt, neg, num, Qc_ltb. apply negb_false_iff, Qle_bool_iff.
  rewrite this_Qcopp, this_Zq_eq.
  assert (B : (0 <= inject_Z b)%Q)
    by (change 0%Q with (inject_Z 0); rewrite <- Zle_Qle; exact Hb).
  assert (T : (0 <= inject_Z t)%Q)
    by (change 0%Q with (inject_Z 0); rewrite <- Zle_Qle; exact Ht).
  set (R := this r) in *. set (T' := inject_Z t) in *.
  set (B' := inject_Z b) in *. clearbody R T' B'. lra.
Qed.

(** The points needed for a multiple of the increment beyond 2^48. *)
Lemma pointsNeeded_at_least (vt : variant) (k : Z) :
  2 ^ 48 < REDEEM_INCREMENT vt * k ->
  at_least (2 ^ 44) (pointsNeeded vt (num (REDEEM_INCREMENT vt * k))).
Proof.
  destruct vt; unfold pointsNeeded, REDEEM_INCREMENT; intros H.
  - apply at_least_mul; [lia | lia |].
    unfold div, num. rewrite (Zq_positive_sign 5) by lia.
    rewrite Zq_div_exact, this_Zq_eq by lia.
    apply round64_at_least; [lia |]. rewrite <- Zle_Qle. lia.
  - unfold mul, num. rewrite Zq_mul, this_Zq_eq.
    apply round64_at_least; [lia |]. rewrite <- Zle_Qle. lia.
Qed.

Lemma as_integer_beyond (z : Z) :
  int4_max < z -> as_integer (num z) = inr numeric_value_out_of_range.
Proof.
  intros H. unfold as_integer, num. rewrite Qfloor_Zq.
  rewrite (proj2 (Qc_eqb_eq _ _) eq_refl). cbn [negb].
  destruct (Z.leb_spec z int4_max); [lia |].
  rewrite andb_false_r. reflexivity.
Qed.

Lemma at_least_num (t z : Z) : t <= z -> at_least t (num z).
Proof.
  intros H. right. exists (Zq z). split; [reflexivity |].
  rewrite this_Zq_eq, <- Zle_Qle. exact H.
Qed.

(** A sum of a balance of the column and an integer that exceeds the
    column is refused by it, however large the integer. *)
Lemma accrual_beyond_column (b d : Z) :
  0 <= b <= int4_max ->
  int4_max < b + d ->
  exists code, as_integer (add (num b) (num d)) = inr code.
Proof.
  unfold int4_max. intros Hb Hd.
  destruct (Z.le_gt_cases d (2 ^ 52)) as [S | L].
  - rewrite add_num by lia. eexists. apply as_integer_beyond.
    unfold int4_max. lia.
  - apply (at_least_refused (2 ^ 50)); [unfold int4_max; lia |].
    apply at_least_add; [lia | lia |]. apply at_least_num. lia.
Qed.

(** The points needed for a multiple of the increment below -2^48. *)
Lemma pointsNeeded_far_below (vt : variant) (k : Z) :
  REDEEM_INCREMENT vt * k < - 2 ^ 48 ->
  exists P,
    pointsNeeded vt (num (REDEEM_INCREMENT vt * k)) = neg P
    /\ at_least (2 ^ 44) P.
Proof.
  intros H. exists (pointsNeeded vt (num (REDEEM_INCREMENT vt * - k))).
  split.
  - rewrite <- pointsNeeded_neg, neg_num. do 2 f_equal. lia.
  - apply pointsNeeded_at_least. lia.
Qed.

(** A redemption of an amount far below zero passes the balance guard
    and asks for a balance that the column refuses. *)
Lemma redeem_far_below (b : Z) (P : number) :
  0 <= b ->
  at_least (2 ^ 44) P ->
  lt (num b) (neg P) = false
  /\ exists code, as_integer (sub (num b) (neg P)) = inr code.
Proof.
  intros Hb HP. split.
  - apply (neg_at_least_lt (2 ^ 44)); [lia | exact Hb | exact HP].
  - unfold sub. rewrite neg_neg.
    apply (at_least_refused (2 ^ 43)); [unfold int4_max; lia |].
    apply at_least_add; [lia | exact Hb |].
    exact HP.
Qed.

(** ** Rows and the points of a redemption *)

Lemma number_eqb_eq (x y : number) : number_eqb x y = true <-> x = y.
Proof.
  destruct x, y; cbn; try (split; [discriminate | congruence]);
    try (split; reflexivity).
  rewrite Qc_eqb_eq. split; congruence.
Qed.

Lemma filter_set_points (id : string) (p : number) (l : list Customer.t) :
  filter (fun c => String.eqb (Customer.id c) id) (map (set_points id p) l)
  = map (set_points id p)
        (filter (fun c => String.eqb (Customer.id c) id) l).
Proof.
  induction l as [|c l IH]; [reflexivity|].
  cbn [map filter]. rewrite id_set_points, IH.
  destruct (String.eqb (Customer.id c) id); reflexivity.
Qed.

Lemma has_row_id (s : Store) (id : string) (row : Customer.t) :
  has_row s id row -> Customer.id row = id.
Proof.
  unfold has_row. intros H.
  assert (I : In row (filter (fun c => String.eqb (Customer.id c) id)
                             (customers_table s)))
    by (rewrite H; left; reflexivity).
  apply filter_In in I. apply String.eqb_eq, I.
Qed.

Lemma total_points_set_points (id : string) (p : number) (row : Customer.t) :
  Customer.id row = id -> Customer.total_points (set_points id p row) = p.
Proof.
  intros <-. unfold set_points. rewrite String.eqb_refl. reflexivity.
Qed.

(** After an update the table holds the one row with the new balance. *)
Lemma has_row_updated (s s' : Store) (id : string) (p : number)
    (row : Customer.t) :
  has_row s id row ->
  customers_table s' = map (set_points id p) (customers_table s) ->
  has_row s' id (set_points id p row)
  /\ Customer.total_points (set_points id p row) = p.
Proof.
  intros H E. split.
  - unfold has_row in *. rewrite E, filter_set_points, H. reflexivity.
  - apply total_points_set_points. eapply has_row_id, H.
Qed.

Lemma pointsNeeded_multiple (vt : variant) (k : Z) :
  Z.abs (REDEEM_INCREMENT vt * k * points_per_dollar vt) <= 2 ^ 53 ->
  pointsNeeded vt (num (REDEEM_INCREMENT vt * k))
  = num (REDEEM_INCREMENT vt * k * points_per_dollar vt).
Proof.
  destruct vt; unfold pointsNeeded, points_per_dollar, REDEEM_INCREMENT.
  - change (100 / 5) with 20. intros H.
    rewrite div_num_exact, mul_num by lia. f_equal. lia.
  - change (100 / 10) with 10. intros H.
    rewrite mul_num by lia. reflexivity.
Qed.

Lemma REDEEM_INCREMENT_nonzero (vt : variant) : REDEEM_INCREMENT vt <> 0.
Proof. destruct vt; discriminate. Qed.

Lemma points_per_dollar_bounds (vt : variant) :
  10 <= points_per_dollar vt <= 20.
Proof. destruct vt; vm_compute; split; discriminate. Qed.

(** A redemption of a multiple of the increment that the balance covers
    goes through, whatever the sign of the amount, when the balances
    before and after are integers of the column. *)
Lemma redeem_multiple (vt : variant) (w : World) (c row : Customer.t)
    (b k : Z) :
  currentCustomer (page w) = Some c ->
  has_row (store w) (Customer.id c) row ->
  Customer.total_points c = num b ->
  let z := REDEEM_INCREMENT vt * k in
  let needed := z * points_per_dollar vt in
  needed <= b ->
  0 <= b <= int4_max ->
  b - needed <= int4_max ->
  let w' := run (handleRedeem vt (num z)) w in
  error (page w') = ""%string
  /\ currentCustomer (page w')
     = Some (set_points (Customer.id c) (num (b - needed)) row)
  /\ has_row (store w') (Customer.id c)
             (set_points (Customer.id c) (num (b - needed)) row)
  /\ Customer.total_points
       (set_points (Customer.id c) (num (b - needed)) row)
     = num (b - needed)
  /\ customers_table (store w')
     = map (set_points (Customer.id c) (num (b - needed)))
           (customers_table (store w))
  /\ transactions_table (store w')
     = transactions_table (store w)
       ++ [Transaction.mk (fresh_id (store w)) (Customer.id c) "redeem"
                          (num z) (num (- needed)) (clock (store w))].
Proof.
  intros Hcur Hrow Hb z needed Hle Hb4 Hnew w'.
  pose proof (points_per_dollar_bounds vt) as Hp.
  unfold int4_max in *.
  assert (N1 : -2147483647 <= needed <= 2147483647) by lia.
  assert (Z1 : -2147483647 <= z <= 2147483647) by (unfold needed in N1; nia).
  assert (PN : pointsNeeded vt (num z) = num needed).
  { unfold z, needed. apply pointsNeeded_multiple. fold z. fold needed. lia. }
  destruct (handleRedeem_proceeds vt [] w (num z) c row
              (b - needed) z (- needed) Hcur)
    as (T1 & T2 & T3 & T4 & _); try reflexivity.
  - unfold z. rewrite rem_multiple by apply REDEEM_INCREMENT_nonzero.
    reflexivity.
  - rewrite PN, Hb, lt_num. apply Z.ltb_ge. exact Hle.
  - exact Hrow.
  - rewrite PN, Hb, sub_num by lia. apply as_integer_num.
    unfold int4, int4_min, int4_max. lia.
  - apply as_integer_num. unfold int4, int4_min, int4_max. lia.
  - rewrite PN, neg_num. apply as_integer_num.
    unfold int4, int4_min, int4_max. lia.
  - destruct (has_row_updated _ _ _ _ _ Hrow T1) as [U1 U2].
    subst w'. unfold run. repeat split; assumption.
Qed.

(** ** Redemption *)

(** C1: for a customer whose row the store holds and whose balance is [b],
    an integer of the column, a redemption of [z] dollars, [z] a positive
    multiple of the increment with [z * (100 / REDEEM_INCREMENT) <= b],
    succeeds: the balance becomes [b - z * (100 / REDEEM_INCREMENT)],
    which is not negative, and one transaction of type [redeem] is
    appended with amount [z] and point change
    [- (z * (100 / REDEEM_INCREMENT))]. *)
Theorem redeem_deducts_points (vt : variant) (w : World)
    (c row : Customer.t) (b z : Z) :
  currentCustomer (page w) = Some c ->
  has_row (store w) (Customer.id c) row ->
  Customer.total_points c = num b ->
  b <= int4_max ->
  0 < z ->
  (REDEEM_INCREMENT vt | z) ->
  z * points_per_dollar vt <= b ->
  let needed := z * points_per_dollar vt in
  let w' := run (handleRedeem vt (num z)) w in
  error (page w') = ""%string
  /\ currentCustomer (page w')
     = Some (set_points (Customer.id c) (num (b - needed)) row)
  /\ has_row (store w') (Customer.id c)
             (set_points (Customer.id c) (num (b - needed)) row)
  /\ Customer.total_points
       (set_points (Customer.id c) (num (b - needed)) row)
     = num (b - needed)
  /\ 0 <= b - needed
  /\ transactions_table (store w')
     = transactions_table (store w)
       ++ [Transaction.mk (fresh_id (store w)) (Customer.id c) "redeem"
                          (num z) (num (- needed)) (clock (store w))].
Proof.
  intros Hcur Hrow Hb Hmax Hz [k Hk] Hle needed w'.
  assert (E : z = REDEEM_INCREMENT vt * k) by lia.
  pose proof (points_per_dollar_bounds vt) as Hp.
  destruct (redeem_multiple vt w c row b k Hcur Hrow Hb)
    as (R1 & R2 & R3 & R4 & _ & R6).
  - rewrite <- E. exact Hle.
  - nia.
  - rewrite <- E. nia.
  - rewrite <- E in R1, R2, R3, R4, R6.
    subst w' needed. repeat split; try assumption. lia.
Qed.

Lemma redeem_deducts_points_witness :
  let w' := run (handleRedeem Redeem5 (num 10)) (at_counter alice "") in
  error (page w') = ""%string
  /\ currentCustomer (page w')
     = Some (set_points (Customer.id alice) (num (250 - 10 * 20)) alice)
  /\ has_row (store w') (Customer.id alice)
             (set_points (Customer.id alice) (num (250 - 10 * 20)) alice)
  /\ Customer.total_points
       (set_points (Customer.id alice) (num (250 - 10 * 20)) alice)
     = num (250 - 10 * 20)
  /\ 0 <= 250 - 10 * 20
  /\ transactions_table (store w')
     = transactions_table shop
       ++ [Transaction.mk (fresh_id shop) (Customer.id alice) "redeem"
                          (num 10) (num (- (10 * 20))) (clock shop)].
Proof.
  apply (redeem_deducts_points Redeem5 (at_counter alice "") alice alice
                               250 10).
  - reflexivity.
  - reflexivity.
  - reflexivity.
  - vm_compute. discriminate.
  - lia.
  - exists 2. reflexivity.
  - vm_compute. discriminate.
Defined.

(** C4: a redemption amount that is not a multiple of the increment is
    refused with the increment message; a multiple of the increment that
    the balance, an integer of the column, does not cover is refused with
    the message for insufficient points, however large the amount.
    Either way the store is left as it was: the balance is unchanged and
    no transaction is appended. *)
Theorem redeem_rejections (vt : variant) (w : World) (c : Customer.t) :
  currentCustomer (page w) = Some c ->
  (forall r : number,
      ~ multiple_of (REDEEM_INCREMENT vt) r ->
      let w' := run (handleRedeem vt r) w in
      error (page w') = InvalidIncrement vt
      /\ store w' = store w
      /\ customers_table (store w') = customers_table (store w)
      /\ transactions_table (store w') = transactions_table (store w)
      /\ currentCustomer (page w') = Some c)
  /\ (forall z b : Z,
         (REDEEM_INCREMENT vt | z) ->
         Customer.total_points c = num b ->
         int4 b ->
         lt (Customer.total_points c) (num (z * points_per_dollar vt)) = true ->
         let w' := run (handleRedeem vt (num z)) w in
         error (page w') = InsufficientPoints
         /\ store w' = store w
         /\ customers_table (store w') = customers_table (store w)
         /\ transactions_table (store w') = transactions_table (store w)
         /\ currentCustomer (page w') = Some c).
Proof.
  intros Hcur. split.
  - intros r Hr w'.
    assert (G : strict_neq (rem r (num (REDEEM_INCREMENT vt))) (num 0) = true).
    { unfold strict_neq. apply negb_true_iff.
      destruct (strict_eq (rem r (num (REDEEM_INCREMENT vt))) (num 0)) eqn:E;
        [exfalso | reflexivity].
      destruct r as [| | |q]; try (destruct vt; discriminate E).
      apply rem_zero_multiple in E; [| apply REDEEM_INCREMENT_nonzero].
      destruct E as [k ->]. apply Hr. exists k. reflexivity. }
    destruct (handleRedeem_rejects_increment vt [] w r c Hcur G)
      as (S1 & S2 & S3 & _).
    subst w'. unfold run. rewrite S1. repeat split; assumption.
  - intros z b [k Hk] Hb [Hb1 Hb2] Hlt w'.
    unfold int4_min in Hb1. unfold int4_max in Hb2.
    assert (E : z = REDEEM_INCREMENT vt * k) by lia.
    pose proof (points_per_dollar_bounds vt) as P.
    rewrite Hb, lt_num in Hlt. apply Z.ltb_lt in Hlt.
    destruct (handleRedeem_rejects_balance vt [] w (num z) c Hcur)
      as (S1 & S2 & S3 & _).
    + rewrite E, rem_multiple by apply REDEEM_INCREMENT_nonzero. reflexivity.
    + rewrite Hb. destruct (Z.le_gt_cases z (2 ^ 48)) as [Sm | La].
      * rewrite E, pointsNeeded_multiple, <- E, lt_num;
          [apply Z.ltb_lt; exact Hlt |].
        rewrite <- E. nia.
      * apply (at_least_lt (2 ^ 44)); [lia |].
        rewrite E. apply pointsNeeded_at_least. lia.
    + subst w'. unfold run. rewrite S1. repeat split; assumption.
Qed.

Lemma redeem_rejections_witness :
  (let w' := run (handleRedeem Redeem5 (num 7)) (at_counter alice "") in
   error (page w') = InvalidIncrement Redeem5 /\ store w' = shop)
  /\ (let w' := run (handleRedeem Redeem5 (num 15)) (at_counter alice "") in
      error (page w') = InsufficientPoints /\ store w' = shop).
Proof.
  destruct (redeem_rejections Redeem5 (at_counter alice "") alice eq_refl)
    as [A B].
  split.
  - destruct (A (num 7)) as (E1 & E2 & _).
    + intros [k Hk]. apply num_inj in Hk. change (7 = 5 * k) in Hk. lia.
    + split; [exact E1 | exact E2].
  - destruct (B 15 250) as (E1 & E2 & _).
    + exists 3. reflexivity.
    + reflexivity.
    + split; vm_compute; discriminate.
    + vm_compute. reflexivity.
    + split; [exact E1 | exact E2].
Defined.
(** ** Submitting the form of the purchase amount *)

Lemma submitPurchase_stopped (vt : variant) (w : World) :
  purchase_field_valid (purchaseAmount (page w)) = false ->
  run (submitPurchase vt) w = w.
Proof.
  intros H. unfold run, run_during, submitPurchase, bind, closure, ret.
  cbn. rewrite H. destruct (loading (page w)); reflexivity.
Qed.

Lemma submitPurchase_fires (vt : variant) (w : World) :
  loading (page w) = false ->
  purchase_field_valid (purchaseAmount (page w)) = true ->
  run (submitPurchase vt) w = run (handleAddPoints vt) w.
Proof.
  intros L H. unfold run, run_during, submitPurchase, bind at 1, closure.
  cbn. rewrite L, H. reflexivity.
Qed.


(** A redemption of a multiple of the increment that is zero or negative
    and would take the balance beyond the column: the update is refused
    and nothing is written. *)
Lemma redeem_beyond_column (vt : variant) (w : World) (c : Customer.t)
    (b k : Z) :
  currentCustomer (page w) = Some c ->
  Customer.total_points c = num b ->
  0 <= b <= int4_max ->
  let z := REDEEM_INCREMENT vt * k in
  z <= 0 ->
  int4_max < b - z * points_per_dollar vt ->
  let w' := run (handleRedeem vt (num z)) w in
  error (page w') = FailedToRedeemPoints
  /\ customers_table (store w') = customers_table (store w)
  /\ transactions_table (store w') = transactions_table (store w)
  /\ currentCustomer (page w') = Some c.
Proof.
  intros Hcur Hb Hb4 z Hz Hmax w'.
  pose proof (points_per_dollar_bounds vt) as P.
  unfold int4_max in Hb4, Hmax.
  assert (G : strict_neq (rem (num z) (num (REDEEM_INCREMENT vt))) (num 0)
              = false).
  { unfold z. rewrite rem_multiple by apply REDEEM_INCREMENT_nonzero.
    reflexivity. }
  assert (V : lt (Customer.total_points c) (pointsNeeded vt (num z)) = false
              /\ exists code,
                  as_integer (sub (Customer.total_points c)
                                  (pointsNeeded vt (num z))) = inr code).
  { rewrite Hb. destruct (Z.le_gt_cases (- 2 ^ 48) z) as [Sm | La].
    - assert (PN : pointsNeeded vt (num z)
                   = num (z * points_per_dollar vt)).
      { unfold z. apply pointsNeeded_multiple. fold z. nia. }
      rewrite PN, lt_num, sub_num by nia. split.
      + apply Z.ltb_ge. nia.
      + eexists. apply as_integer_beyond. unfold int4_max. lia.
    - destruct (pointsNeeded_far_below vt k) as (Q & EQ & HQ);
        [fold z; lia |].
      fold z in EQ. rewrite EQ.
      apply redeem_far_below; [lia | exact HQ]. }
  destruct V as [V1 [code V2]].
  destruct (handleRedeem_refused vt [] w (num z) c code Hcur G V1 V2 eq_refl)
    as (S1 & S2 & _ & S4 & S5 & _).
  subst w'. unfold run. repeat split; assumption.
Qed.

(** C10, as the code has it: [handleRedeem] does not look at the sign of
    the amount.  A multiple of the increment that is zero or negative is
    not refused by the handler when the balance is not negative: it
    passes the increment check and the balance check.  When the new
    balance is an integer of the column the balance grows by
    [|z| * (100 / REDEEM_INCREMENT)], and a transaction of type [redeem]
    is recorded with the amount [z] and a point change that is not
    negative, positive when [z] is negative; when the new balance is
    beyond the column the store refuses the update and nothing changes.
    An amount that is zero or negative and not a multiple of the
    increment is refused like any other amount that is not a multiple.
    The buttons of the page call [handleRedeem] with the redemption
    options only, and these are positive. *)
Theorem redeem_accepts_negative (vt : variant) (w : World)
    (c row : Customer.t) (b : Z) :
  currentCustomer (page w) = Some c ->
  has_row (store w) (Customer.id c) row ->
  Customer.total_points c = num b ->
  0 <= b <= int4_max ->
  (forall z : Z,
      z <= 0 ->
      (REDEEM_INCREMENT vt | z) ->
      let gained := Z.abs z * points_per_dollar vt in
      let w' := run (handleRedeem vt (num z)) w in
      (b + gained <= int4_max ->
       error (page w') = ""%string
       /\ currentCustomer (page w')
          = Some (set_points (Customer.id c) (num (b + gained)) row)
       /\ has_row (store w') (Customer.id c)
                  (set_points (Customer.id c) (num (b + gained)) row)
       /\ Customer.total_points
            (set_points (Customer.id c) (num (b + gained)) row)
          = num (b + gained)
       /\ transactions_table (store w')
          = transactions_table (store w)
            ++ [Transaction.mk (fresh_id (store w)) (Customer.id c) "redeem"
                               (num z) (num gained) (clock (store w))]
       /\ 0 <= gained
       /\ (z < 0 -> 0 < gained /\ b < b + gained))
      /\ (int4_max < b + gained ->
          error (page w') = FailedToRedeemPoints
          /\ customers_table (store w') = customers_table (store w)
          /\ transactions_table (store w') = transactions_table (store w)
          /\ currentCustomer (page w') = Some c))
  /\ (forall z : Z,
         z <= 0 ->
         ~ (REDEEM_INCREMENT vt | z) ->
         let w' := run (handleRedeem vt (num z)) w in
         error (page w') = InvalidIncrement vt
         /\ store w' = store w
         /\ currentCustomer (page w') = Some c)
  /\ (forall fuel : nat,
        (Z.to_nat (b / 100) < fuel)%nat ->
        exists options,
          getRedemptionOptions vt fuel (Customer.total_points c)
          = Some options
          /\ forall x, In x options -> exists z : Z, x = num z /\ 0 < z).
Proof.
  intros Hcur Hrow Hb Hb4. refine (conj _ (conj _ _)).
  - intros z Hz [k Hk] gained w'.
    assert (E : z = REDEEM_INCREMENT vt * k) by lia.
    pose proof (points_per_dollar_bounds vt) as P.
    assert (G : gained = - (z * points_per_dollar vt))
      by (unfold gained; rewrite Z.abs_neq by lia; lia).
    split.
    + intros Hmax.
      destruct (redeem_multiple vt w c row b k Hcur Hrow Hb)
        as (R1 & R2 & R3 & R4 & _ & R6).
      * rewrite <- E. nia.
      * lia.
      * rewrite <- E. lia.
      * rewrite <- E in R1, R2, R3, R4, R6.
        replace (b - z * points_per_dollar vt) with (b + gained)
          in R2, R3, R4 by lia.
        rewrite <- G in R6.
        subst w'. repeat split; try assumption; nia.
    + intros Hmax. subst w'. rewrite E.
      apply (redeem_beyond_column vt w c b k Hcur Hb Hb4).
      * rewrite <- E. exact Hz.
      * rewrite <- E. lia.
  - intros z Hz Hn w'.
    assert (G : strict_neq (rem (num z) (num (REDEEM_INCREMENT vt))) (num 0)
                = true).
    { unfold strict_neq. apply negb_true_iff.
      destruct (strict_eq (rem (num z) (num (REDEEM_INCREMENT vt))) (num 0))
        eqn:E; [exfalso | reflexivity].
      apply rem_zero_multiple in E; [| apply REDEEM_INCREMENT_nonzero].
      destruct E as [k E]. apply Zq_inj in E. apply Hn. exists k. lia. }
    destruct (handleRedeem_rejects_increment vt [] w (num z) c Hcur G)
      as (S1 & S2 & S3 & _).
    subst w'. unfold run. repeat split; assumption.
  - intros fuel Hfuel.
    exists (multiples (REDEEM_INCREMENT vt) (Z.to_nat (b / 100))).
    rewrite Hb. split.
    + apply getRedemptionOptions_multiples; [exact Hb4 | exact Hfuel].
    + intros x Hx. unfold multiples in Hx. apply in_map_iff in Hx.
      destruct Hx as (k & <- & Hk). apply in_seq in Hk.
      eexists. split; [reflexivity |].
      assert (0 < REDEEM_INCREMENT vt) by (destruct vt; reflexivity). nia.
Qed.

Lemma redeem_accepts_negative_witness :
  (let w' := run (handleRedeem Redeem5 (num (-5))) (at_counter alice "") in
   error (page w') = ""%string
   /\ has_row (store w') (Customer.id alice)
              (set_points (Customer.id alice) (num (250 + 5 * 20)) alice)
   /\ transactions_table (store w')
      = [Transaction.mk (fresh_id shop) (Customer.id alice) "redeem"
                        (num (-5)) (num (5 * 20)) (clock shop)])
  /\ (let w' := run (handleRedeem Redeem5 (num (-3))) (at_counter alice "") in
      error (page w') = InvalidIncrement Redeem5 /\ store w' = shop).
Proof.
  destruct (redeem_accepts_negative Redeem5 (at_counter alice "") alice alice
                                    250)
    as (A & B & _).
  - reflexivity.
  - reflexivity.
  - reflexivity.
  - split; vm_compute; discriminate.
  - split.
    + destruct (A (-5)) as [A1 _].
      * lia.
      * exists (-1). reflexivity.
      * destruct A1 as (E1 & _ & E3 & _ & E5 & _).
        -- vm_compute. discriminate.
        -- split; [exact E1 | split; [exact E3 | exact E5]].
    + destruct (B (-3)) as (E1 & E2 & _).
      * lia.
      * intros [k Hk]. change (-3 = k * 5) in Hk. lia.
      * split; [exact E1 | exact E2].
Defined.

(** C10 as stated fails in its last part: the amount -3 is not positive,
    and the redemption is refused, with the increment message. *)
Lemma redeem_refuses_negative_non_multiple :
  let w := at_counter alice "" in
  let w' := run (handleRedeem Redeem5 (num (-3))) w in
  currentCustomer (page w) = Some alice
  /\ error (page w') = InvalidIncrement Redeem5
  /\ store w' = store w
  /\ Customer.total_points alice = num 250
  /\ has_row (store w') (Customer.id alice) alice.
Proof. vm_compute. repeat split. Qed.

(** ** Accrual *)

Lemma add_NaN_r (x : number) : add x NaN = NaN.
Proof. destruct x; reflexivity. Qed.

(** An accrual of the integer [d > 0] on the balance [b]: what is computed
    and that the columns take it. *)
Lemma accrual_values (c : Customer.t) (b d : Z) (x : number) :
  Customer.total_points c = num b ->
  Math_floor x = num d ->
  0 <= b -> 0 < d -> b + d <= int4_max ->
  le (Math_floor x) (num 0) = false
  /\ add (Customer.total_points c) (Math_floor x) = num (b + d)
  /\ as_integer (add (Customer.total_points c) (Math_floor x)) = inl (b + d)
  /\ as_integer (Math_floor x) = inl d.
Proof.
  intros Hb Hx Hb0 Hd Hmax. unfold int4_max in Hmax.
  rewrite Hx, Hb, le_num, add_num by lia.
  refine (conj _ (conj eq_refl (conj _ _))).
  - apply Z.leb_gt. exact Hd.
  - apply as_integer_num. unfold int4, int4_min, int4_max. lia.
  - apply as_integer_num. unfold int4, int4_min, int4_max. lia.
Qed.

(** An accrual of the integer [d > 0] that takes the balance [b] beyond
    the column: the update is refused and nothing is written. *)
Lemma accrual_refused (vt : variant) (w : World) (c : Customer.t)
    (b d : Z) :
  currentCustomer (page w) = Some c ->
  Customer.total_points c = num b ->
  Math_floor (Number (purchaseAmount (page w))) = num d ->
  0 < d ->
  0 <= b <= int4_max ->
  int4_max < b + d ->
  let w' := run (handleAddPoints vt) w in
  error (page w') = FailedToAddPoints
  /\ customers_table (store w') = customers_table (store w)
  /\ transactions_table (store w') = transactions_table (store w)
  /\ currentCustomer (page w') = Some c.
Proof.
  intros Hcur Hb F Hd Hb4 Hmax w'.
  assert (G : le (Math_floor (Number (purchaseAmount (page w)))) (num 0)
              = false) by (rewrite F, le_num; apply Z.leb_gt; exact Hd).
  destruct (accrual_beyond_column b d Hb4 Hmax) as [code Hcode].
  rewrite <- Hb, <- F in Hcode.
  destruct (handleAddPoints_refused vt [] w c code Hcur G Hcode eq_refl)
    as (S1 & S2 & _ & S4 & S5 & _).
  subst w'. unfold run. repeat split; assumption.
Qed.

(** C3, as the code and the store have it: for a customer whose row the
    store holds and whose balance [b] is an integer of the column that is
    not negative, an accrual of a positive integer [d] succeeds when
    [b + d] is an integer of the column: the balance becomes [b + d] and
    exactly one transaction of type [add] is appended, with amount [d]
    and point change [+d].  When [b + d] is beyond the column the store
    refuses the update: the accrual fails, the balance is unchanged and
    no transaction is appended. *)
Theorem accrue_adds_points (vt : variant) (w : World)
    (c row : Customer.t) (b d : Z) :
  currentCustomer (page w) = Some c ->
  has_row (store w) (Customer.id c) row ->
  Customer.total_points c = num b ->
  Number (purchaseAmount (page w)) = num d ->
  0 < d ->
  0 <= b <= int4_max ->
  let w' := run (handleAddPoints vt) w in
  (b + d <= int4_max ->
   error (page w') = ""%string
   /\ currentCustomer (page w')
      = Some (set_points (Customer.id c) (num (b + d)) row)
   /\ has_row (store w') (Customer.id c)
              (set_points (Customer.id c) (num (b + d)) row)
   /\ Customer.total_points (set_points (Customer.id c) (num (b + d)) row)
      = num (b + d)
   /\ transactions_table (store w')
      = transactions_table (store w)
        ++ [Transaction.mk (fresh_id (store w)) (Customer.id c) "add"
                           (num d) (num d) (clock (store w))])
  /\ (int4_max < b + d ->
      error (page w') = FailedToAddPoints
      /\ customers_table (store w') = customers_table (store w)
      /\ transactions_table (store w') = transactions_table (store w)
      /\ currentCustomer (page w') = Some c).
Proof.
  intros Hcur Hrow Hb Hd Hpos Hb4 w'.
  assert (F : Math_floor (Number (purchaseAmount (page w))) = num d)
    by (rewrite Hd; apply Math_floor_num).
  split.
  - intros Hmax.
    destruct (accrual_values c b d _ Hb F (proj1 Hb4) Hpos Hmax)
      as (V1 & _ & V3 & V4).
    destruct (handleAddPoints_proceeds vt [] w c row (b + d) d Hcur V1 Hrow
                V3 V4 eq_refl eq_refl)
      as (T1 & T2 & T3 & T4 & _).
    destruct (has_row_updated _ _ _ _ _ Hrow T1) as [U1 U2].
    subst w'. unfold run. repeat split; assumption.
  - intros Hmax. subst w'.
    apply (accrual_refused vt w c b d Hcur Hb F Hpos Hb4 Hmax).
Qed.

Lemma accrue_adds_points_witness :
  let w' := run (handleAddPoints Redeem5) (at_counter alice "40") in
  error (page w') = ""%string
  /\ currentCustomer (page w')
     = Some (set_points (Customer.id alice) (num (250 + 40)) alice)
  /\ has_row (store w') (Customer.id alice)
             (set_points (Customer.id alice) (num (250 + 40)) alice)
  /\ Customer.total_points
       (set_points (Customer.id alice) (num (250 + 40)) alice)
     = num (250 + 40)
  /\ transactions_table (store w')
     = transactions_table shop
       ++ [Transaction.mk (fresh_id shop) (Customer.id alice) "add"
                          (num 40) (num 40) (clock shop)].
Proof.
  pose proof (accrue_adds_points Redeem5 (at_counter alice "40") alice alice
                                 250 40) as H.
  apply H.
  - reflexivity.
  - reflexivity.
  - reflexivity.
  - apply number_eqb_eq. vm_compute. reflexivity.
  - lia.
  - split; vm_compute; discriminate.
  - vm_compute. discriminate.
Defined.

(** C3 as stated fails on a positive integer that takes the balance
    beyond the column: the field hands over 3000000000, the handler adds
    it to the balance 250 and asks the store for the balance 3000000250,
    the store refuses it, the accrual fails and nothing is recorded. *)
Lemma accrue_refused_beyond_column :
  let w := at_counter alice "3000000000" in
  let w' := run (handleAddPoints Redeem5) w in
  currentCustomer (page w) = Some alice
  /\ has_row (store w) (Customer.id alice) alice
  /\ Customer.total_points alice = num 250
  /\ purchase_field_valid (purchaseAmount (page w)) = true
  /\ Number (purchaseAmount (page w)) = num 3000000000
  /\ run (submitPurchase Redeem5) w = w'
  /\ error (page w') = FailedToAddPoints
  /\ customers_table (store w') = customers_table (store w)
  /\ transactions_table (store w') = transactions_table (store w)
  /\ has_row (store w') (Customer.id alice) alice.
Proof.
  intros w w'.
  assert (N : Number (purchaseAmount (page w)) = num 3000000000)
    by (apply number_eqb_eq; vm_compute; reflexivity).
  assert (F : Math_floor (Number (purchaseAmount (page w))) = num 3000000000)
    by (rewrite N; apply Math_floor_num).
  assert (V : purchase_field_valid (purchaseAmount (page w)) = true)
    by (vm_compute; reflexivity).
  destruct (accrual_refused Redeem5 w alice 250 3000000000 eq_refl eq_refl F)
    as (S1 & S2 & S3 & _).
  - lia.
  - split; vm_compute; discriminate.
  - vm_compute. reflexivity.
  - refine (conj eq_refl (conj eq_refl (conj eq_refl (conj V (conj N
              (conj _ (conj S1 (conj S2 (conj S3 _))))))))).
    + apply submitPurchase_fires; [reflexivity | exact V].
    + change (customers_table (store w') = customers_table (store w)) in S2.
      unfold has_row. rewrite S2. reflexivity.
Qed.

(** ** What the field of the purchase amount hands over *)

Lemma digit_in_base_10 (c : ascii) (v : Z) :
  digit_in_base 10 c = Some v -> is_digit c = true.
Proof.
  unfold digit_in_base, is_digit.
  destruct (Z.leb_spec 48 (char_code c)), (Z.leb_spec (char_code c) 57);
    cbn [andb]; try reflexivity;
    destruct (Z.leb_spec 97 (char_code c)), (Z.leb_spec (char_code c) 102),
      (Z.leb_spec 65 (char_code c)), (Z.leb_spec (char_code c) 70);
    cbn [andb];
    match goal with
    | |- context [Z.ltb ?x ?y] => destruct (Z.ltb_spec x y)
    end; try discriminate; lia.
Qed.

(** The digits that [take_digits] reads are a prefix of the input, and
    their number and the rest do not depend on the value read before. *)
Lemma take_digits_split (s : list ascii) :
  forall acc n v k rest,
    take_digits 10 s acc n = (v, k, rest) ->
    exists pre,
      s = pre ++ rest /\ forallb is_digit pre = true
      /\ k = n + Z.of_nat (List.length pre).
Proof.
  induction s as [|c s IH]; intros acc n v k rest H; cbn [take_digits] in H.
  - injection H as <- <- <-. exists []. repeat split. cbn. lia.
  - destruct (digit_in_base 10 c) as [d|] eqn:D.
    + destruct (IH _ _ _ _ _ H) as (pre & -> & F & ->).
      exists (c :: pre). cbn [app forallb List.length].
      rewrite (digit_in_base_10 c d D), F.
      repeat split. lia.
    + injection H as <- <- <-. exists []. repeat split. cbn. lia.
Qed.

Lemma take_digits_any_acc (s : list ascii) :
  forall acc acc' n v k rest,
    take_digits 10 s acc n = (v, k, rest) ->
    exists v', take_digits 10 s acc' n = (v', k, rest).
Proof.
  induction s as [|c s IH]; intros acc acc' n v k rest H;
    cbn [take_digits] in *.
  - injection H as <- <- <-. eexists. reflexivity.
  - destruct (digit_in_base 10 c) as [d|].
    + eapply IH, H.
    + injection H as <- <- <-. eexists. reflexivity.
Qed.

Lemma is_digit_field_char (c : ascii) : is_digit c = true -> field_char c = true.
Proof. intros H. unfold field_char. rewrite H. reflexivity. Qed.

Lemma digits_field_chars (l : list ascii) :
  forallb is_digit l = true -> forallb field_char l = true.
Proof.
  intros H. apply forallb_forall. intros c Hc.
  apply is_digit_field_char. rewrite forallb_forall in H. apply H, Hc.
Qed.

Lemma parse_exponent_field_chars (r : list ascii) (e : Z) :
  parse_exponent r = Some e -> forallb field_char r = true.
Proof.
  unfold parse_exponent. destruct r as [|c r]; [reflexivity |].
  destruct ((char_code c =? 101) || (char_code c =? 69)) eqn:E;
    [| discriminate].
  assert (Fc : field_char c = true).
  { unfold field_char. apply orb_true_iff in E.
    destruct E as [-> | ->]; rewrite ?orb_true_r; reflexivity. }
  cbn [forallb]. rewrite Fc. cbn [andb].
  assert (G : forall digits,
             match take_digits 10 digits 0 0 with
             | (_, _, []) => True
             | _ => False
             end -> forallb field_char digits = true).
  { intros digits. destruct (take_digits 10 digits 0 0) as [[v k] rest] eqn:T.
    destruct rest; [| tauto]. intros _.
    destruct (take_digits_split _ _ _ _ _ _ T) as (pre & -> & F & _).
    rewrite app_nil_r. apply digits_field_chars, F. }
  destruct r as [|s0 r'].
  - reflexivity.
  - destruct (char_code s0 =? 43) eqn:P.
    + intros H. cbn [forallb].
      assert (Fs : field_char s0 = true)
        by (unfold field_char; rewrite P, ?orb_true_r; reflexivity).
      rewrite Fs. apply G.
      destruct (take_digits 10 r' 0 0) as [[v k] [|x rest]];
        [exact I | discriminate H].
    + destruct (char_code s0 =? 45) eqn:M.
      * intros H. cbn [forallb].
        assert (Fs : field_char s0 = true)
          by (unfold field_char; rewrite M, ?orb_true_r; reflexivity).
        rewrite Fs. apply G.
        destruct (take_digits 10 r' 0 0) as [[v k] [|x rest]];
          [exact I | discriminate H].
      * intros H. apply G.
        destruct (take_digits 10 (s0 :: r') 0 0) as [[v k] [|x rest]];
          [exact I | discriminate H].
Qed.

Lemma field_char_code (c : ascii) :
  field_char c = true ->
  48 <= char_code c <= 57 \/ char_code c = 45 \/ char_code c = 46
  \/ char_code c = 101 \/ char_code c = 69 \/ char_code c = 43.
Proof.
  unfold field_char, is_digit.
  rewrite !orb_true_iff, andb_true_iff, !Z.leb_le, !Z.eqb_eq. tauto.
Qed.

Lemma field_char_not_white_space (c : ascii) :
  field_char c = true -> is_white_space c = false.
Proof.
  intros H. apply field_char_code in H. unfold is_white_space.
  destruct (Z.leb_spec 9 (char_code c)), (Z.leb_spec (char_code c) 13),
    (Z.eqb_spec (char_code c) 32), (Z.eqb_spec (char_code c) 160);
    cbn; try reflexivity; lia.
Qed.

Lemma trimStart_field_chars (l : list ascii) :
  forallb field_char l = true -> trimStart l = l.
Proof.
  destruct l as [|c l]; [reflexivity |]. cbn [forallb trimStart].
  intros H. apply andb_true_iff in H.
  rewrite (field_char_not_white_space c) by apply H. reflexivity.
Qed.

Lemma forallb_reversed {A} (p : A -> bool) (l : list A) :
  forallb p l = true -> forallb p (rev l) = true.
Proof.
  intros H. apply forallb_forall. intros x Hx. apply in_rev in Hx.
  rewrite forallb_forall in H. apply H, Hx.
Qed.

Lemma trim_field_chars (l : list ascii) :
  forallb field_char l = true -> trimEnd (trimStart l) = l.
Proof.
  intros H. unfold trimEnd. rewrite (trimStart_field_chars l H).
  rewrite trimStart_field_chars by (apply forallb_reversed, H).
  apply rev_involutive.
Qed.

Lemma round64_not_NaN (q : Q) : round64 q <> NaN.
Proof.
  unfold round64.
  destruct (q ?= 0)%Q; [discriminate | |];
    destruct (round_positive _); discriminate.
Qed.

Lemma neg_not_NaN (x : number) : x <> NaN -> neg x <> NaN.
Proof. destruct x; cbn; congruence || discriminate. Qed.

(** The digits and the exponent that make a valid floating-point number
    are a literal that [Number] reads. *)
Lemma unsigned_literal_is_read (s : list ascii) :
  (let '(_, ni, r1) := take_digits 10 s 0 0 in
   let exponent_ok := fun r =>
     match parse_exponent r with Some _ => true | None => false end in
   match r1 with
   | c :: r =>
       if char_code c =? 46 then
         let '(_, nf, r2) := take_digits 10 r 0 0 in
         (0 <? nf) && exponent_ok r2
       else (0 <? ni) && exponent_ok r1
   | [] => 0 <? ni
   end) = true ->
  forallb field_char s = true
  /\ exists v, parse_unsigned_decimal s = Some v /\ v <> NaN.
Proof.
  unfold parse_unsigned_decimal.
  destruct (take_digits 10 s 0 0) as [[ip ni] r1] eqn:T1.
  destruct (take_digits_split _ _ _ _ _ _ T1) as (pre1 & Es & F1 & Eni).
  assert (N0 : 0 <= ni) by lia.
  intros H.
  assert (A : forallb field_char s = true
              /\ exists v,
                   (let '(fp, nf, r2) :=
                      match r1 with
                      | c :: r =>
                          if char_code c =? 46 then take_digits 10 r ip 0
                          else (ip, 0, r1)
                      | [] => (ip, 0, r1)
                      end in
                    if 0 <? ni + nf then
                      match parse_exponent r2 with
                      | Some e =>
                          Some (round64
                                  (this (Q2Qc (inject_Z fp)
                                         * pow10 (e - nf))%Qc))
                      | None => None
                      end
                    else None) = Some v /\ v <> NaN).
  { rewrite Es, forallb_app, (digits_field_chars _ F1). cbn [andb].
    destruct r1 as [|c r].
    - split; [reflexivity |].
      rewrite Z.add_0_r, H. cbn [parse_exponent].
      eexists. split; [reflexivity | apply round64_not_NaN].
    - destruct (char_code c =? 46) eqn:Dot.
      + destruct (take_digits 10 r 0 0) as [[fp0 nf] r2] eqn:T2.
        destruct (take_digits_any_acc _ _ ip _ _ _ _ T2) as (fp & T2').
        rewrite T2'.
        destruct (take_digits_split _ _ _ _ _ _ T2) as (pre2 & Er & F2 & Enf).
        apply andb_true_iff in H. destruct H as [Hnf Hexp].
        apply Z.ltb_lt in Hnf.
        destruct (parse_exponent r2) as [e|] eqn:Pe; [| discriminate Hexp].
        split.
        * cbn [forallb].
          assert (Fc : field_char c = true)
            by (unfold field_char; rewrite Dot, ?orb_true_r; reflexivity).
          rewrite Fc, Er, forallb_app, (digits_field_chars _ F2),
            (parse_exponent_field_chars _ _ Pe). reflexivity.
        * destruct (Z.ltb_spec 0 (ni + nf)); [| lia].
          eexists. split; [reflexivity | apply round64_not_NaN].
      + apply andb_true_iff in H. destruct H as [Hni Hexp].
        destruct (parse_exponent (c :: r)) as [e|] eqn:Pe;
          [| discriminate Hexp].
        split.
        * apply (parse_exponent_field_chars _ _ Pe).
        * rewrite Z.add_0_r, Hni.
          eexists. split; [reflexivity | apply round64_not_NaN]. }
  destruct A as [A1 (v & A2 & A3)]. split; [exact A1 |].
  destruct (list_eq_dec ascii_dec s (list_ascii_of_string "Infinity")).
  - exists PInf. split; [reflexivity | discriminate].
  - exists v. split; assumption.
Qed.

Lemma field_chars_no_prefix (l : list ascii) :
  forallb field_char l = true -> parse_non_decimal l = None.
Proof.
  unfold parse_non_decimal. destruct l as [|z [|p r]]; try reflexivity.
  cbn [forallb]. intros H.
  apply andb_true_iff in H. destruct H as [_ H].
  apply andb_true_iff in H. destruct H as [Hp _].
  destruct (char_code z =? 48); [| reflexivity].
  assert (B : (if (char_code p =? 120) || (char_code p =? 88) then 16
               else if (char_code p =? 111) || (char_code p =? 79) then 8
               else if (char_code p =? 98) || (char_code p =? 66) then 2
               else 0) = 0).
  { apply field_char_code in Hp.
    destruct (Z.eqb_spec (char_code p) 120), (Z.eqb_spec (char_code p) 88),
      (Z.eqb_spec (char_code p) 111), (Z.eqb_spec (char_code p) 79),
      (Z.eqb_spec (char_code p) 98), (Z.eqb_spec (char_code p) 66);
      cbn [orb]; try reflexivity; lia. }
  cbv zeta. rewrite B. reflexivity.
Qed.

(** A valid floating-point number converts to a number, never to
    [NaN]. *)
Lemma valid_number_converts (s : string) :
  valid_floating_point_number s = true -> Number s <> NaN.
Proof.
  unfold valid_floating_point_number, Number.
  set (l := list_ascii_of_string s).
  destruct l as [|c r] eqn:El.
  - cbn. discriminate.
  - destruct (char_code c =? 45) eqn:Minus.
    + intros H. destruct (unsigned_literal_is_read r H) as (F & v & P & Nv).
      assert (Fl : forallb field_char (c :: r) = true).
      { cbn [forallb]. rewrite F.
        unfold field_char. rewrite Minus, ?orb_true_r. reflexivity. }
      rewrite (trim_field_chars _ Fl).
      unfold parse_numeric. rewrite (field_chars_no_prefix _ Fl).
      assert (Plus : (char_code c =? 43) = false).
      { apply Z.eqb_eq in Minus. apply Z.eqb_neq. lia. }
      rewrite Plus, Minus, P. cbn [option_map]. apply neg_not_NaN, Nv.
    + intros H. destruct (unsigned_literal_is_read (c :: r) H)
        as (F & v & P & Nv).
      rewrite (trim_field_chars _ F).
      unfold parse_numeric. rewrite (field_chars_no_prefix _ F).
      destruct (char_code c =? 43) eqn:Plus.
      * exfalso. clear P Nv.
        assert (D : digit_in_base 10 c = None).
        { destruct (digit_in_base 10 c) as [d|] eqn:D; [| reflexivity].
          apply digit_in_base_10 in D. unfold is_digit in D.
          apply Z.eqb_eq in Plus. rewrite Plus in D. discriminate D. }
        cbn [take_digits] in H. rewrite D in H.
        assert (Dot : (char_code c =? 46) = false).
        { apply Z.eqb_eq in Plus. apply Z.eqb_neq. lia. }
        rewrite Dot in H. discriminate H.
      * rewrite Minus, P. exact Nv.
Qed.

(** Whatever text is in the field, the value that [onChange] puts into
    [purchaseAmount] converts to a number. *)
Lemma field_value_converts (text : string) :
  Number (number_field_value text) <> NaN.
Proof.
  unfold number_field_value.
  destruct (valid_floating_point_number text) eqn:V.
  - apply valid_number_converts, V.
  - vm_compute. discriminate.
Qed.

(** ** The purchase amount: the form, the guard and the store *)

(** C2, as the code has it.  The handler rounds the purchase amount down
    before it checks it: a value is refused with the message for an
    invalid amount, the store untouched, exactly when its value rounded
    down is at most zero.  A value whose rounding down [d] is positive
    passes the check, whether or not it is an integer: it is credited as
    [d] when the new balance is an integer of the column, and when it is
    not the store refuses the update and the accrual fails with its own
    message, nothing written.  On the page the form comes first: a value
    of the field that is negative or not an integer stops the submission,
    nothing runs and nothing changes; any other value is handed to the
    handler. *)
Theorem accrue_floors_then_checks (vt : variant) (w : World)
    (c : Customer.t) (q : Qc) :
  currentCustomer (page w) = Some c ->
  Number (purchaseAmount (page w)) = Fin q ->
  let d := Qfloor (this q) in
  let w' := run (handleAddPoints vt) w in
  (d <= 0 ->
   error (page w') = InvalidAmount
   /\ store w' = store w
   /\ currentCustomer (page w') = Some c)
  /\ (0 < d ->
      forall row b,
        has_row (store w) (Customer.id c) row ->
        Customer.total_points c = num b ->
        0 <= b <= int4_max ->
        (b + d <= int4_max ->
         error (page w') = ""%string
         /\ has_row (store w') (Customer.id c)
                    (set_points (Customer.id c) (num (b + d)) row)
         /\ Customer.total_points
              (set_points (Customer.id c) (num (b + d)) row)
            = num (b + d)
         /\ transactions_table (store w')
            = transactions_table (store w)
              ++ [Transaction.mk (fresh_id (store w)) (Customer.id c) "add"
                                 (num d) (num d) (clock (store w))])
        /\ (int4_max < b + d ->
            error (page w') = FailedToAddPoints
            /\ error (page w') <> InvalidAmount
            /\ customers_table (store w') = customers_table (store w)
            /\ transactions_table (store w') = transactions_table (store w)))
  /\ (valid_floating_point_number (purchaseAmount (page w)) = true ->
      (purchase_field_valid (purchaseAmount (page w)) = false
       <-> Qc_ltb q Qc_zero = true \/ q <> Zq d))
  /\ (purchase_field_valid (purchaseAmount (page w)) = false ->
      run (submitPurchase vt) w = w)
  /\ (loading (page w) = false ->
      purchase_field_valid (purchaseAmount (page w)) = true ->
      run (submitPurchase vt) w = w').
Proof.
  intros Hcur Hq d w'.
  assert (F : Math_floor (Number (purchaseAmount (page w))) = num d)
    by (rewrite Hq; reflexivity).
  refine (conj _ (conj _ (conj _ (conj _ _)))).
  - intros Hd.
    destruct (handleAddPoints_rejects vt [] w c Hcur) as (S1 & S2 & S3 & _).
    + rewrite F, le_num. apply Z.leb_le. exact Hd.
    + subst w'. unfold run. repeat split; assumption.
  - intros Hd row b Hrow Hb Hb4. split.
    + intros Hmax.
      destruct (accrual_values c b d _ Hb F (proj1 Hb4) Hd Hmax)
        as (V1 & _ & V3 & V4).
      destruct (handleAddPoints_proceeds vt [] w c row (b + d) d Hcur V1 Hrow
                  V3 V4 eq_refl eq_refl)
        as (T1 & T2 & T3 & T4 & _).
      destruct (has_row_updated _ _ _ _ _ Hrow T1) as [U1 U2].
      subst w'. unfold run. repeat split; assumption.
    + intros Hmax.
      destruct (accrual_refused vt w c b d Hcur Hb F Hd Hb4 Hmax)
        as (S1 & S2 & S3 & _).
      subst w'. refine (conj S1 (conj _ (conj S2 S3))).
      rewrite S1. discriminate.
  - intros Hv. unfold purchase_field_valid, field_number.
    rewrite Hv, Hq. fold d.
    change (Qc_ltb q Qc_zero) with (negb (Qc_leb Qc_zero q)).
    destruct (Qc_leb Qc_zero q); cbn [andb negb].
    + destruct (Qc_eqb q (Zq d)) eqn:E.
      * apply Qc_eqb_eq in E. split; [discriminate |].
        intros [X | X]; [discriminate | contradiction].
      * split; [| reflexivity]. intros _. right. intros X.
        apply Qc_eqb_eq in X. congruence.
    + split; [| reflexivity]. intros _. left. reflexivity.
  - apply submitPurchase_stopped.
  - apply submitPurchase_fires.
Qed.

Lemma accrue_floors_then_checks_witness :
  (let w' := run (handleAddPoints Redeem5) (at_counter alice "0") in
   error (page w') = InvalidAmount /\ store w' = shop)
  /\ (let w' := run (handleAddPoints Redeem5) (at_counter alice "2.5") in
      error (page w') = ""%string
      /\ has_row (store w') (Customer.id alice)
                 (set_points (Customer.id alice) (num (250 + 2)) alice))
  /\ run (submitPurchase Redeem5) (at_counter alice "2.5")
     = at_counter alice "2.5".
Proof.
  refine (conj _ (conj _ _)).
  - destruct (accrue_floors_then_checks Redeem5 (at_counter alice "0")
                alice (Zq 0) eq_refl) as [A _].
    + apply number_eqb_eq. vm_compute. reflexivity.
    + destruct A as (E1 & E2 & _).
      * vm_compute. discriminate.
      * split; [exact E1 | exact E2].
  - destruct (accrue_floors_then_checks Redeem5 (at_counter alice "2.5")
                alice (Q2Qc (5 # 2)) eq_refl) as (_ & B & _).
    + apply number_eqb_eq. vm_compute. reflexivity.
    + destruct (B eq_refl alice 250 eq_refl eq_refl) as [B1 _].
      * split; vm_compute; discriminate.
      * destruct B1 as (E1 & E2 & _).
        -- vm_compute. discriminate.
        -- split; [exact E1 | exact E2].
  - destruct (accrue_floors_then_checks Redeem5 (at_counter alice "2.5")
                alice (Q2Qc (5 # 2)) eq_refl) as (_ & _ & _ & D & _).
    + apply number_eqb_eq. vm_compute. reflexivity.
    + apply D. vm_compute. reflexivity.
Defined.

(** C2 as stated fails on the value 2.5, which is positive and not an
    integer.  The field holds it as typed and the form stops its
    submission: the handler does not run and the message for an invalid
    amount is not set.  Handed the value, the handler does not refuse it
    either: it credits 2 points. *)
Lemma accrue_accepts_fraction :
  let w := at_counter alice "2.5" in
  let w' := run (handleAddPoints Redeem5) w in
  number_field_value "2.5" = "2.5"%string
  /\ Number (purchaseAmount (page w)) = Fin (Q2Qc (5 # 2))
  /\ (forall z : Z, Number (purchaseAmount (page w)) <> num z)
  /\ purchase_field_valid (purchaseAmount (page w)) = false
  /\ run (submitPurchase Redeem5) w = w
  /\ error (page (run (submitPurchase Redeem5) w)) <> InvalidAmount
  /\ error (page w') <> InvalidAmount
  /\ has_row (store w) (Customer.id alice) alice
  /\ Customer.total_points alice = num 250
  /\ has_row (store w') (Customer.id alice)
             (set_points (Customer.id alice) (num 252) alice)
  /\ Customer.total_points (set_points (Customer.id alice) (num 252) alice)
     = num 252
  /\ customers_table (store w') <> customers_table (store w).
Proof.
  intros w w'.
  assert (N : Number (purchaseAmount (page w)) = Fin (Q2Qc (5 # 2)))
    by (apply number_eqb_eq; vm_compute; reflexivity).
  assert (Fl : Math_floor (Number (purchaseAmount (page w))) = num 2)
    by (rewrite N; reflexivity).
  assert (V : purchase_field_valid (purchaseAmount (page w)) = false)
    by (vm_compute; reflexivity).
  pose proof (submitPurchase_stopped Redeem5 w V) as St.
  destruct (accrual_values alice 250 2 _ eq_refl Fl) as (V1 & _ & V3 & V4);
    [lia | lia | vm_compute; discriminate |].
  destruct (handleAddPoints_proceeds Redeem5 [] w alice alice 252 2 eq_refl
              V1 eq_refl V3 V4 eq_refl eq_refl)
    as (T1 & T2 & T3 & T4 & _).
  assert (R0 : has_row (store w) (Customer.id alice) alice) by reflexivity.
  destruct (has_row_updated _ _ _ _ _ R0 T1) as [U1 U2].
  refine (conj eq_refl (conj N (conj _ (conj V (conj St (conj _ (conj _
            (conj R0 (conj eq_refl (conj U1 (conj U2 _))))))))))).
  - intros z E. rewrite N in E.
    apply (f_equal (fun x => match x with Fin a => this a | _ => 0%Q end)) in E.
    cbv beta iota delta [num] in E. rewrite this_Zq_eq in E.
    vm_compute in E. discriminate E.
  - rewrite St. vm_compute. discriminate.
  - change (error (page (run_during [] (handleAddPoints Redeem5) w))
            <> InvalidAmount).
    rewrite T4. discriminate.
  - intros E.
    change (customers_table (store (run_during [] (handleAddPoints Redeem5) w))
            = customers_table (store w)) in E.
    unfold has_row in U1. rewrite E in U1.
    apply (f_equal (map Customer.total_points)) in U1.
    vm_compute in U1. discriminate U1.
Qed.

(** C9, as the code has it: an input whose conversion is [NaN], such as
    the string [abc], is not caught by the guard [amount <= 0]: the
    accrual goes on and asks the store to set the balance to [NaN].  The
    store does not take it: no balance changes, no transaction is
    recorded, and the page ends with the message of a failed accrual, not
    with the message for an invalid amount.  The field of the page does
    not hand over such a string: whatever the text in it, its value
    converts to a number, and the text [abc] gives the empty value, which
    the guard refuses. *)
Theorem accrue_nan_passes_guard (vt : variant) (w : World)
    (c : Customer.t) :
  currentCustomer (page w) = Some c ->
  Number (purchaseAmount (page w)) = NaN ->
  let w' := run (handleAddPoints vt) w in
  Number "abc" = NaN
  /\ le (Math_floor (Number (purchaseAmount (page w)))) (num 0) = false
  /\ requests (store w')
     = requests (store w) ++ [UpdateTotalPoints (Customer.id c) NaN]
  /\ customers_table (store w') = customers_table (store w)
  /\ transactions_table (store w') = transactions_table (store w)
  /\ currentCustomer (page w') = Some c
  /\ error (page w') = FailedToAddPoints
  /\ error (page w') <> InvalidAmount
  /\ (forall text : string, Number (number_field_value text) <> NaN)
  /\ number_field_value "abc" = ""%string
  /\ le (Math_floor (Number (number_field_value "abc"))) (num 0) = true.
Proof.
  intros Hcur Hn w'.
  assert (G : le (Math_floor (Number (purchaseAmount (page w)))) (num 0)
              = false) by (rewrite Hn; reflexivity).
  destruct (handleAddPoints_refused vt [] w c not_null_violation Hcur G)
    as (T1 & T2 & T3 & T4 & T5 & _).
  - rewrite Hn. cbn [Math_floor]. rewrite add_NaN_r. reflexivity.
  - reflexivity.
  - rewrite Hn in T3. cbn [Math_floor] in T3. rewrite add_NaN_r in T3.
    subst w'. unfold run.
    refine (conj _ (conj G (conj T3 (conj T1 (conj T2 (conj T5 (conj T4
              (conj _ (conj field_value_converts (conj _ _)))))))))).
    + vm_compute. reflexivity.
    + rewrite T4. discriminate.
    + reflexivity.
    + vm_compute. reflexivity.
Qed.

Lemma accrue_nan_passes_guard_witness :
  let w' := run (handleAddPoints Redeem5) (at_counter alice "abc") in
  requests (store w') = [UpdateTotalPoints (Customer.id alice) NaN]
  /\ customers_table (store w') = customers_table shop
  /\ error (page w') = FailedToAddPoints.
Proof.
  destruct (accrue_nan_passes_guard Redeem5 (at_counter alice "abc") alice)
    as (_ & _ & E3 & E4 & _ & _ & E7 & _).
  - reflexivity.
  - vm_compute. reflexivity.
  - split; [exact E3 | split; [exact E4 | exact E7]].
Defined.

(** C9 as stated fails in its last part: after the accrual of [abc] no
    row of the store holds [NaN]; the balance of the customer is still
    250. *)
Lemma accrue_nan_writes_no_balance :
  let w := at_counter alice "abc" in
  let w' := run (handleAddPoints Redeem5) w in
  Number (purchaseAmount (page w)) = NaN
  /\ has_row (store w') (Customer.id alice) alice
  /\ Customer.total_points alice = num 250
  /\ Forall (fun row => Customer.total_points row <> NaN)
            (customers_table (store w'))
  /\ transactions_table (store w') = transactions_table (store w).
Proof.
  intros w w'.
  assert (N : Number (purchaseAmount (page w)) = NaN)
    by (vm_compute; reflexivity).
  assert (G : le (Math_floor (Number (purchaseAmount (page w)))) (num 0)
              = false) by (rewrite N; reflexivity).
  destruct (handleAddPoints_refused Redeem5 [] w alice not_null_violation
              eq_refl G)
    as (T1 & T2 & _).
  - rewrite N. reflexivity.
  - reflexivity.
  - subst w'. unfold run, has_row. rewrite T1, T2.
    refine (conj N (conj eq_refl (conj eq_refl (conj _ eq_refl)))).
    repeat constructor; discriminate.
Qed.

(** ** Pagination *)

(** C5: with a positive page size [p] and [n] transactions loaded, the
    page count is the ceiling of [n / p], that is the integer [k] with
    [(k - 1) * p < n <= k * p], and the count shown is [k] but at least 1,
    also when there is no transaction at all; with no transaction, page 1
    and page size 10, the page slice is empty and the count shown is 1.
    An array has fewer than 2^32 elements, and the page size is an
    integer that a double holds exactly. *)
Theorem paginate_total_pages (st : State) (p : Z) :
  historyPageSize st = num p ->
  0 < p ->
  p <= 2 ^ 53 ->
  let n := Z.of_nat (List.length (transactions st)) in
  n < 2 ^ 32 ->
  (exists k : Z,
      totalPages st = num k
      /\ (k - 1) * p < n <= k * p
      /\ displayedTotalPages st = num (Z.max 1 k))
  /\ (n = 0 -> displayedTotalPages st = num 1)
  /\ paginatedTransactions (serving alice "") = []
  /\ displayedTotalPages (serving alice "") = num 1.
Proof.
  intros Hp Hpos Hpmax n Hn.
  destruct (ceil_div_num n p) as (k & Hk & Hlo & Hhi); [unfold n in *; lia | lia |].
  assert (T : totalPages st = num k)
    by (unfold totalPages; rewrite Hp; exact Hk).
  assert (D : displayedTotalPages st = num (Z.max 1 k)).
  { unfold displayedTotalPages, or_else. rewrite T, truthy_num.
    destruct (Z.eqb_spec k 0) as [->|Hk0]; cbn [negb].
    - reflexivity.
    - f_equal. assert (0 <= n) by (unfold n; lia). nia. }
  refine (conj (ex_intro _ k (conj T (conj (conj Hlo Hhi) D)))
               (conj _ (conj _ _))).
  - intros Hn0. rewrite D. f_equal. nia.
  - vm_compute. reflexivity.
  - apply number_eqb_eq. vm_compute. reflexivity.
Qed.

Lemma paginate_total_pages_witness :
  exists k : Z,
    totalPages (mkState [] "" None false (mkNewCustomer "" "" (num 0)) "" ""
                  false
                  (map (fun i => Transaction.mk "" "" "add" (num i) (num i) i)
                       [1; 2; 3; 4; 5; 6; 7; 8; 9; 10; 11])
                  false (num 1) (num 10) "" "" [] false)
    = num k
    /\ (k - 1) * 10 < 11 <= k * 10.
Proof.
  destruct (paginate_total_pages
              (mkState [] "" None false (mkNewCustomer "" "" (num 0)) "" ""
                 false
                 (map (fun i => Transaction.mk "" "" "add" (num i) (num i) i)
                      [1; 2; 3; 4; 5; 6; 7; 8; 9; 10; 11])
                 false (num 1) (num 10) "" "" [] false)
              10 eq_refl) as [[k (H1 & H2 & _)] _].
  - lia.
  - lia.
  - vm_compute. reflexivity.
  - exists k. split; [exact H1 | exact H2].
Defined.

(** ** Redemption options *)

(** C6: for a balance [b >= 0], an integer of the column, the redemption
    options are the multiples of the increment from the increment up to
    [floor(b / 100) * REDEEM_INCREMENT], ascending, and there is none when
    [b < 100]; with the $5 increment a balance of 250 gives [5, 10] and a
    balance of 90 gives nothing.  The loop ends within
    [floor(b / 100) + 1] tests. *)
Theorem redemption_options (vt : variant) (b : Z) (fuel : nat) :
  0 <= b ->
  b <= int4_max ->
  (Z.to_nat (b / 100) < fuel)%nat ->
  getRedemptionOptions vt fuel (num b)
  = Some (multiples (REDEEM_INCREMENT vt) (Z.to_nat (b / 100)))
  /\ (forall x : number,
         In x (multiples (REDEEM_INCREMENT vt) (Z.to_nat (b / 100)))
         <-> exists k : Z,
               1 <= k <= b / 100 /\ x = num (REDEEM_INCREMENT vt * k))
  /\ (b < 100 -> getRedemptionOptions vt fuel (num b) = Some [])
  /\ getRedemptionOptions Redeem5 3 (num 250) = Some [num 5; num 10]
  /\ getRedemptionOptions Redeem5 1 (num 90) = Some [].
Proof.
  intros Hb Hmax Hfuel.
  assert (Hq : 0 <= b / 100) by (apply Z.div_pos; lia).
  pose proof (getRedemptionOptions_multiples vt b fuel (conj Hb Hmax) Hfuel)
    as G.
  refine (conj G (conj _ (conj _ (conj _ _)))).
  - intros x. unfold multiples. rewrite in_map_iff. split.
    + intros (k & <- & Hk). apply in_seq in Hk.
      exists (Z.of_nat k). split; [lia | reflexivity].
    + intros (k & Hk & ->). exists (Z.to_nat k). split.
      * rewrite Z2Nat.id by lia. reflexivity.
      * apply in_seq. lia.
  - intros Hlt. rewrite G, Z.div_small by lia. reflexivity.
  - rewrite (getRedemptionOptions_multiples Redeem5 250 3)
      by (vm_compute; (split; discriminate) || lia).
    reflexivity.
  - rewrite (getRedemptionOptions_multiples Redeem5 90 1)
      by (vm_compute; (split; discriminate) || lia).
    reflexivity.
Qed.

Lemma redemption_options_witness :
  getRedemptionOptions Redeem10 13 (num 1234)
  = Some (multiples (REDEEM_INCREMENT Redeem10) (Z.to_nat (1234 / 100))).
Proof.
  apply (redemption_options Redeem10 1234 13).
  - lia.
  - vm_compute. discriminate.
  - vm_compute. lia.
Defined.

(** ** Searching *)

Lemma is_digit_decimal (c : ascii) :
  is_digit c = true <-> In c decimal_digits.
Proof.
  split.
  - destruct c as [[] [] [] [] [] [] [] []]; vm_compute; intros H;
      try discriminate H; tauto.
  - intros H. repeat (destruct H as [<- | H]; [reflexivity|]). destruct H.
Qed.

Lemma length_list_ascii (s : string) :
  List.length (list_ascii_of_string s) = String.length s.
Proof. induction s as [|c s IH]; cbn; [reflexivity | rewrite IH; reflexivity]. Qed.

Lemma phone_regex_test_spec (s : string) :
  phone_regex_test s = true <-> seven_or_more_digits s.
Proof.
  unfold phone_regex_test, seven_or_more_digits.
  rewrite andb_true_iff, forallb_forall, Forall_forall, Z.leb_le.
  split; intros [A B]; split; try lia.
  - intros c Hc. apply is_digit_decimal, A, Hc.
  - intros c Hc. apply is_digit_decimal, B, Hc.
Qed.

Lemma search_by_phone (w : World) :
  phone_regex_test (trim (searchPhone (page w))) = true ->
  let input := trim (searchPhone (page w)) in
  let w' := run handleSearch5 w in
  requests (store w') = requests (store w) ++ [SelectCustomerByPhone input]
  /\ match phone_matches input (store w) with
     | [] => currentCustomer (page w') = None
             /\ showAddForm (page w') = true
             /\ phoneNumber (newCustomer (page w')) = input
     | [c] => currentCustomer (page w') = Some c
              /\ showAddForm (page w') = false
              /\ error (page w') = ""%string
     | _ => error (page w') = "Failed to search customer"%string
            /\ currentCustomer (page w') = currentCustomer (page w)
     end.
Proof.
  intros Hp input w'. subst w' input.
  unfold handleSearch5, run, run_during, bind at 1, closure. cbn.
  unfold try_finally, try_catch, bind, await, select_customer_by_phone,
    phone_matches.
  cbn. rewrite Hp. cbn.
  destruct (filter _ (customers_table (store w))) as [|c [|c' l]]; cbn;
    repeat split; reflexivity.
Qed.

Lemma search_by_name (w : World) :
  phone_regex_test (trim (searchPhone (page w))) = false ->
  let input := trim (searchPhone (page w)) in
  let w' := run handleSearch5 w in
  requests (store w') = requests (store w) ++ [SelectCustomersByName input]
  /\ (pattern_ok (list_ascii_of_string input) = true ->
      match name_matches input (store w) with
      | [] => currentCustomer (page w') = None
              /\ showAddForm (page w') = false
              /\ nameResults (page w') = []
      | [c] => currentCustomer (page w') = Some c
               /\ showAddForm (page w') = false
               /\ nameResults (page w') = []
               /\ error (page w') = ""%string
      | rows => nameResults (page w') = rows
                /\ currentCustomer (page w') = None
                /\ showAddForm (page w') = false
                /\ error (page w') = ""%string
      end).
Proof.
  intros Hp input w'. subst w' input.
  unfold handleSearch5, run, run_during, bind at 1, closure. cbn.
  unfold try_finally, try_catch, bind, await, select_customers_by_name,
    name_matches.
  cbn. rewrite Hp. cbn.
  destruct (pattern_ok _); cbn.
  - destruct (filter _ (customers_table (store w))) as [|c [|c' l]]; cbn;
      (split; [reflexivity | intros _; repeat split; reflexivity]).
  - split; [reflexivity | discriminate].
Qed.

(** C8: on the trimmed search term the page asks the store for the
    customer with that exact phone number if and only if the term is made
    of seven or more digits, and otherwise asks for the customers whose
    name matches the term regardless of case; of the rows matched by
    name, none leaves no customer selected and no form to add one, a
    single one is selected, and several are handed over as the list to
    choose from. *)
Theorem search_dispatch (w : World) :
  let input := trim (searchPhone (page w)) in
  let w' := run handleSearch5 w in
  (seven_or_more_digits input
   <-> requests (store w')
       = requests (store w) ++ [SelectCustomerByPhone input])
  /\ (~ seven_or_more_digits input
      <-> requests (store w')
          = requests (store w) ++ [SelectCustomersByName input])
  /\ (seven_or_more_digits input ->
      forall c, phone_matches input (store w) = [c] ->
      Customer.phone_number c = input
      /\ currentCustomer (page w') = Some c)
  /\ (~ seven_or_more_digits input ->
      pattern_ok (list_ascii_of_string input) = true ->
      match name_matches input (store w) with
      | [] => currentCustomer (page w') = None
              /\ showAddForm (page w') = false
              /\ nameResults (page w') = []
      | [c] => currentCustomer (page w') = Some c
               /\ showAddForm (page w') = false
               /\ nameResults (page w') = []
               /\ error (page w') = ""%string
      | rows => nameResults (page w') = rows
                /\ currentCustomer (page w') = None
                /\ showAddForm (page w') = false
                /\ error (page w') = ""%string
      end).
Proof.
  intros input w'.
  destruct (phone_regex_test input) eqn:Hp.
  - pose proof (proj1 (phone_regex_test_spec input) Hp) as Hs.
    destruct (search_by_phone w Hp) as [R M]. fold input in R, M.
    refine (conj _ (conj _ (conj _ _))).
    + split; [intros _; exact R | intros _; exact Hs].
    + split; [intros N; destruct (N Hs) |].
      intros E. unfold w' in E. rewrite R in E.
      apply app_inv_head in E. discriminate E.
    + intros _ c Hc. rewrite Hc in M. split; [| apply M].
      assert (I : In c (phone_matches input (store w)))
        by (rewrite Hc; left; reflexivity).
      apply filter_In in I. apply String.eqb_eq, I.
    + intros N. destruct (N Hs).
  - assert (Hs : ~ seven_or_more_digits input).
    { intros S. apply phone_regex_test_spec in S. congruence. }
    destruct (search_by_name w Hp) as [R M]. fold input in R, M.
    refine (conj _ (conj _ (conj _ _))).
    + split; [intros S; destruct (Hs S) |].
      intros E. unfold w' in E. rewrite R in E.
      apply app_inv_head in E. discriminate E.
    + split; [intros _; exact R | intros _; exact Hs].
    + intros S. destruct (Hs S).
    + intros _ Hok. exact (M Hok).
Qed.

Lemma search_dispatch_witness :
  nameResults (page (run handleSearch5 (searching "  alice ")))
  = [alice; alicia]
  /\ currentCustomer (page (run handleSearch5 (searching "  alice "))) = None.
Proof.
  destruct (search_dispatch (searching "  alice ")) as (_ & _ & _ & H).
  assert (N : ~ seven_or_more_digits (trim (searchPhone (page (searching "  alice "))))).
  { intros [L _]. vm_compute in L. lia. }
  specialize (H N eq_refl).
  split; [exact (proj1 H) | exact (proj1 (proj2 H))].
Defined.

(** ** The history and the end of its date range *)

(** C7 at a host that observes daylight saving time: on 2024-03-10, the
    day the clocks of the east coast go forward, [setDate(getDate() + 1)]
    moves the end date by 23 hours only, so the bound sent to the store is
    2024-03-10 again; with both filters set to that day, a purchase made
    at 15:00 UTC of that day is not in the history.  On a host in UTC the
    bound is 2024-03-11 and the purchase is listed. *)
Theorem history_drops_end_day_when_clocks_change :
  let created := Transaction.created_at march_purchase in
  let w := history_of_alice new_york_2024 "2024-03-10" "2024-03-10" in
  let w' := run (loadTransactions (page w) (Customer.id alice)) w in
  let u := history_of_alice utc_zone "2024-03-10" "2024-03-10" in
  let u' := run (loadTransactions (page u) (Customer.id alice)) u in
  new_Date "2024-03-10" = Some (MakeDate (MakeDay 2024 2 10) 0)
  /\ MakeDate (MakeDay 2024 2 10) 0 <= created
     < MakeDate (MakeDay 2024 2 10) 0 + msPerDay
  /\ Transaction.customer_id march_purchase = Customer.id alice
  /\ end_bound new_york_2024 "2024-03-10" = Some "2024-03-10"%string
  /\ requests (store w')
     = [SelectTransactions (Customer.id alice) (Some "2024-03-10"%string)
                           (Some "2024-03-10"%string)]
  /\ transactions (page w') = []
  /\ end_bound utc_zone "2024-03-10" = Some "2024-03-11"%string
  /\ transactions (page u') = [march_purchase].
Proof.
  vm_compute. repeat split; discriminate.
Qed.

(** ** Adding a customer *)

(** A blank phone number is refused before anything is sent to the
    store. *)
Theorem add_customer_requires_phone (vt : variant) (w : World) :
  trim (phoneNumber (newCustomer (page w))) = ""%string ->
  let w' := run (handleAddCustomer vt) w in
  store w' = store w
  /\ error (page w') = "Phone number is required"%string
  /\ currentCustomer (page w') = currentCustomer (page w)
  /\ customers (page w') = customers (page w)
  /\ showAddForm (page w') = showAddForm (page w).
Proof.
  intros Hb.
  unfold handleAddCustomer, run, run_during, bind at 1, closure. cbn.
  rewrite Hb. destruct vt; cbn; repeat split; reflexivity.
Qed.

Lemma add_customer_requires_phone_witness :
  let w := mkWorld shop
             (mkState [] "" None true (mkNewCustomer "   " "Dora" (num 0))
                      "" "" false [] false (num 1) (num 10) "" "" [] false)
             [] utc_zone in
  store (run (handleAddCustomer Redeem5) w) = shop
  /\ error (page (run (handleAddCustomer Redeem5) w))
     = "Phone number is required"%string.
Proof.
  intros w.
  destruct (add_customer_requires_phone Redeem5 w eq_refl) as (E1 & E2 & _).
  split; [exact E1 | exact E2].
Defined.

(** A phone number that a customer already has is refused: the message
    says so, both tables stay as they were and so does the selection. *)
Theorem add_customer_duplicate_phone (vt : variant) (w : World)
    (c0 : Customer.t) :
  trim (phoneNumber (newCustomer (page w))) <> ""%string ->
  In c0 (customers_table (store w)) ->
  Customer.phone_number c0 = phoneNumber (newCustomer (page w)) ->
  let w' := run (handleAddCustomer vt) w in
  error (page w') = "This phone number already exists"%string
  /\ customers_table (store w') = customers_table (store w)
  /\ transactions_table (store w') = transactions_table (store w)
  /\ currentCustomer (page w') = currentCustomer (page w)
  /\ customers (page w') = customers (page w)
  /\ loading (page w') = false.
Proof.
  intros Hb Hin Hph.
  unfold handleAddCustomer, run, run_during, bind at 1, closure. cbn.
  destruct (trim (phoneNumber (newCustomer (page w)))) eqn:Et;
    [congruence|].
  cbn [nonempty negb].
  unfold try_finally, try_catch, bind, await, insert_customer.
  assert (Ex : existsb
                 (fun c => String.eqb (Customer.phone_number c)
                                      (phoneNumber (newCustomer (page w))))
                 (customers_table (store w)) = true).
  { apply existsb_exists. exists c0. split; [exact Hin |].
    apply String.eqb_eq, Hph. }
  destruct vt; cbn; rewrite Ex; cbn; repeat split; reflexivity.
Qed.

Lemma add_customer_duplicate_phone_witness :
  let w := mkWorld shop
             (mkState [] "" None true
                      (mkNewCustomer "5551234567" "Alice again" (num 0))
                      "" "" false [] false (num 1) (num 10) "" "" [] false)
             [] utc_zone in
  error (page (run (handleAddCustomer Redeem10) w))
  = "This phone number already exists"%string
  /\ customers_table (store (run (handleAddCustomer Redeem10) w))
     = customers_table shop.
Proof.
  intros w.
  destruct (add_customer_duplicate_phone Redeem10 w alice) as (E1 & E2 & _).
  - vm_compute. discriminate.
  - left. reflexivity.
  - reflexivity.
  - split; [exact E1 | exact E2].
Defined.

Lemma handleAddCustomer_inserts (vt : variant) (w : World) :
  trim (phoneNumber (newCustomer (page w))) <> ""%string ->
  phone_matches (phoneNumber (newCustomer (page w))) (store w) = [] ->
  let typed := newCustomer (page w) in
  let row :=
    Customer.mk (fresh_id (store w)) (phoneNumber typed)
                (if nonempty (name typed) then Some (name typed) else None)
                (num 0) (clock (store w)) in
  let w' := run (handleAddCustomer vt) w in
  customers_table (store w') = customers_table (store w) ++ [row]
  /\ transactions_table (store w') = transactions_table (store w)
  /\ currentCustomer (page w') = Some row
  /\ customers (page w') = customers (page w) ++ [row]
  /\ showAddForm (page w') = false
  /\ newCustomer (page w') = mkNewCustomer "" "" (num 0)
  /\ error (page w') = ""%string
  /\ searchPhone (page w') = searchPhone (page w).
Proof.
  intros Hb Hnew.
  unfold handleAddCustomer, run, run_during, bind at 1, closure. cbn.
  destruct (trim (phoneNumber (newCustomer (page w)))) eqn:Et;
    [congruence|].
  cbn [nonempty negb].
  unfold try_finally, try_catch, bind, await, insert_customer.
  assert (Ex : existsb
                 (fun c => String.eqb (Customer.phone_number c)
                                      (phoneNumber (newCustomer (page w))))
                 (customers_table (store w)) = false).
  { destruct (existsb _ _) eqn:E; [| reflexivity].
    apply existsb_exists in E. destruct E as (c & Hin & Hc).
    assert (I : In c (phone_matches (phoneNumber (newCustomer (page w)))
                                    (store w)))
      by (apply filter_In; split; assumption).
    rewrite Hnew in I. destruct I. }
  destruct vt; cbn; rewrite Ex; cbn; repeat split; reflexivity.
Qed.

(** A phone number that no customer has yet creates the customer: one row
    is appended with the phone number as typed, the name or no name, and
    zero points; the new customer is selected and the form is cleared. *)
Theorem add_customer_creates_row (vt : variant) (w : World) :
  trim (phoneNumber (newCustomer (page w))) <> ""%string ->
  phone_matches (phoneNumber (newCustomer (page w))) (store w) = [] ->
  let typed := newCustomer (page w) in
  let row :=
    Customer.mk (fresh_id (store w)) (phoneNumber typed)
                (if nonempty (name typed) then Some (name typed) else None)
                (num 0) (clock (store w)) in
  let w' := run (handleAddCustomer vt) w in
  customers_table (store w') = customers_table (store w) ++ [row]
  /\ transactions_table (store w') = transactions_table (store w)
  /\ currentCustomer (page w') = Some row
  /\ customers (page w') = customers (page w) ++ [row]
  /\ showAddForm (page w') = false
  /\ newCustomer (page w') = mkNewCustomer "" "" (num 0)
  /\ error (page w') = ""%string
  /\ searchPhone (page w') = searchPhone (page w).
Proof. exact (handleAddCustomer_inserts vt w). Qed.

Lemma add_customer_creates_row_witness :
  let w := mkWorld shop
             (mkState [] "" None true (mkNewCustomer "5557654321" "" (num 0))
                      "" "" false [] false (num 1) (num 10) "" "" [] false)
             [] utc_zone in
  customers_table (store (run (handleAddCustomer Redeem5) w))
  = customers_table shop
    ++ [Customer.mk (fresh_id shop) "5557654321" None (num 0) (clock shop)].
Proof.
  intros w.
  destruct (add_customer_creates_row Redeem5 w) as (E1 & _).
  - vm_compute. discriminate.
  - reflexivity.
  - exact E1.
Defined.

(** Searching reads the store and never writes to it, and leaves the
    search term in place. *)
Lemma handleSearch5_reads_only (w : World) :
  let w' := run handleSearch5 w in
  customers_table (store w') = customers_table (store w)
  /\ transactions_table (store w') = transactions_table (store w)
  /\ clock (store w') = clock (store w)
  /\ next_id (store w') = next_id (store w)
  /\ searchPhone (page w') = searchPhone (page w)
  /\ zone w' = zone w.
Proof.
  unfold handleSearch5, run, run_during, bind at 1, closure. cbn.
  unfold try_finally, try_catch, bind, await, select_customer_by_phone,
    select_customers_by_name.
  cbn.
  destruct (phone_regex_test _); cbn.
  - destruct (filter _ (customers_table (store w))) as [|c [|c' l]]; cbn;
      repeat split; reflexivity.
  - destruct (pattern_ok _); cbn;
      [destruct (filter _ (customers_table (store w))) as [|c [|c' l]];
       cbn |];
      repeat split; reflexivity.
Qed.

Lemma digit_not_white_space (c : ascii) :
  is_digit c = true -> is_white_space c = false.
Proof.
  unfold is_digit, is_white_space. intros H.
  apply andb_true_iff in H. destruct H as [A B].
  apply Z.leb_le in A. apply Z.leb_le in B.
  destruct (Z.leb_spec 9 (char_code c)), (Z.leb_spec (char_code c) 13),
    (Z.eqb_spec (char_code c) 32), (Z.eqb_spec (char_code c) 160);
    cbn; try reflexivity; lia.
Qed.

Lemma trimStart_digits (l : list ascii) :
  forallb is_digit l = true -> trimStart l = l.
Proof.
  destruct l as [|c l]; [reflexivity|]. cbn [forallb trimStart].
  intros H. apply andb_true_iff in H.
  rewrite (digit_not_white_space c) by apply H. reflexivity.
Qed.

Lemma forallb_rev {A} (p : A -> bool) (l : list A) :
  forallb p (rev l) = forallb p l.
Proof.
  induction l as [|a l IH]; [reflexivity|].
  cbn [rev forallb]. rewrite forallb_app, IH. cbn. 
  rewrite andb_true_r. apply andb_comm.
Qed.

(** A string of digits is its own trim. *)
Lemma trim_digits (s : string) :
  forallb is_digit (list_ascii_of_string s) = true -> trim s = s.
Proof.
  intros H. unfold trim, trimEnd.
  rewrite (trimStart_digits _ H).
  rewrite trimStart_digits by (rewrite forallb_rev; exact H).
  rewrite rev_involutive. apply string_of_list_ascii_of_string.
Qed.

(** Round trip through the two forms: when a search by phone number finds
    nobody, submitting the form it opens creates the customer, and the
    same search then selects that customer, with zero points. *)
Theorem search_miss_add_then_found (vt : variant) (w : World) :
  let input := trim (searchPhone (page w)) in
  seven_or_more_digits input ->
  phone_matches input (store w) = [] ->
  let w1 := run handleSearch5 w in
  let w2 := run (handleAddCustomer vt) w1 in
  let w3 := run handleSearch5 w2 in
  showAddForm (page w1) = true
  /\ phoneNumber (newCustomer (page w1)) = input
  /\ exists row,
       customers_table (store w2) = customers_table (store w) ++ [row]
       /\ Customer.phone_number row = input
       /\ Customer.total_points row = num 0
       /\ currentCustomer (page w2) = Some row
       /\ currentCustomer (page w3) = Some row
       /\ showAddForm (page w3) = false.
Proof.
  intros input Hs Hmiss w1 w2 w3.
  assert (Hp : phone_regex_test input = true)
    by (apply phone_regex_test_spec; exact Hs).
  destruct (search_by_phone w Hp) as [_ M]. fold input in M.
  rewrite Hmiss in M. destruct M as (M1 & M2 & M3).
  destruct (handleSearch5_reads_only w) as (F1 & F2 & F3 & F4 & F5 & _).
  fold w1 in M1, M2, M3, F1, F2, F3, F4, F5.
  assert (Hd : forallb is_digit (list_ascii_of_string input) = true).
  { unfold phone_regex_test in Hp. apply andb_true_iff in Hp. apply Hp. }
  assert (Hlen : input <> ""%string).
  { intros E. destruct Hs as [L _]. rewrite E in L. cbn in L. lia. }
  destruct (handleAddCustomer_inserts vt w1)
    as (A1 & A2 & A3 & _ & _ & _ & _ & A8).
  { rewrite M3, (trim_digits _ Hd). exact Hlen. }
  { rewrite M3. unfold phone_matches. rewrite F1. exact Hmiss. }
  fold w2 in A1, A3, A8. rewrite M3 in A1, A3.
  set (row := Customer.mk (fresh_id (store w1)) input
                (if nonempty (name (newCustomer (page w1)))
                 then Some (name (newCustomer (page w1))) else None)
                (num 0) (clock (store w1))) in *.
  assert (Hin2 : trim (searchPhone (page w2)) = input)
    by (rewrite A8, F5; reflexivity).
  assert (Hp2 : phone_regex_test (trim (searchPhone (page w2))) = true)
    by (rewrite Hin2; exact Hp).
  destruct (search_by_phone w2 Hp2) as [_ N]. rewrite Hin2 in N.
  assert (Hm2 : phone_matches input (store w2) = [row]).
  { unfold phone_matches in *. rewrite A1, filter_app, F1, Hmiss.
    cbn. rewrite String.eqb_refl. reflexivity. }
  rewrite Hm2 in N. destruct N as (N1 & N2 & _).
  refine (conj M2 (conj M3 (ex_intro _ row _))).
  rewrite F1 in A1.
  refine (conj A1 (conj eq_refl (conj eq_refl (conj A3 (conj N1 N2))))).
Qed.

Lemma search_miss_add_then_found_witness :
  exists row,
    Customer.phone_number row = "5557654321"%string
    /\ Customer.total_points row = num 0
    /\ currentCustomer
         (page (run handleSearch5
                  (run (handleAddCustomer Redeem5)
                       (run handleSearch5 (searching " 5557654321")))))
       = Some row.
Proof.
  destruct (search_miss_add_then_found Redeem5 (searching " 5557654321"))
    as (_ & _ & row & _ & R2 & R3 & _ & R5 & _).
  - apply phone_regex_test_spec. vm_compute. reflexivity.
  - reflexivity.
  - exists row. split; [exact R2 | split; [exact R3 | exact R5]].
Defined.

(** The search of the second variant always asks for the phone number as
    typed, without trimming it; when nobody has it, the form to add a
    customer opens with that phone number filled in. *)
Theorem search_second_variant (w : World) :
  let typed := searchPhone (page w) in
  let w' := run handleSearch10 w in
  requests (store w') = requests (store w) ++ [SelectCustomerByPhone typed]
  /\ customers_table (store w') = customers_table (store w)
  /\ loading (page w') = false
  /\ match phone_matches typed (store w) with
     | [] => currentCustomer (page w') = None
             /\ showAddForm (page w') = true
             /\ phoneNumber (newCustomer (page w')) = typed
     | [c] => currentCustomer (page w') = Some c
              /\ Customer.phone_number c = typed
              /\ showAddForm (page w') = false
              /\ error (page w') = ""%string
     | _ => error (page w') = "Failed to search customer"%string
            /\ currentCustomer (page w') = currentCustomer (page w)
     end.
Proof.
  unfold handleSearch10, run, run_during, bind at 1, closure. cbn.
  unfold try_finally, try_catch, bind, await, select_customer_by_phone,
    phone_matches.
  cbn.
  destruct (filter _ (customers_table (store w))) as [|c [|c' l]] eqn:E; cbn;
    repeat split; try reflexivity.
  assert (I : In c (filter
                      (fun c0 => String.eqb (Customer.phone_number c0)
                                            (searchPhone (page w)))
                      (customers_table (store w))))
    by (rewrite E; left; reflexivity).
  apply filter_In in I. apply String.eqb_eq, I.
Qed.

(** ** Accrual and redemption off the main path *)

(** With no customer selected, adding points and redeeming do nothing at
    all. *)
Theorem no_customer_no_effect (vt : variant) (w : World) (r : number) :
  currentCustomer (page w) = None ->
  run (handleAddPoints vt) w = w /\ run (handleRedeem vt r) w = w.
Proof.
  intros H. unfold handleAddPoints, handleRedeem, run, run_during, bind, closure.
  cbn. rewrite H. split; reflexivity.
Qed.

Lemma no_customer_no_effect_witness :
  run (handleAddPoints Redeem5) (searching "x") = searching "x"
  /\ run (handleRedeem Redeem5 (num 5)) (searching "x") = searching "x".
Proof.
  apply (no_customer_no_effect Redeem5 (searching "x") (num 5)).
  reflexivity.
Defined.

(** When the store has no row for the selected customer, an accrual that
    passes the guard fails: the update is asked for, no row and no
    transaction is written, the failure is shown and the spinner is
    off. *)
Theorem accrue_fails_without_row (vt : variant) (w : World) (c : Customer.t) :
  currentCustomer (page w) = Some c ->
  le (Math_floor (Number (purchaseAmount (page w)))) (num 0) = false ->
  filter (fun x => String.eqb (Customer.id x) (Customer.id c))
         (customers_table (store w)) = [] ->
  let w' := run (handleAddPoints vt) w in
  error (page w') = "Failed to add points"%string
  /\ customers_table (store w') = customers_table (store w)
  /\ transactions_table (store w') = transactions_table (store w)
  /\ requests (store w')
     = requests (store w)
       ++ [UpdateTotalPoints (Customer.id c)
             (add (Customer.total_points c)
                  (Math_floor (Number (purchaseAmount (page w)))))]
  /\ currentCustomer (page w') = Some c
  /\ purchaseAmount (page w') = purchaseAmount (page w)
  /\ loading (page w') = false.
Proof.
  intros Hcur Hle Hrow.
  unfold handleAddPoints, run, run_during, bind at 1, closure. cbn.
  rewrite Hcur. cbn. rewrite Hle.
  unfold try_finally, try_catch, bind, await, update_total_points.
  destruct vt; cbn; destruct (as_integer _); cbn; rewrite ?Hrow; cbn;
    rewrite ?Hcur; repeat split; reflexivity.
Qed.

Lemma accrue_fails_without_row_witness :
  let ghost := Customer.mk "row-000000000099" "5550000000" None (num 10) 0 in
  error (page (run (handleAddPoints Redeem5) (at_counter ghost "5")))
  = "Failed to add points"%string
  /\ customers_table (store (run (handleAddPoints Redeem5)
                                 (at_counter ghost "5")))
     = customers_table shop.
Proof.
  intros ghost.
  destruct (accrue_fails_without_row Redeem5 (at_counter ghost "5") ghost)
    as (E1 & E2 & _).
  - reflexivity.
  - vm_compute. reflexivity.
  - reflexivity.
  - split; [exact E1 | exact E2].
Defined.

(** The same for a redemption that passes both guards. *)
Theorem redeem_fails_without_row (vt : variant) (w : World) (r : number)
    (c : Customer.t) :
  currentCustomer (page w) = Some c ->
  strict_neq (rem r (num (REDEEM_INCREMENT vt))) (num 0) = false ->
  lt (Customer.total_points c) (pointsNeeded vt r) = false ->
  filter (fun x => String.eqb (Customer.id x) (Customer.id c))
         (customers_table (store w)) = [] ->
  let w' := run (handleRedeem vt r) w in
  error (page w') = "Failed to redeem points"%string
  /\ customers_table (store w') = customers_table (store w)
  /\ transactions_table (store w') = transactions_table (store w)
  /\ currentCustomer (page w') = Some c
  /\ loading (page w') = false.
Proof.
  intros Hcur Hinc Hlt Hrow.
  unfold handleRedeem, run, run_during, bind at 1, closure. cbn.
  rewrite Hcur. cbn. rewrite Hinc, Hlt.
  unfold try_finally, try_catch, bind, await, update_total_points.
  destruct vt; cbn; destruct (as_integer _); cbn; rewrite ?Hrow; cbn;
    rewrite ?Hcur; repeat split; reflexivity.
Qed.

Lemma redeem_fails_without_row_witness :
  let ghost := Customer.mk "row-000000000099" "5550000000" None (num 500) 0 in
  error (page (run (handleRedeem Redeem10 (num 10)) (at_counter ghost "")))
  = "Failed to redeem points"%string.
Proof.
  intros ghost.
  destruct (redeem_fails_without_row Redeem10 (at_counter ghost "") (num 10)
                                     ghost) as (E1 & _).
  - reflexivity.
  - vm_compute. reflexivity.
  - vm_compute. reflexivity.
  - reflexivity.
  - exact E1.
Defined.

(** ** The options offered are the redemptions that go through *)

Lemma increment_buys_100 (vt : variant) :
  REDEEM_INCREMENT vt * points_per_dollar vt = 100.
Proof. destruct vt; reflexivity. Qed.

(** Every option that [getRedemptionOptions] offers for the balance of
    the selected customer, an integer of the column, is a redemption
    that succeeds and leaves a balance that is not negative, and the next
    multiple of the increment after the last option is refused for
    insufficient points. *)
Theorem options_are_redeemable (vt : variant) (w : World)
    (c row : Customer.t) (b : Z) (fuel : nat) :
  currentCustomer (page w) = Some c ->
  has_row (store w) (Customer.id c) row ->
  Customer.total_points c = num b ->
  0 <= b ->
  b <= int4_max ->
  (Z.to_nat (b / 100) < fuel)%nat ->
  exists options,
    getRedemptionOptions vt fuel (num b) = Some options
    /\ (forall x, In x options ->
        exists z, x = num z
          /\ 0 <= b - z * points_per_dollar vt
          /\ error (page (run (handleRedeem vt x) w)) = ""%string
          /\ has_row (store (run (handleRedeem vt x) w)) (Customer.id c)
               (set_points (Customer.id c)
                           (num (b - z * points_per_dollar vt)) row))
    /\ error (page (run (handleRedeem vt
                           (num (REDEEM_INCREMENT vt * (b / 100 + 1)))) w))
       = InsufficientPoints.
Proof.
  intros Hcur Hrow Hb Hb0 Hmax Hfuel.
  exists (multiples (REDEEM_INCREMENT vt) (Z.to_nat (b / 100))).
  pose proof (increment_buys_100 vt) as H100.
  assert (Hq : 0 <= b / 100) by (apply Z.div_pos; lia).
  pose proof (Z.mul_div_le b 100 ltac:(lia)) as Hfloor.
  pose proof (Z.mod_pos_bound b 100 ltac:(lia)) as Hmod.
  pose proof (Z.div_mod b 100 ltac:(lia)) as Hdm.
  refine (conj (getRedemptionOptions_multiples vt b fuel (conj Hb0 Hmax)
                                               Hfuel)
               (conj _ _)).
  - intros x Hx. unfold multiples in Hx. apply in_map_iff in Hx.
    destruct Hx as (k & <- & Hk). apply in_seq in Hk.
    exists (REDEEM_INCREMENT vt * Z.of_nat k).
    assert (Hn : REDEEM_INCREMENT vt * Z.of_nat k * points_per_dollar vt
                 = 100 * Z.of_nat k) by nia.
    assert (Hle : 100 * Z.of_nat k <= b) by nia.
    destruct (redeem_multiple vt w c row b (Z.of_nat k) Hcur Hrow Hb)
      as (R1 & _ & R3 & _).
    + rewrite Hn. exact Hle.
    + lia.
    + rewrite Hn. lia.
    + refine (conj eq_refl (conj _ (conj R1 R3))). rewrite Hn. lia.
  - assert (Hn : REDEEM_INCREMENT vt * (b / 100 + 1) * points_per_dollar vt
                 = 100 * (b / 100 + 1)) by nia.
    unfold int4_max in Hmax.
    destruct (handleRedeem_rejects_balance vt [] w
                (num (REDEEM_INCREMENT vt * (b / 100 + 1))) c Hcur)
      as (_ & S2 & _).
    + rewrite rem_multiple by apply REDEEM_INCREMENT_nonzero. reflexivity.
    + rewrite pointsNeeded_multiple, Hb, lt_num by (rewrite Hn; lia).
      apply Z.ltb_lt. nia.
    + exact S2.
Qed.

Lemma options_are_redeemable_witness :
  exists options,
    getRedemptionOptions Redeem5 5 (num 250) = Some options
    /\ error (page (run (handleRedeem Redeem5 (num (5 * (250 / 100 + 1))))
                        (at_counter alice "")))
       = InsufficientPoints.
Proof.
  destruct (options_are_redeemable Redeem5 (at_counter alice "") alice alice
                                   250 5) as (o & O1 & _ & O3).
  - reflexivity.
  - reflexivity.
  - reflexivity.
  - lia.
  - vm_compute. discriminate.
  - vm_compute. lia.
  - exists o. split; [exact O1 | exact O3].
Defined.

(** ** The ledger invariant *)

Lemma sum_app (l : list Z) (x : Z) :
  fold_right Z.add 0 (l ++ [x]) = fold_right Z.add 0 l + x.
Proof. induction l as [|a l IH]; cbn; [lia | rewrite IH; lia]. Qed.

Lemma deltas_of_appended (id : string) (s s' : Store) (tx : Transaction.t) :
  transactions_table s' = transactions_table s ++ [tx] ->
  Transaction.customer_id tx = id ->
  deltas_of id s' = deltas_of id s ++ [Transaction.points_changed tx].
Proof.
  intros E Hid. unfold deltas_of. rewrite E, filter_app, map_app.
  cbn [filter]. rewrite Hid, String.eqb_refl. reflexivity.
Qed.

Lemma set_points_same_id (c : Customer.t) (p : number) :
  Customer.id (set_points (Customer.id c) p c) = Customer.id c.
Proof. apply id_set_points. Qed.

(** One committed change of [d] points, recorded as such, keeps the
    ledger consistent when the new balance is one of the column and not
    negative. *)
Lemma consistent_after_commit (w w' : World) (c : Customer.t)
    (b d : Z) (deltas : list Z) (tx : Transaction.t) :
  has_row (store w) (Customer.id c) c ->
  deltas_of (Customer.id c) (store w) = map num deltas ->
  b = fold_right Z.add 0 deltas ->
  0 <= b + d <= int4_max ->
  currentCustomer (page w')
  = Some (set_points (Customer.id c) (num (b + d)) c) ->
  customers_table (store w')
  = map (set_points (Customer.id c) (num (b + d))) (customers_table (store w)) ->
  transactions_table (store w') = transactions_table (store w) ++ [tx] ->
  Transaction.customer_id tx = Customer.id c ->
  Transaction.points_changed tx = num d ->
  ledger_consistent w'.
Proof.
  intros Hrow Hd Hsum Hpos Hcur Htab Htx Hid Hpc.
  destruct (has_row_updated _ _ _ _ _ Hrow Htab) as [U1 U2].
  exists (set_points (Customer.id c) (num (b + d)) c), (b + d), (deltas ++ [d]).
  rewrite set_points_same_id.
  refine (conj Hcur (conj U1 (conj U2 (conj Hpos (conj _ _))))).
  - rewrite (deltas_of_appended _ _ _ _ Htx Hid), Hd, Hpc, map_app.
    reflexivity.
  - rewrite sum_app. lia.
Qed.

Lemma consistent_when_untouched (w w' : World) :
  ledger_consistent w ->
  customers_table (store w') = customers_table (store w) ->
  transactions_table (store w') = transactions_table (store w) ->
  currentCustomer (page w') = currentCustomer (page w) ->
  ledger_consistent w'.
Proof.
  intros (c & b & deltas & H1 & H2 & H3 & H4 & H5 & H6) Hs Ht Hc.
  exists c, b, deltas. unfold has_row, deltas_of in *. rewrite Hs, Ht, Hc.
  repeat split; try assumption; apply H4.
Qed.

Lemma map_num_inj (l l' : list Z) : map num l = map num l' -> l = l'.
Proof.
  revert l'. induction l as [| a l IH]; intros [| a' l'] E;
    try discriminate E; [reflexivity |].
  cbn [map] in E.
  pose proof (f_equal (fun x => match x with y :: _ => y | [] => NaN end) E)
    as E1.
  pose proof (f_equal (@tl number) E) as E2.
  cbn [tl] in E1, E2.
  f_equal; [apply num_inj, E1 | apply IH, E2].
Qed.

Lemma as_integer_cases (x : number) :
  (exists z, as_integer x = inl z) \/ (exists code, as_integer x = inr code).
Proof. destruct (as_integer x); [left | right]; eexists; reflexivity. Qed.

Lemma lost_cases (o : list bool) :
  (lost o = false -> lost (later o) = false) ->
  lost o = true \/ (lost o = false /\ lost (later o) = false).
Proof. intros H. destruct (lost o); [left | right]; auto. Qed.

(** The invariant of the data model is kept by the two ledger operations
    as long as the two writes of an operation share their fate: if the
    ledger of the selected customer is consistent and the insert of the
    transaction reaches the store whenever the update of the balance
    does, the ledger is still consistent after an accrual, whatever the
    purchase amount holds, and after a redemption of any amount.  An
    update that the store refuses or that is lost changes nothing.  When
    the update is written and the insert is lost the ledger is no longer
    consistent: the page does not look at the answer of the insert. *)
Theorem ledger_stays_consistent (vt : variant) (w : World) (o : list bool) :
  ledger_consistent w ->
  (lost o = false -> lost (later o) = false) ->
  ledger_consistent (run_during o (handleAddPoints vt) w)
  /\ (forall r : number,
         ledger_consistent (run_during o (handleRedeem vt r) w))
  /\ ledger_consistent (serving_dana "60")
  /\ ~ ledger_consistent
         (run_during [false; true] (handleAddPoints vt) (serving_dana "60")).
Proof.
  intros Hc Ho.
  pose proof Hc as (c & b & deltas & Hcur & Hrow & Hb & Hb0 & Hd & Hsum).
  refine (conj _ (conj _ (conj _ _))).
  - set (amount := Math_floor (Number (purchaseAmount (page w)))).
    destruct (le amount (num 0)) eqn:G.
    { destruct (handleAddPoints_rejects vt o w c Hcur G) as (S1 & _ & S3 & _).
      apply (consistent_when_untouched w); [exact Hc | | |];
        rewrite ?S1, ?S3, ?Hcur; reflexivity. }
    assert (Unt : (exists code,
                      as_integer (add (Customer.total_points c) amount)
                      = inr code) ->
                  ledger_consistent (run_during o (handleAddPoints vt) w)).
    { intros [code Hp]. destruct (lost o) eqn:L.
      - destruct (handleAddPoints_update_lost vt o w c Hcur G L)
          as (S1 & _ & S3 & _).
        apply (consistent_when_untouched w); [exact Hc | | |];
          rewrite ?S1, ?S3, ?Hcur; reflexivity.
      - destruct (handleAddPoints_refused vt o w c code Hcur G Hp L)
          as (S1 & S2 & _ & _ & S5 & _).
        apply (consistent_when_untouched w); [exact Hc | | |];
          rewrite ?S1, ?S2, ?S5, ?Hcur; reflexivity. }
    destruct (Number (purchaseAmount (page w))) as [| | | q] eqn:Hq;
      cbn [Math_floor] in amount.
    + apply Unt. rewrite Hb. eexists. reflexivity.
    + apply Unt. rewrite Hb. eexists. reflexivity.
    + discriminate G.
    + set (d := Qfloor (this q)) in *.
      assert (F : Math_floor (Number (purchaseAmount (page w))) = num d)
        by (rewrite Hq; reflexivity).
      assert (Hgt : 0 < d)
        by (unfold amount in G; rewrite le_num in G;
            apply Z.leb_gt in G; exact G).
      destruct (Z.le_gt_cases (b + d) int4_max) as [Hmax | Hmax].
      * destruct (lost_cases o Ho) as [L | [L1 L2]].
        -- destruct (handleAddPoints_update_lost vt o w c Hcur) as
             (S1 & _ & S3 & _); [rewrite F; exact G | exact L |].
           apply (consistent_when_untouched w); [exact Hc | | |];
             rewrite ?S1, ?S3, ?Hcur; reflexivity.
        -- destruct (accrual_values c b d _ Hb F (proj1 Hb0) Hgt Hmax)
             as (V1 & _ & V3 & V4).
           destruct (handleAddPoints_proceeds vt o w c c (b + d) d
                       Hcur V1 Hrow V3 V4 L1 L2)
             as (T1 & T2 & T3 & _).
           eapply (consistent_after_commit w _ c b d deltas);
             try eassumption; try reflexivity.
           unfold int4_max in *. lia.
      * apply Unt. unfold amount. rewrite Hb.
        apply accrual_beyond_column; assumption.
  - intros r.
    destruct (strict_neq (rem r (num (REDEEM_INCREMENT vt))) (num 0)) eqn:G.
    { destruct (handleRedeem_rejects_increment vt o w r c Hcur G)
        as (S1 & _ & S3 & _).
      apply (consistent_when_untouched w); [exact Hc | | |];
        rewrite ?S1, ?S3, ?Hcur; reflexivity. }
    destruct (lt (Customer.total_points c) (pointsNeeded vt r)) eqn:L.
    { destruct (handleRedeem_rejects_balance vt o w r c Hcur G L)
        as (S1 & _ & S3 & _).
      apply (consistent_when_untouched w); [exact Hc | | |];
        rewrite ?S1, ?S3, ?Hcur; reflexivity. }
    assert (Unt : (exists code,
                      as_integer (sub (Customer.total_points c)
                                      (pointsNeeded vt r)) = inr code) ->
                  ledger_consistent (run_during o (handleRedeem vt r) w)).
    { intros [code Hp]. destruct (lost o) eqn:Lo.
      - destruct (handleRedeem_update_lost vt o w r c Hcur G L Lo)
          as (S1 & _ & S3 & _).
        apply (consistent_when_untouched w); [exact Hc | | |];
          rewrite ?S1, ?S3, ?Hcur; reflexivity.
      - destruct (handleRedeem_refused vt o w r c code Hcur G L Hp Lo)
          as (S1 & S2 & _ & _ & S5 & _).
        apply (consistent_when_untouched w); [exact Hc | | |];
          rewrite ?S1, ?S2, ?S5, ?Hcur; reflexivity. }
    assert (M : exists k, r = num (REDEEM_INCREMENT vt * k)).
    { unfold strict_neq in G. apply negb_false_iff in G.
      destruct r as [| | |q]; try (destruct vt; discriminate G).
      apply rem_zero_multiple in G; [| apply REDEEM_INCREMENT_nonzero].
      destruct G as [k ->]. exists k. reflexivity. }
    destruct M as [k ->].
    set (z := REDEEM_INCREMENT vt * k) in *.
    pose proof (points_per_dollar_bounds vt) as Hppd.
    unfold int4_max in Hb0.
    destruct (Z.lt_ge_cases z (- 2 ^ 48)) as [Low | NotLow].
    { destruct (pointsNeeded_far_below vt k Low) as (Q & EQ & HQ).
      fold z in EQ. apply Unt. rewrite EQ, Hb.
      apply redeem_far_below; [lia | exact HQ]. }
    destruct (Z.le_gt_cases z (2 ^ 48)) as [NotHigh | High].
    2:{ exfalso. rewrite Hb in L.
        rewrite (at_least_lt (2 ^ 44) b (pointsNeeded vt (num z))) in L;
          [discriminate L | lia |].
        apply pointsNeeded_at_least. exact High. }
    set (needed := z * points_per_dollar vt).
    assert (Hn : Z.abs needed <= 20 * 2 ^ 48) by (unfold needed; nia).
    assert (PN : pointsNeeded vt (num z) = num needed).
    { unfold z, needed. apply pointsNeeded_multiple.
      fold z. fold needed. lia. }
    pose proof L as L'. rewrite PN, Hb, lt_num in L'.
    apply Z.ltb_ge in L'.
    assert (A : sub (Customer.total_points c) (pointsNeeded vt (num z))
                = num (b - needed))
      by (rewrite PN, Hb, sub_num by lia; reflexivity).
    destruct (as_integer_cases
                (sub (Customer.total_points c) (pointsNeeded vt (num z))))
      as [[p Hp] | Hp]; [| apply Unt; exact Hp].
    destruct (lost_cases o Ho) as [Lo | [L1 L2]].
    + destruct (handleRedeem_update_lost vt o w (num z) c Hcur G L Lo)
        as (S1 & _ & S3 & _).
      apply (consistent_when_untouched w); [exact Hc | | |];
        rewrite ?S1, ?S3, ?Hcur; reflexivity.
    + pose proof Hp as Hp'. rewrite A in Hp'.
      apply as_integer_inl in Hp'. destruct Hp' as [Ep [_ Hp4]].
      apply num_inj in Ep. subst p. unfold int4_max in Hp4.
      destruct (handleRedeem_proceeds vt o w (num z) c c
                  (b - needed) z (- needed) Hcur G L Hrow Hp)
        as (T1 & T2 & T3 & _); [| | exact L1 | exact L2 |].
      * apply as_integer_num. unfold int4, int4_min, int4_max.
        unfold needed in *. nia.
      * rewrite PN, neg_num. apply as_integer_num.
        unfold int4, int4_min, int4_max. lia.
      * replace (b - needed) with (b + - needed) in T1, T3 by lia.
        eapply (consistent_after_commit w _ c b (- needed) deltas);
          try eassumption; try reflexivity.
        unfold int4_max. lia.
  - exists dana, 140, [200; -100; 40].
    repeat split; try reflexivity; vm_compute; discriminate.
  - intros (c' & b' & deltas' & Kcur & _ & Kb & _ & Kd & Ksum).
    assert (N : Number (purchaseAmount (page (serving_dana "60"))) = num 60)
      by (apply number_eqb_eq; vm_compute; reflexivity).
    assert (F : Math_floor (Number (purchaseAmount (page (serving_dana "60"))))
                = num 60) by (rewrite N; apply Math_floor_num).
    destruct (accrual_values dana 140 60 _ eq_refl F) as (V1 & _ & V3 & _);
      [lia | lia | vm_compute; discriminate |].
    destruct (handleAddPoints_insert_lost vt [false; true] (serving_dana "60")
                dana dana 200 eq_refl V1 eq_refl V3 eq_refl eq_refl)
      as (_ & T2 & T3 & _).
    rewrite T3 in Kcur. injection Kcur as <-.
    unfold deltas_of in Kd. rewrite T2 in Kd.
    change (Customer.total_points
              (set_points (Customer.id dana) (num 200) dana)) with (num 200)
      in Kb.
    apply num_inj in Kb. subst b'.
    change (map num [200; -100; 40] = map num deltas') in Kd.
    apply map_num_inj in Kd. subst deltas'.
    cbn in Ksum. discriminate Ksum.
Qed.

Lemma ledger_stays_consistent_witness :
  ledger_consistent (run (handleAddPoints Redeem5) (serving_dana "60"))
  /\ ledger_consistent (run (handleRedeem Redeem5 (num 5)) (serving_dana "")).
Proof.
  assert (H : forall p, ledger_consistent (serving_dana p)).
  { intros p. exists dana, 140, [200; -100; 40].
    repeat split; try reflexivity; vm_compute; discriminate. }
  split.
  - exact (proj1 (ledger_stays_consistent Redeem5 (serving_dana "60") []
                    (H _) (fun e => e))).
  - exact (proj1 (proj2 (ledger_stays_consistent Redeem5 (serving_dana "") []
                           (H _) (fun e => e))) (num 5)).
Defined.

(** ** An accrual while the store cannot be reached *)

(** An accrual of a positive integer whose update does not reach the
    store writes nothing and shows the message of a failed accrual.  When
    the update is written and the insert of the transaction does not
    reach the store, the new balance stays in the store and on the page,
    no transaction is recorded, and no message is shown: the page does
    not look at the answer of the insert. *)
Theorem accrual_during_outage (vt : variant) (o : list bool) (w : World)
    (c row : Customer.t) (b d : Z) :
  currentCustomer (page w) = Some c ->
  has_row (store w) (Customer.id c) row ->
  Customer.total_points c = num b ->
  Number (purchaseAmount (page w)) = num d ->
  0 < d ->
  0 <= b ->
  b + d <= int4_max ->
  let w' := run_during o (handleAddPoints vt) w in
  (lost o = true ->
   store w' = store w
   /\ error (page w') = FailedToAddPoints
   /\ currentCustomer (page w') = Some c)
  /\ (lost o = false ->
      lost (later o) = true ->
      has_row (store w') (Customer.id c)
              (set_points (Customer.id c) (num (b + d)) row)
      /\ transactions_table (store w') = transactions_table (store w)
      /\ currentCustomer (page w')
         = Some (set_points (Customer.id c) (num (b + d)) row)
      /\ error (page w') = ""%string).
Proof.
  intros Hcur Hrow Hb Hd Hpos Hb0 Hmax w'.
  assert (F : Math_floor (Number (purchaseAmount (page w))) = num d)
    by (rewrite Hd; apply Math_floor_num).
  destruct (accrual_values c b d _ Hb F Hb0 Hpos Hmax) as (V1 & _ & V3 & _).
  split.
  - intros L.
    destruct (handleAddPoints_update_lost vt o w c Hcur V1 L)
      as (S1 & S2 & S3 & _).
    subst w'. repeat split; assumption.
  - intros L1 L2.
    destruct (handleAddPoints_insert_lost vt o w c row (b + d) Hcur V1 Hrow
                V3 L1 L2) as (T1 & T2 & T3 & T4).
    destruct (has_row_updated _ _ _ _ _ Hrow T1) as [U1 _].
    subst w'. repeat split; assumption.
Qed.

Lemma accrual_during_outage_witness :
  store (run_during [true] (handleAddPoints Redeem5) (serving_dana "60"))
  = ledger_shop
  /\ has_row
       (store (run_during [false; true] (handleAddPoints Redeem5)
                          (serving_dana "60")))
       (Customer.id dana)
       (set_points (Customer.id dana) (num (140 + 60)) dana)
  /\ transactions_table
       (store (run_during [false; true] (handleAddPoints Redeem5)
                          (serving_dana "60")))
     = transactions_table ledger_shop.
Proof.
  assert (N : Number (purchaseAmount (page (serving_dana "60"))) = num 60)
    by (apply number_eqb_eq; vm_compute; reflexivity).
  assert (M : 140 + 60 <= int4_max) by (vm_compute; discriminate).
  pose proof (accrual_during_outage Redeem5 [true] (serving_dana "60")
                dana dana 140 60 eq_refl eq_refl eq_refl N
                ltac:(lia) ltac:(lia) M) as H1.
  pose proof (accrual_during_outage Redeem5 [false; true] (serving_dana "60")
                dana dana 140 60 eq_refl eq_refl eq_refl N
                ltac:(lia) ltac:(lia) M) as H2.
  cbv zeta in H1, H2.
  destruct (proj1 H1 eq_refl) as (A & _).
  destruct (proj2 H2 eq_refl eq_refl) as (B & C & _).
  exact (conj A (conj B C)).
Defined.

(** ** Paging through the history *)

Lemma ToIntegerOrInfinity_num (z : Z) : ToIntegerOrInfinity (num z) = Int z.
Proof. unfold ToIntegerOrInfinity, num. rewrite Qtrunc_Zq. reflexivity. Qed.

Lemma firstn_nil_any {A} (n : nat) : firstn n (@nil A) = [].
Proof. destruct n; reflexivity. Qed.

(** A slice between two indices [0 <= a <= b]. *)
Lemma slice_num {A} (l : list A) (a b : Z) :
  0 <= a <= b ->
  slice l (num a) (num b)
  = firstn (Z.to_nat (b - a)) (skipn (Z.to_nat a) l).
Proof.
  intros Hab. unfold slice. rewrite !ToIntegerOrInfinity_num.
  cbn [relative_index].
  destruct (Z.ltb_spec a 0); [lia|]. destruct (Z.ltb_spec b 0); [lia|].
  set (len := Z.of_nat (List.length l)).
  destruct (Z.le_gt_cases len a) as [Ha | Ha].
  - rewrite !skipn_all2 by (unfold len in *; lia).
    rewrite !firstn_nil_any. reflexivity.
  - rewrite (Z.min_l a len) by lia.
    destruct (Z.le_gt_cases b len) as [Hb | Hb].
    + rewrite (Z.min_l b len) by lia. reflexivity.
    + rewrite (Z.min_r b len) by lia.
      rewrite !firstn_all2; [reflexivity | |];
        rewrite length_skipn; unfold len in *; lia.
Qed.

Lemma firstn_plus {A} (n m : nat) (l : list A) :
  firstn (n + m) l = firstn n l ++ firstn m (skipn n l).
Proof.
  revert l. induction n as [|n IH]; intros l; [reflexivity|].
  destruct l as [|x l]; cbn.
  - rewrite firstn_nil_any. reflexivity.
  - rewrite IH. reflexivity.
Qed.

Lemma chunks_concat {A} (p : nat) (l : list A) (k : nat) :
  List.concat (map (fun i => firstn p (skipn (i * p) l)) (seq 0 k))
  = firstn (k * p) l.
Proof.
  induction k as [|k IH]; [reflexivity|].
  rewrite seq_S, map_app, concat_app, IH. cbn [map List.concat].
  rewrite app_nil_r.
  replace (S k * p)%nat with (k * p + p)%nat by lia.
  rewrite firstn_plus. reflexivity.
Qed.

Lemma page_chunk (st : State) (p i : Z) :
  historyPageSize st = num p ->
  0 < p ->
  1 <= i ->
  i * p <= 2 ^ 53 ->
  paginatedTransactions (at_page st i)
  = firstn (Z.to_nat p)
           (skipn (Z.to_nat (i - 1) * Z.to_nat p) (transactions st)).
Proof.
  intros Hp Hpos Hi Hmax. unfold paginatedTransactions, at_page.
  cbn [historyPage historyPageSize transactions].
  rewrite Hp, sub_num, !mul_num, slice_num by nia.
  f_equal; [f_equal; lia | f_equal; nia].
Qed.

(** The pages 1 to [totalPages] are consecutive chunks of the loaded
    transactions: put one after the other they give back the whole
    history, each has at most [pageSize] rows, and no page after the last
    one has any.  The array has fewer than 2^32 elements, and the page
    size and the offsets of the pages looked at are integers that a
    double holds exactly. *)
Theorem pages_partition_history (st : State) (p k : Z) :
  historyPageSize st = num p ->
  0 < p ->
  p <= 2 ^ 52 ->
  Z.of_nat (List.length (transactions st)) < 2 ^ 32 ->
  totalPages st = num k ->
  List.concat (map (fun i => paginatedTransactions (at_page st (Z.of_nat i)))
              (seq 1 (Z.to_nat k)))
  = transactions st
  /\ (forall i, 1 <= i -> i * p <= 2 ^ 53 ->
      Z.of_nat (List.length (paginatedTransactions (at_page st i))) <= p)
  /\ (forall i, k < i -> 1 <= i -> i * p <= 2 ^ 53 ->
      paginatedTransactions (at_page st i) = []).
Proof.
  intros Hp Hpos Hpmax Hn Hk.
  set (n := Z.of_nat (List.length (transactions st))) in *.
  destruct (ceil_div_num n p) as (k' & Hk' & Hlo & Hhi);
    [unfold n in *; lia | lia |].
  assert (Ek : k' = k).
  { unfold totalPages in Hk. rewrite Hp in Hk. fold n in Hk.
    rewrite Hk' in Hk. apply num_inj, Hk. }
  subst k'.
  assert (Hk0 : 0 <= k) by (unfold n in *; nia).
  refine (conj _ (conj _ _)).
  - rewrite <- seq_shift, map_map.
    rewrite (map_ext_in _ (fun i => firstn (Z.to_nat p)
                                 (skipn (i * Z.to_nat p) (transactions st)))).
    + rewrite chunks_concat. apply firstn_all2. unfold n in *. nia.
    + intros i Hin. apply in_seq in Hin.
      rewrite (page_chunk st p) by (try assumption; nia).
      do 2 f_equal. lia.
  - intros i Hi Hmax. rewrite (page_chunk st p) by assumption.
    rewrite length_firstn. lia.
  - intros i Hlt Hi Hmax. rewrite (page_chunk st p) by assumption.
    rewrite skipn_all2; [apply firstn_nil_any |]. unfold n in *. nia.
Qed.

Lemma pages_partition_history_witness :
  List.concat (map (fun i => paginatedTransactions
                          (at_page (page (browsing 1)) (Z.of_nat i)))
              (seq 1 (Z.to_nat 2)))
  = eleven.
Proof.
  assert (T : totalPages (page (browsing 1)) = num 2)
    by (apply number_eqb_eq; vm_compute; reflexivity).
  assert (L : Z.of_nat (List.length (transactions (page (browsing 1))))
              < 2 ^ 32) by (vm_compute; reflexivity).
  pose proof (pages_partition_history (page (browsing 1)) 10 2 eq_refl
                ltac:(lia) ltac:(lia) L T) as H.
  exact (proj1 H).
Defined.

Lemma Math_max_num (a b : Z) : Math_max (num a) (num b) = num (Z.max a b).
Proof.
  change (Math_max (num a) (num b))
    with (if lt (num a) (num b) then num b else num a).
  rewrite lt_num. destruct (Z.ltb_spec a b); f_equal; lia.
Qed.

Lemma Math_min_num (a b : Z) : Math_min (num a) (num b) = num (Z.min a b).
Proof.
  change (Math_min (num a) (num b))
    with (if lt (num b) (num a) then num b else num a).
  rewrite lt_num. destruct (Z.ltb_spec b a); f_equal; lia.
Qed.

(** The Previous and Next buttons keep the page number between 1 and the
    page count: from a page [i] in that range, Previous goes to [i - 1]
    except on page 1 where it stays, and Next goes to [i + 1] except on
    the last page, or when there is no page, where it stays.  Neither
    touches the store or the loaded transactions.  The array has fewer
    than 2^32 elements and the page size is an integer that a double
    holds exactly. *)
Theorem page_buttons_stay_in_range (w : World) (p i k : Z) :
  historyPageSize (page w) = num p ->
  0 < p ->
  p <= 2 ^ 53 ->
  Z.of_nat (List.length (transactions (page w))) < 2 ^ 32 ->
  historyPage (page w) = num i ->
  totalPages (page w) = num k ->
  1 <= i <= Z.max 1 k ->
  historyPage (page (run clickPrevious w)) = num (Z.max 1 (i - 1))
  /\ historyPage (page (run clickNext w))
     = num (if i <? k then i + 1 else i)
  /\ 1 <= Z.max 1 (i - 1) <= Z.max 1 k
  /\ 1 <= (if i <? k then i + 1 else i) <= Z.max 1 k
  /\ store (run clickPrevious w) = store w
  /\ store (run clickNext w) = store w
  /\ transactions (page (run clickPrevious w)) = transactions (page w)
  /\ transactions (page (run clickNext w)) = transactions (page w).
Proof.
  intros Hp Hpos Hpmax Hn Hi Hk Hr.
  assert (Hnn : 0 <= k <= 2 ^ 32).
  { destruct (ceil_div_num (Z.of_nat (List.length (transactions (page w))))
                           p) as (k' & Hk' & Hlo & Hhi); [lia | lia |].
    unfold totalPages in Hk. rewrite Hp, Hk' in Hk.
    apply num_inj in Hk. subst k'. nia. }
  unfold clickPrevious, clickNext, run, run_during, bind, closure, updateHistoryPage.
  cbn. rewrite Hi, Hk, !strict_eq_num.
  destruct (Z.eqb_spec i 1) as [E1 | Hi1];
    destruct (Z.eqb_spec i k) as [E | Hik];
    destruct (Z.eqb_spec k 0) as [E0 | Hk0];
    destruct (Z.ltb_spec i k) as [Hlt | Hge];
    cbn; rewrite ?Hi, ?sub_num, ?add_num, ?Math_max_num, ?Math_min_num;
    try lia;
    repeat split; try reflexivity; try (f_equal; lia); try lia.
Qed.

Lemma page_buttons_stay_in_range_witness :
  historyPage (page (run clickPrevious (browsing 2))) = num (Z.max 1 (2 - 1))
  /\ historyPage (page (run clickNext (browsing 2)))
     = num (if 2 <? 2 then 2 + 1 else 2).
Proof.
  destruct (page_buttons_stay_in_range (browsing 2) 10 2 2)
    as (E1 & E2 & _).
  - reflexivity.
  - lia.
  - lia.
  - vm_compute. reflexivity.
  - reflexivity.
  - apply number_eqb_eq. vm_compute. reflexivity.
  - lia.
  - split; [exact E1 | exact E2].
Defined.

(** ** The calendar *)

Lemma DayFromYear_step (y : Z) :
  DayFromYear (y + 1) = DayFromYear y + DaysInYear y.
Proof.
  unfold DayFromYear, DaysInYear, is_leap_year.
  replace (y + 1 - 1970) with (y - 1970 + 1) by lia.
  replace (y + 1 - 1969) with (y - 1969 + 1) by lia.
  replace (y + 1 - 1901) with (y - 1901 + 1) by lia.
  replace (y + 1 - 1601) with (y - 1601 + 1) by lia.
  destruct (Z.eqb_spec (y mod 4) 0), (Z.eqb_spec (y mod 100) 0),
    (Z.eqb_spec (y mod 400) 0); cbn [andb orb negb];
    Z.div_mod_to_equations; lia.
Qed.

Lemma DayFromYear_mono (y1 y2 : Z) :
  y1 <= y2 -> DayFromYear y1 <= DayFromYear y2.
Proof.
  intros H. unfold DayFromYear. Z.div_mod_to_equations. lia.
Qed.

Lemma YearFromDay_bounds (d : Z) :
  DayFromYear (YearFromDay d) <= d < DayFromYear (YearFromDay d + 1).
Proof.
  unfold YearFromDay.
  set (y := 1970 + d * 400 / 146097).
  assert (Hy : DayFromYear (y - 1) <= d < DayFromYear (y + 2)).
  { unfold y, DayFromYear. Z.div_mod_to_equations. lia. }
  destruct (Z.ltb_spec d (DayFromYear y)).
  - replace (y - 1 + 1) with y by lia. lia.
  - destruct (Z.leb_spec (DayFromYear (y + 1)) d).
    + replace (y + 1 + 1) with (y + 2) by lia. lia.
    + lia.
Qed.

Lemma month_of_day_spec (leap : bool) (d : Z) :
  0 <= d < (if leap then 366 else 365) ->
  let m := month_of_day leap d 11 in
  0 <= m <= 11
  /\ days_before_month leap m <= d < days_before_month leap (m + 1).
Proof.
  intros Hd. cbv zeta. unfold month_of_day.
  repeat match goal with
         | |- context [Z.leb ?a ?b] =>
             destruct (Z.leb_spec a b)
         end;
    destruct leap; cbn in *; lia.
Qed.

Lemma month_of_day_range (leap : bool) (d : Z) :
  0 <= month_of_day leap d 11 <= 11.
Proof.
  unfold month_of_day.
  repeat match goal with
         | |- context [Z.leb ?a ?b] =>
             destruct (Z.leb_spec a b)
         end; cbn; lia.
Qed.

(** The year, month and day of a time value give back its day number,
    and a day of the month past the end of the month carries over. *)
Lemma MakeDay_of_fields (t j : Z) :
  MakeDay (YearFromTime t) (MonthFromTime t) (DateFromTime t + j)
  = Day t + j.
Proof.
  unfold MakeDay, DateFromTime, DayWithinYear.
  pose proof (month_of_day_range (is_leap_year (YearFromTime t))
                (Day t - DayFromYear (YearFromTime t))) as Hm.
  fold (DayWithinYear t) in Hm. fold (MonthFromTime t) in Hm.
  rewrite Z.div_small, Z.mod_small by lia.
  rewrite Z.add_0_r. lia.
Qed.

Lemma DayWithinYear_range (t : Z) :
  0 <= DayWithinYear t < DaysInYear (YearFromTime t).
Proof.
  unfold DayWithinYear, YearFromTime.
  pose proof (YearFromDay_bounds (Day t)) as H.
  rewrite DayFromYear_step in H. lia.
Qed.

Lemma DateFromTime_range (t : Z) :
  1 <= DateFromTime t
  <= days_in_month (YearFromTime t) (MonthFromTime t).
Proof.
  unfold DateFromTime, days_in_month, MonthFromTime.
  pose proof (DayWithinYear_range t) as Hd. unfold DaysInYear in Hd.
  pose proof (month_of_day_spec (is_leap_year (YearFromTime t))
                                (DayWithinYear t) Hd) as [_ Hm].
  cbv zeta in Hm. lia.
Qed.

(** ** Dates as strings *)

Lemma char_code_digit_char (x : Z) : char_code (digit_char x) = 48 + x mod 10.
Proof.
  unfold char_code, digit_char.
  pose proof (Z.mod_pos_bound x 10 ltac:(lia)) as H.
  rewrite N_ascii_embedding by lia. lia.
Qed.

Lemma digit_in_base_digit_char (x : Z) :
  digit_in_base 10 (digit_char x) = Some (x mod 10).
Proof.
  unfold digit_in_base. rewrite char_code_digit_char.
  pose proof (Z.mod_pos_bound x 10 ltac:(lia)) as H.
  destruct (Z.leb_spec 48 (48 + x mod 10)); [| lia].
  destruct (Z.leb_spec (48 + x mod 10) 57); [| lia].
  cbn [andb].
  destruct (Z.ltb_spec (48 + x mod 10 - 48) 10); [| lia].
  f_equal. lia.
Qed.

Lemma take_digits_digit_char (x : Z) (r : list ascii) (acc n : Z) :
  take_digits 10 (digit_char x :: r) acc n
  = take_digits 10 r (10 * acc + x mod 10) (n + 1).
Proof. cbn [take_digits]. rewrite digit_in_base_digit_char. reflexivity. Qed.

Lemma take_four_digits (y : Z) :
  0 <= y <= 9999 ->
  take_digits 10 (pad_digits 4 y) 0 0 = (y, 4, []).
Proof.
  intros Hy. cbn [pad_digits app].
  rewrite !take_digits_digit_char. cbn [take_digits].
  f_equal. f_equal. Z.div_mod_to_equations. lia.
Qed.

Lemma take_two_digits (x : Z) :
  0 <= x <= 99 ->
  take_digits 10 (pad_digits 2 x) 0 0 = (x, 2, []).
Proof.
  intros Hx. cbn [pad_digits app].
  rewrite !take_digits_digit_char. cbn [take_digits].
  f_equal. f_equal. Z.div_mod_to_equations. lia.
Qed.

Lemma days_in_month_le_31 (y m : Z) : days_in_month y m <= 31 \/ m < 0 \/ 11 < m.
Proof.
  unfold days_in_month.
  destruct (Z.ltb_spec m 0); [lia|]. destruct (Z.ltb_spec 11 m); [lia|].
  left.
  assert (C : m = 0 \/ m = 1 \/ m = 2 \/ m = 3 \/ m = 4 \/ m = 5 \/ m = 6
              \/ m = 7 \/ m = 8 \/ m = 9 \/ m = 10 \/ m = 11) by lia.
  destruct (is_leap_year y);
    repeat (destruct C as [-> | C]; [cbn; lia |]); subst; cbn; lia.
Qed.

(** The date part of [toISOString], read back as a date, is midnight UTC
    of the same day, for the years 0 to 9999. *)
Lemma date_part_round_trip (t : Z) :
  0 <= YearFromTime t <= 9999 ->
  parse_date_only (string_slice0 10 (toISOString t))
  = Some (MakeDate (Day t) 0).
Proof.
  intros Hy.
  pose proof (month_of_day_range (is_leap_year (YearFromTime t))
                                 (DayWithinYear t)) as Hm.
  fold (MonthFromTime t) in Hm.
  pose proof (DateFromTime_range t) as Hd.
  destruct (days_in_month_le_31 (YearFromTime t) (MonthFromTime t))
    as [H31 | H31]; [| lia].
  unfold toISOString, string_slice0.
  destruct (Z.leb_spec 0 (YearFromTime t)); [| lia].
  destruct (Z.leb_spec (YearFromTime t) 9999); [| lia].
  cbn [andb pad_digits app string_of_list_ascii substring].
  unfold parse_date_only.
  cbn [list_ascii_of_string].
  change [digit_char (YearFromTime t / 10 / 10 / 10);
          digit_char (YearFromTime t / 10 / 10);
          digit_char (YearFromTime t / 10); digit_char (YearFromTime t)]
    with (pad_digits 4 (YearFromTime t)).
  change [digit_char ((MonthFromTime t + 1) / 10);
          digit_char (MonthFromTime t + 1)]
    with (pad_digits 2 (MonthFromTime t + 1)).
  change [digit_char (DateFromTime t / 10); digit_char (DateFromTime t)]
    with (pad_digits 2 (DateFromTime t)).
  rewrite take_four_digits, !take_two_digits by lia.
  replace (MonthFromTime t + 1 - 1) with (MonthFromTime t) by lia.
  change (char_code "-" =? 45) with true. cbn [andb].
  destruct (Z.leb_spec 1 (MonthFromTime t + 1)); [| lia].
  destruct (Z.leb_spec (MonthFromTime t + 1) 12); [| lia].
  destruct (Z.leb_spec 1 (DateFromTime t)); [| lia].
  destruct (Z.leb_spec (DateFromTime t)
              (days_in_month (YearFromTime t) (MonthFromTime t))); [| lia].
  cbn [andb].
  pose proof (MakeDay_of_fields t 0) as E. rewrite !Z.add_0_r in E.
  rewrite E. reflexivity.
Qed.

Lemma digit_in_base_range (b : Z) (c : ascii) (v : Z) :
  digit_in_base b c = Some v -> 0 <= v < b.
Proof.
  unfold digit_in_base.
  destruct (Z.leb_spec 48 (char_code c)), (Z.leb_spec (char_code c) 57),
    (Z.leb_spec 97 (char_code c)), (Z.leb_spec (char_code c) 102),
    (Z.leb_spec 65 (char_code c)), (Z.leb_spec (char_code c) 70);
    cbn [andb];
    match goal with
    | |- context [Z.ltb ?x ?y] => destruct (Z.ltb_spec x y)
    end; intros Hv; inversion Hv; subst; lia.
Qed.

Lemma take_digits_some (b : Z) (c : ascii) (r : list ascii) (acc n v : Z) :
  digit_in_base b c = Some v ->
  take_digits b (c :: r) acc n = take_digits b r (b * acc + v) (n + 1).
Proof. intros E. cbn [take_digits]. rewrite E. reflexivity. Qed.

Lemma take_digits_none (b : Z) (c : ascii) (r : list ascii) (acc n : Z) :
  digit_in_base b c = None ->
  take_digits b (c :: r) acc n = (acc, n, c :: r).
Proof. intros E. cbn [take_digits]. rewrite E. reflexivity. Qed.

(** What a date string that the parser accepts stands for: a year from 0
    to 9999, a month and a day of that month, at midnight UTC. *)
Lemma parse_date_only_inv (s : string) (t0 : Z) :
  parse_date_only s = Some t0 ->
  exists y m d,
    0 <= y <= 9999 /\ 1 <= m <= 12 /\ 1 <= d <= days_in_month y (m - 1)
    /\ t0 = MakeDate (MakeDay y (m - 1) d) 0.
Proof.
  unfold parse_date_only.
  destruct (list_ascii_of_string s)
    as [|y1 [|y2 [|y3 [|y4 [|h1 [|m1 [|m2 [|h2 [|d1 [|d2 [|x l]]]]]]]]]]];
    try discriminate.
  intros H.
  repeat match type of H with
         | context [take_digits 10 (?c :: ?r) ?acc ?n] =>
             let E := fresh "E" in
             let v := fresh "v" in
             destruct (digit_in_base 10 c) as [v|] eqn:E;
             [ rewrite (take_digits_some 10 c r acc n v E) in H
             | rewrite (take_digits_none 10 c r acc n E) in H;
               cbn [Z.add Pos.add Pos.succ] in H; cbv beta iota in H;
               discriminate H ]
         end.
  cbn [take_digits Z.add Pos.add Pos.succ] in H. cbv beta iota in H.
  repeat match goal with
         | E : digit_in_base 10 _ = Some _ |- _ =>
             apply digit_in_base_range in E
         end.
  match type of H with
  | (if ?c then _ else _) = _ => destruct c eqn:C; [| discriminate H]
  end.
  repeat match type of C with
         | (_ && _) = true => apply andb_true_iff in C; destruct C as [C ?]
         end.
  repeat match goal with
         | L : (_ <=? _) = true |- _ => apply Z.leb_le in L
         end.
  match type of H with
  | Some (MakeDate (MakeDay ?y (?m - 1) ?d) 0) = Some _ => exists y, m, d
  end.
  repeat split; try assumption; try lia. congruence.
Qed.

Lemma days_before_month_bounds (leap : bool) (m : Z) :
  0 <= m <= 12 ->
  0 <= days_before_month leap m <= (if leap then 366 else 365).
Proof.
  intros Hm.
  assert (C : m = 0 \/ m = 1 \/ m = 2 \/ m = 3 \/ m = 4 \/ m = 5 \/ m = 6
              \/ m = 7 \/ m = 8 \/ m = 9 \/ m = 10 \/ m = 11 \/ m = 12) by lia.
  destruct leap;
    repeat (destruct C as [-> | C]; [cbn; lia |]); subst; cbn; lia.
Qed.

(** A date of the calendar lies in its year. *)
Lemma MakeDay_in_year (y m d : Z) :
  1 <= m <= 12 ->
  1 <= d <= days_in_month y (m - 1) ->
  DayFromYear y <= MakeDay y (m - 1) d < DayFromYear (y + 1).
Proof.
  intros Hm Hd. unfold MakeDay, days_in_month in *.
  rewrite Z.div_small, Z.mod_small, Z.add_0_r by lia.
  rewrite DayFromYear_step. unfold DaysInYear.
  replace (m - 1 + 1) with m in Hd by lia.
  pose proof (days_before_month_bounds (is_leap_year y) (m - 1) ltac:(lia)).
  pose proof (days_before_month_bounds (is_leap_year y) m ltac:(lia)).
  destruct (is_leap_year y); lia.
Qed.

Lemma YearFromDay_between (d lo hi : Z) :
  DayFromYear lo <= d < DayFromYear hi ->
  lo <= YearFromDay d < hi.
Proof.
  intros H. pose proof (YearFromDay_bounds d) as B.
  split.
  - destruct (Z.le_gt_cases lo (YearFromDay d)); [assumption|].
    pose proof (DayFromYear_mono (YearFromDay d + 1) lo ltac:(lia)). lia.
  - destruct (Z.lt_ge_cases (YearFromDay d) hi); [assumption|].
    pose proof (DayFromYear_mono hi (YearFromDay d) ltac:(lia)). lia.
Qed.

(** ** The end of the date range on a host whose clocks never change *)

Lemma setDate_next_day_fixed_zone (o t : Z) :
  setDate (fixed_zone o) t (getDate (fixed_zone o) t + 1)
  = TimeClip (t + msPerDay).
Proof.
  unfold setDate, getDate, LocalTime, UTC, LocalTZA, fixed_zone.
  cbn [initial_offset transitions offset_at_utc offset_at_local].
  rewrite MakeDay_of_fields. f_equal.
  unfold MakeDate, Day, TimeWithinDay, msPerDay.
  Z.div_mod_to_equations. lia.
Qed.

Lemma end_bound_fixed_zone (o : Z) (s : string)
    (t0 : Z) :
  new_Date s = Some t0 ->
  t0 < MakeDate (MakeDay 9999 11 31) 0 ->
  exists s', end_bound (fixed_zone o) s = Some s'
             /\ timestamptz_in s' = Some (t0 + msPerDay).
Proof.
  intros Hs Hmax.
  destruct (parse_date_only_inv s t0 Hs) as (y & m & d & Hy & Hm & Hd & E).
  pose proof (MakeDay_in_year y m d Hm Hd) as Hin.
  pose proof (DayFromYear_mono 0 y ltac:(lia)) as Hlo.
  set (D := MakeDay y (m - 1) d) in *.
  assert (Ht : t0 = D * msPerDay) by (rewrite E; unfold MakeDate; lia).
  assert (Hhi : D + 1 < DayFromYear 10000).
  { rewrite Ht in Hmax. unfold MakeDate in Hmax.
    change (MakeDay 9999 11 31) with (DayFromYear 10000 - 1) in Hmax.
    unfold msPerDay in Hmax. lia. }
  assert (V0 : DayFromYear 0 = -719528) by reflexivity.
  assert (V1 : DayFromYear 10000 = 2932897) by reflexivity.
  unfold end_bound. rewrite Hs, setDate_next_day_fixed_zone.
  unfold TimeClip.
  destruct (Z.leb_spec (Z.abs (t0 + msPerDay)) 8640000000000000) as [_ | Hbig];
    [| unfold msPerDay in *; lia].
  eexists. split; [reflexivity |].
  unfold timestamptz_in.
  assert (HD : Day (t0 + msPerDay) = D + 1).
  { unfold Day. rewrite Ht.
    replace (D * msPerDay + msPerDay) with ((D + 1) * msPerDay) by lia.
    apply Z.div_mul. discriminate. }
  rewrite date_part_round_trip.
  - rewrite HD. f_equal. unfold MakeDate. lia.
  - unfold YearFromTime. rewrite HD.
    pose proof (YearFromDay_between (D + 1) 0 10000 ltac:(lia)). lia.
Qed.

(** On a host with a fixed offset from UTC, whatever the offset, the bound
    that [loadTransactions] sends for an end date before 9999-12-31 is
    the date of the following day: read as the store reads it, it is the
    end date plus one day. *)
Theorem end_bound_is_next_day_without_transitions (o : Z) (s : string)
    (t0 : Z) :
  new_Date s = Some t0 ->
  t0 < MakeDate (MakeDay 9999 11 31) 0 ->
  exists s', end_bound (fixed_zone o) s = Some s'
             /\ timestamptz_in s' = Some (t0 + msPerDay).
Proof. exact (end_bound_fixed_zone o s t0). Qed.

Lemma end_bound_is_next_day_without_transitions_witness :
  exists s', end_bound (fixed_zone (- 8 * msPerHour)) "2024-03-10" = Some s'
             /\ timestamptz_in s'
                = Some (MakeDate (MakeDay 2024 2 10) 0 + msPerDay).
Proof.
  apply (end_bound_is_next_day_without_transitions
           (- 8 * msPerHour) "2024-03-10" (MakeDate (MakeDay 2024 2 10) 0)).
  - reflexivity.
  - vm_compute. reflexivity.
Defined.

(** ** The history, newest first *)

Lemma insert_desc_In {A} (key : A -> Z) (x y : A) (l : list A) :
  In y (insert_desc key x l) <-> y = x \/ In y l.
Proof.
  induction l as [|a l IH]; cbn.
  - intuition congruence.
  - destruct (key a <=? key x); cbn; [intuition congruence |].
    rewrite IH. intuition congruence.
Qed.

Lemma order_desc_In {A} (key : A -> Z) (y : A) (l : list A) :
  In y (order_desc key l) <-> In y l.
Proof.
  induction l as [|a l IH]; cbn; [tauto|].
  rewrite insert_desc_In, IH. intuition congruence.
Qed.

Lemma insert_desc_sorted {A} (key : A -> Z) (x : A) (l : list A) :
  StronglySorted (fun a b => key b <= key a) l ->
  StronglySorted (fun a b => key b <= key a) (insert_desc key x l).
Proof.
  induction l as [|a l IH]; intros S; cbn.
  - constructor; constructor.
  - inversion S as [|a' l' S' F]; subst.
    destruct (Z.leb_spec (key a) (key x)).
    + constructor; [exact S |]. constructor; [assumption |].
      rewrite Forall_forall in *. intros b Hb. specialize (F b Hb). lia.
    + constructor; [apply IH, S' |].
      rewrite Forall_forall in *. intros b Hb.
      apply insert_desc_In in Hb. destruct Hb as [-> | Hb]; [lia |].
      apply F, Hb.
Qed.

Lemma order_desc_sorted {A} (key : A -> Z) (l : list A) :
  StronglySorted (fun a b => key b <= key a) (order_desc key l).
Proof.
  induction l as [|a l IH]; cbn; [constructor |].
  apply insert_desc_sorted, IH.
Qed.

(** On a host with a fixed offset from UTC, with a start date and an end
    date before 9999-12-31, [loadTransactions] puts on the page exactly
    the transactions of the customer created from the start of the start
    day (UTC) to the end of the end day, the whole end day included,
    newest first, and writes nothing to the store. *)
Theorem history_between_dates (o : Z) (w : World) (st : State)
    (id : string) (t1 t2 : Z) :
  zone w = fixed_zone o ->
  timestamptz_in (historyStartDate st) = Some t1 ->
  new_Date (historyEndDate st) = Some t2 ->
  t2 < MakeDate (MakeDay 9999 11 31) 0 ->
  let w' := run (loadTransactions st id) w in
  (forall tx,
      In tx (transactions (page w'))
      <-> In tx (transactions_table (store w))
          /\ Transaction.customer_id tx = id
          /\ t1 <= Transaction.created_at tx < t2 + msPerDay)
  /\ StronglySorted
       (fun a b => Transaction.created_at b <= Transaction.created_at a)
       (transactions (page w'))
  /\ customers_table (store w') = customers_table (store w)
  /\ transactions_table (store w') = transactions_table (store w).
Proof.
  intros Hz H1 H2 Hmax.
  destruct (end_bound_fixed_zone o _ t2 H2 Hmax) as (s' & Hs' & Hp').
  assert (N1 : nonempty (historyStartDate st) = true).
  { destruct (historyStartDate st); [discriminate H1 | reflexivity]. }
  assert (N2 : nonempty (historyEndDate st) = true).
  { destruct (historyEndDate st); [discriminate H2 | reflexivity]. }
  unfold loadTransactions, run, run_during.
  cbv beta iota delta [bind host_zone world].
  rewrite Hz, N1, N2, Hs'.
  cbv beta iota zeta delta [bind ret await select_transactions bound_in
                            option_map world outages lost later].
  rewrite H1, Hp'.
  cbv beta iota zeta delta [error_of data ok setTransactions set_page snd
                            on_world world outages
                            log store page transactions customers_table
                            transactions_table at_or_after before].
  refine (conj _ (conj (order_desc_sorted _ _) (conj eq_refl eq_refl))).
  intros tx. rewrite order_desc_In, filter_In, !andb_true_iff.
  rewrite String.eqb_eq, Z.leb_le, Z.ltb_lt. tauto.
Qed.

Lemma history_between_dates_witness :
  In march_purchase
     (transactions
        (page (run (loadTransactions
                      (page (history_of_alice (fixed_zone (- 8 * msPerHour))
                                              "2024-03-10" "2024-03-10"))
                      (Customer.id alice))
                   (history_of_alice (fixed_zone (- 8 * msPerHour))
                                     "2024-03-10" "2024-03-10")))).
Proof.
  assert (A1 : timestamptz_in "2024-03-10"
               = Some (MakeDate (MakeDay 2024 2 10) 0))
    by (vm_compute; reflexivity).
  assert (A2 : MakeDate (MakeDay 2024 2 10) 0
               < MakeDate (MakeDay 9999 11 31) 0)
    by (vm_compute; reflexivity).
  pose proof (history_between_dates (- 8 * msPerHour)
                (history_of_alice (fixed_zone (- 8 * msPerHour))
                                  "2024-03-10" "2024-03-10")
                (page (history_of_alice (fixed_zone (- 8 * msPerHour))
                                        "2024-03-10" "2024-03-10"))
                (Customer.id alice)
                (MakeDate (MakeDay 2024 2 10) 0)
                (MakeDate (MakeDay 2024 2 10) 0) eq_refl A1 A1 A2) as H.
  cbv zeta in H. destruct H as [H _].
  refine (proj2 (H march_purchase) _).
  split; [left; reflexivity | split; [reflexivity |]].
  split; [vm_compute; discriminate | vm_compute; reflexivity].
Defined.

(** ** Points as dollars *)

(** The dollars shown for a balance are exact: for an integer balance
    [b] from 0 to 2^48, which every balance of the column is, the text is
    [b * REDEEM_INCREMENT] hundredths of a dollar with two decimals, so
    that 100 points read as the increment; a balance of 250 reads [12.50]
    in the first variant and [25.00] in the second.  The quotient and the
    product are rounded to doubles before the text is made. *)
Theorem points_as_dollars (vt : variant) (b : Z) :
  0 <= b <= 2 ^ 48 ->
  formatPointsToDollars vt (num b) = Some (hundredths (b * REDEEM_INCREMENT vt))
  /\ formatPointsToDollars vt (num 100)
     = Some (hundredths (100 * REDEEM_INCREMENT vt))
  /\ formatPointsToDollars Redeem5 (num 250) = Some "12.50"%string
  /\ formatPointsToDollars Redeem10 (num 250) = Some "25.00"%string.
Proof.
  intros Hb.
  assert (G : forall v c, 0 <= c <= 2 ^ 48 ->
              formatPointsToDollars v (num c)
              = Some (hundredths (c * REDEEM_INCREMENT v))).
  { intros v c Hc. destruct v; unfold formatPointsToDollars;
      cbn [REDEEM_INCREMENT].
    - destruct (twentieth_near c Hc) as (r & -> & R0 & L & U).
      apply toFixed2_near; try assumption. lia.
    - destruct (tenth_near c Hc) as (r & -> & R0 & L & U).
      apply toFixed2_near; try assumption. lia. }
  refine (conj (G vt b Hb) (conj (G vt 100 ltac:(lia)) (conj _ _))).
  - rewrite (G Redeem5 250) by lia. vm_compute. reflexivity.
  - rewrite (G Redeem10 250) by lia. vm_compute. reflexivity.
Qed.

Lemma points_as_dollars_witness :
  formatPointsToDollars Redeem5 (num 1234)
  = Some (hundredths (1234 * REDEEM_INCREMENT Redeem5)).
Proof.
  apply (points_as_dollars Redeem5 1234). vm_compute.
  split; discriminate.
Defined.

(** ** The totals of the history view *)

Lemma or_else_num (a : Z) : or_else (num a) (num 0) = num a.
Proof.
  unfold or_else. rewrite truthy_num.
  destruct (Z.eqb_spec a 0) as [-> |]; reflexivity.
Qed.

Lemma to_Z_num (a : Z) : to_Z (num a) = a.
Proof. unfold to_Z, num. apply Qfloor_Zq. Qed.

Lemma amounts_nonneg (l : list Transaction.t) :
  Forall written_by_handlers l ->
  0 <= fold_right Z.add 0 (map (fun tx => to_Z (Transaction.amount tx)) l).
Proof.
  induction 1 as [|tx l (a & Ha & Ea & _) F IH]; cbn [map fold_right];
    [lia |].
  rewrite Ea, to_Z_num. lia.
Qed.

Lemma fold_left_amounts (l : list Transaction.t) (acc : Z) :
  Forall written_by_handlers l ->
  0 <= acc ->
  acc + fold_right Z.add 0 (map (fun tx => to_Z (Transaction.amount tx)) l)
  <= 2 ^ 53 ->
  fold_left (fun sum tx => add sum (or_else (Transaction.amount tx) (num 0)))
            l (num acc)
  = num (acc + fold_right Z.add 0
                 (map (fun tx => to_Z (Transaction.amount tx)) l)).
Proof.
  intros F. revert acc. induction F as [|tx l (a & Ha & Ea & Er) F IH];
    intros acc H0 Hmax; cbn [fold_left map fold_right] in *.
  - f_equal. lia.
  - pose proof (amounts_nonneg l F) as P.
    rewrite Ea, to_Z_num in *. rewrite or_else_num, add_num by lia.
    rewrite IH by lia. f_equal. lia.
Qed.

Lemma fold_left_redeemed (l : list Transaction.t) (acc : Z) :
  Forall written_by_handlers l ->
  Forall (fun tx => Transaction.type tx = "redeem"%string) l ->
  acc <= 0 ->
  - acc + 20 * fold_right Z.add 0
                 (map (fun tx => to_Z (Transaction.amount tx)) l)
  <= 2 ^ 53 ->
  fold_left
    (fun sum tx => add sum (or_else (Transaction.points_changed tx) (num 0)))
    l (num acc)
  = num (acc - 20 * fold_right Z.add 0
                      (map (fun tx => to_Z (Transaction.amount tx)) l)).
Proof.
  intros F. revert acc. induction F as [|tx l (a & Ha & Ea & Er) F IH];
    intros acc R H0 Hmax; cbn [fold_left map fold_right] in *.
  - f_equal. lia.
  - inversion R as [|? ? Rt Rl]; subst.
    pose proof (amounts_nonneg l F) as P.
    rewrite Ea, to_Z_num in *.
    change (points_per_dollar Redeem5) with 20 in Er.
    rewrite (Er Rt), or_else_num, add_num by lia.
    rewrite (IH _ Rl) by lia. f_equal. lia.
Qed.

Lemma Forall_filter {A} (P : A -> Prop) (p : A -> bool) (l : list A) :
  Forall P l -> Forall P (filter p l).
Proof.
  intros F. apply Forall_forall. intros x Hx. apply filter_In in Hx.
  rewrite Forall_forall in F. apply F, Hx.
Qed.

(** For a history whose rows are as the handlers of the first variant
    write them, with a sum of purchases up to 2^53 dollars and a sum of
    redemptions worth up to 2^48 points, the total spent is the sum of
    the purchase amounts, and the total redeemed, which the view derives
    from the point changes, reads as the sum of the dollar amounts
    redeemed.  The sums and the conversion to dollars are computed in
    doubles. *)
Theorem totals_match_amounts (txs : list Transaction.t) :
  Forall written_by_handlers txs ->
  sum_of_amounts "add" txs <= 2 ^ 53 ->
  points_per_dollar Redeem5 * sum_of_amounts "redeem" txs <= 2 ^ 48 ->
  totalSpent txs = num (sum_of_amounts "add" txs)
  /\ totalRedeemedPoints txs
     = num (- (points_per_dollar Redeem5 * sum_of_amounts "redeem" txs))
  /\ totalRedeemedDollars txs
     = Some (hundredths (100 * sum_of_amounts "redeem" txs)).
Proof.
  intros F Hadd Hred.
  change (points_per_dollar Redeem5) with 20 in *.
  assert (S : totalSpent txs = num (sum_of_amounts "add" txs)).
  { unfold totalSpent, sum_of_amounts in *.
    rewrite (fold_left_amounts _ 0 (Forall_filter _ _ _ F)); [reflexivity | lia |].
    exact Hadd. }
  pose proof (amounts_nonneg _
                (Forall_filter _ (fun tx => String.eqb (Transaction.type tx)
                                                       "redeem") _ F)) as P.
  fold (sum_of_amounts "redeem" txs) in P.
  assert (R : totalRedeemedPoints txs
              = num (- (20 * sum_of_amounts "redeem" txs))).
  { unfold totalRedeemedPoints, sum_of_amounts in *.
    rewrite (fold_left_redeemed _ 0 (Forall_filter _ _ _ F)).
    - f_equal.
    - apply Forall_forall. intros x Hx. apply filter_In in Hx.
      apply String.eqb_eq, Hx.
    - lia.
    - lia. }
  refine (conj S (conj R _)).
  unfold totalRedeemedDollars. rewrite R, neg_num.
  set (s := sum_of_amounts "redeem" txs) in *.
  replace (- - (20 * s)) with (20 * s) by lia.
  destruct (twentieth_near (20 * s)) as (r & -> & R0 & L & U); [lia |].
  replace (20 * s * 5) with (100 * s) in L, U by lia.
  apply toFixed2_near; try assumption. lia.
Qed.

Lemma totals_match_amounts_witness :
  totalSpent (transactions_table ledger_shop)
  = num (sum_of_amounts "add" (transactions_table ledger_shop))
  /\ totalRedeemedDollars (transactions_table ledger_shop)
     = Some (hundredths (100 * sum_of_amounts "redeem"
                                  (transactions_table ledger_shop))).
Proof.
  destruct (totals_match_amounts (transactions_table ledger_shop))
    as (E1 & _ & E3).
  - repeat constructor.
    + exists 200. split; [lia | split; [reflexivity | discriminate]].
    + exists 5. split; [lia | split; [reflexivity | reflexivity]].
    + exists 40. split; [lia | split; [reflexivity | discriminate]].
  - vm_compute. discriminate.
  - vm_compute. discriminate.
  - split; [exact E1 | exact E3].
Defined.

(** ** The page's update and the stored procedure *)

(** The page adds points by writing back the balance it holds plus the
    amount.  When the customer on the page is the row of the store, with
    a balance [b >= 0], and [b + d] is an integer of the column, this
    leaves the customers table exactly as the stored procedure
    [increment_points] would, called with the customer's id and the
    amount. *)
Theorem accrual_is_an_increment (vt : variant) (w : World) (c : Customer.t)
    (b d : Z) :
  currentCustomer (page w) = Some c ->
  has_row (store w) (Customer.id c) c ->
  Customer.total_points c = num b ->
  Number (purchaseAmount (page w)) = num d ->
  0 < d ->
  0 <= b ->
  b + d <= int4_max ->
  customers_table (store (run (handleAddPoints vt) w))
  = customers_table (increment_points (Customer.id c) d (store w)).
Proof.
  intros Hcur Hrow Hb Hd Hpos Hb0 Hmax.
  assert (F : Math_floor (Number (purchaseAmount (page w))) = num d)
    by (rewrite Hd; apply Math_floor_num).
  destruct (accrual_values c b d _ Hb F Hb0 Hpos Hmax) as (V1 & V2 & V3 & V4).
  destruct (handleAddPoints_proceeds vt [] w c c (b + d) d Hcur V1 Hrow
              V3 V4 eq_refl eq_refl) as (T1 & _).
  unfold run. rewrite T1. rewrite F in V2. unfold increment_points.
  cbn [customers_table]. apply map_ext_in. intros x Hx.
  unfold set_points.
  destruct (String.eqb (Customer.id x) (Customer.id c)) eqn:E;
    [| reflexivity].
  assert (I : In x (filter (fun y => String.eqb (Customer.id y)
                                                (Customer.id c))
                           (customers_table (store w))))
    by (apply filter_In; split; assumption).
  unfold has_row in Hrow. rewrite Hrow in I.
  destruct I as [<- | []]. rewrite V2. reflexivity.
Qed.

Lemma accrual_is_an_increment_witness :
  customers_table (store (run (handleAddPoints Redeem10)
                              (at_counter alice "40")))
  = customers_table (increment_points (Customer.id alice) 40 shop).
Proof.
  apply (accrual_is_an_increment Redeem10 (at_counter alice "40") alice
                                 250 40).
  - reflexivity.
  - reflexivity.
  - reflexivity.
  - apply number_eqb_eq. vm_compute. reflexivity.
  - lia.
  - lia.
  - vm_compute. discriminate.
Defined.

(** ** Loading the customers *)

Lemma insert_desc_perm {A} (key : A -> Z) (x : A) (l : list A) :
  Permutation (insert_desc key x l) (x :: l).
Proof.
  induction l as [|a l IH]; cbn [insert_desc]; [apply Permutation_refl |].
  destruct (key a <=? key x); [apply Permutation_refl |].
  apply Permutation_trans with (a :: x :: l);
    [apply perm_skip, IH | apply perm_swap].
Qed.

Lemma order_desc_perm {A} (key : A -> Z) (l : list A) :
  Permutation (order_desc key l) l.
Proof.
  induction l as [|a l IH]; cbn; [apply perm_nil |].
  eapply Permutation_trans; [apply insert_desc_perm |].
  apply perm_skip, IH.
Qed.

(** [loadCustomers] puts on the page the customers of the store, every
    row as often as the table has it, in the order in which the store
    hands them over, newest first, and leaves the tables of the store and
    the error message as they were. *)
Theorem load_customers_newest_first (w : World) :
  let w' := run loadCustomers w in
  Permutation (customers (page w')) (customers_table (store w))
  /\ (forall c, In c (customers (page w')) <-> In c (customers_table (store w)))
  /\ List.length (customers (page w'))
     = List.length (customers_table (store w))
  /\ StronglySorted
       (fun a b => Customer.created_at b <= Customer.created_at a)
       (customers (page w'))
  /\ customers_table (store w') = customers_table (store w)
  /\ transactions_table (store w') = transactions_table (store w)
  /\ error (page w') = error (page w).
Proof.
  unfold loadCustomers, run, run_during, try_catch, bind, await,
    select_customers.
  cbn.
  refine (conj (order_desc_perm _ _)
            (conj (fun c => order_desc_In _ c _)
               (conj (Permutation_length (order_desc_perm _ _))
                  (conj (order_desc_sorted _ _)
                        (conj eq_refl (conj eq_refl eq_refl)))))).
Qed.
